(** * mcp-project-context: ranking, extraction, compression and validation

    A shallow embedding of the TypeScript sources
    [src/analyzer.ts], [src/context-builder.ts],
    [src/context-validator.ts], [src/file-watcher.ts] and of the server
    that ties them together, followed by the properties of the
    natural-language specification that were checked against it and by
    further properties of the code.

    Conventions of the embedding.
    - A JavaScript string is a sequence of UTF-16 code units.  The model
      uses [string], i.e. sequences of code units below 256 (the Latin-1
      range); [String.length] is therefore the JavaScript [length].
    - Integer-valued JavaScript numbers (scores, counts, sizes) are [Z];
      array lengths are [nat].  The fractional scores of the validator are
      binary64 numbers, [ContextValidator.binary64].
    - A function that may throw returns a [Result]; code that also mutates
      the analyzer cache lives in the state-and-exception monad [M].
    - Regular expressions, the file system, [path] and the text renderers
      are parameters: records and section variables whose fields are the
      operations the code calls. *)

From Stdlib Require Import String Ascii List ZArith QArith Qround Qpower Bool Sumbool.
From Stdlib Require Import Lia Lqa Arith DecimalString.
From Stdlib Require Import Permutation Sorted.
Import ListNotations.

Set Implicit Arguments.

Local Close Scope Q_scope.
Local Open Scope nat_scope.
Local Open Scope list_scope.
Local Open Scope string_scope.

(* ================================================================== *)
(** * JavaScript primitives used by the sources                        *)
(* ================================================================== *)

Module JS.

(** ** Exceptions *)

Inductive Error : Type :=
| SyntaxError (message : string)
| TypeError (message : string)
| SystemError (message : string).

(** [error instanceof Error ? error.message : String(error)] *)
Definition errorMessage (e : Error) : string :=
  match e with
  | SyntaxError m => m
  | TypeError m => m
  | SystemError m => m
  end.

Inductive Result (A : Type) : Type :=
| Ok (value : A)
| Throw (error : Error).

Arguments Ok {A} value.
Arguments Throw {A} error.

Definition bind {A B : Type} (m : Result A) (k : A -> Result B) : Result B :=
  match m with
  | Ok a => k a
  | Throw e => Throw e
  end.

(** [try { body } catch (error) { handler }] *)
Definition tryCatch {A : Type} (body : Result A) (handler : Error -> A) : A :=
  match body with
  | Ok a => a
  | Throw e => handler e
  end.

(** [xs.forEach(x => { acc = step(acc, x) })] where [step] may throw. *)
Fixpoint forEachM {A S : Type} (step : S -> A -> Result S) (xs : list A) (acc : S)
  : Result S :=
  match xs with
  | [] => Ok acc
  | x :: rest => bind (step acc x) (forEachM step rest)
  end.

(** [xs.map(f)] where [f] may throw; the first throw wins. *)
Fixpoint mapM {A B : Type} (f : A -> Result B) (xs : list A) : Result (list B) :=
  match xs with
  | [] => Ok []
  | x :: rest =>
      bind (f x) (fun y => bind (mapM f rest) (fun ys => Ok (y :: ys)))
  end.

(** ** Characters *)

Definition LF : string := String (ascii_of_nat 10) EmptyString.
Definition dquote : string := String (ascii_of_nat 34) EmptyString.

(** The regular-expression class [\s] and [String.prototype.trim] agree on
    which code units are blank: TAB, LF, VT, FF, CR, SPACE and NBSP are the
    members below 256. *)
Definition isWhiteSpace (c : ascii) : bool :=
  let n := N_of_ascii c in
  (((9 <=? n) && (n <=? 13)) || (n =? 32) || (n =? 160))%N.

(** LineTerminator code units below 256: LF and CR. *)
Definition isLineTerminator (c : ascii) : bool :=
  let n := N_of_ascii c in ((n =? 10) || (n =? 13))%N.

(** Lower-casing of one code unit: [A-Z] and the Latin-1 capitals
    (U+00C0..U+00DE without the multiplication sign U+00D7). *)
Definition toLowerCaseUnit (c : ascii) : ascii :=
  let n := N_of_ascii c in
  if (((65 <=? n) && (n <=? 90))
      || ((192 <=? n) && (n <=? 222) && negb (n =? 215)))%N
  then ascii_of_N (n + 32)
  else c.

(** ** Strings *)

Fixpoint toLowerCase (s : string) : string :=
  match s with
  | EmptyString => EmptyString
  | String c rest => String (toLowerCaseUnit c) (toLowerCase rest)
  end.

(** [s.startsWith(p)] *)
Definition startsWith (s p : string) : bool := String.prefix p s.

(** [s.includes(sub)] *)
Fixpoint includes (s sub : string) : bool :=
  String.prefix sub s
  || match s with
     | EmptyString => false
     | String _ rest => includes rest sub
     end.

Fixpoint trimStart (s : string) : string :=
  match s with
  | EmptyString => EmptyString
  | String c rest => if isWhiteSpace c then trimStart rest else s
  end.

Fixpoint trimEnd (s : string) : string :=
  match s with
  | EmptyString => EmptyString
  | String c rest =>
      match trimEnd rest with
      | EmptyString => if isWhiteSpace c then EmptyString else String c EmptyString
      | t => String c t
      end
  end.

(** [s.trim()] *)
Definition trim (s : string) : string := trimEnd (trimStart s).

(** Prepends a code unit to the field that is currently being read. *)
Definition consField (c : ascii) (fields : list string) : list string :=
  match fields with
  | f :: fs => String c f :: fs
  | [] => [String c EmptyString]
  end.

(** [s.split(sep)] for a non-empty literal separator, and equally
    [s.split(/sep/)] when the pattern has no metacharacter.  [skip] counts the
    code units of a matched separator that are still to be passed over. *)
Fixpoint splitFrom (sep : string) (skip : nat) (s : string) : list string :=
  match s with
  | EmptyString => [EmptyString]
  | String c rest =>
      match skip with
      | S k => splitFrom sep k rest
      | O =>
          if String.prefix sep s
          then EmptyString :: splitFrom sep (String.length sep - 1) rest
          else consField c (splitFrom sep 0 rest)
      end
  end.

Definition split (s sep : string) : list string := splitFrom sep 0 s.

(** [s.split(/\s+/)]: every maximal run of blanks is one separator; a run at
    either end of the string leaves an empty field there. *)
Fixpoint splitWhitespaceFrom (inRun : bool) (s : string) : list string :=
  match s with
  | EmptyString => [EmptyString]
  | String c rest =>
      if isWhiteSpace c
      then if inRun
           then splitWhitespaceFrom true rest
           else EmptyString :: splitWhitespaceFrom true rest
      else consField c (splitWhitespaceFrom false rest)
  end.

Definition splitWhitespace (s : string) : list string :=
  splitWhitespaceFrom false s.

(** [xs.join(sep)] *)
Definition join (xs : list string) (sep : string) : string := String.concat sep xs.

(** [xs.slice(0, n)] and [xs.slice(1)] *)
Definition slice0 {A : Type} (n : nat) (xs : list A) : list A := firstn n xs.
Definition slice1 {A : Type} (xs : list A) : list A := tl xs.

(** [xs.some(p)] *)
Definition some {A : Type} (p : A -> bool) (xs : list A) : bool := existsb p xs.

(** [xs.find(p)] *)
Definition find {A : Type} (p : A -> bool) (xs : list A) : option A := List.find p xs.

(** [xs.map((x, i) => f(i, x))] *)
Fixpoint mapiFrom {A B : Type} (i : nat) (f : nat -> A -> B) (xs : list A) : list B :=
  match xs with
  | [] => []
  | x :: rest => f i x :: mapiFrom (S i) f rest
  end.

Definition mapi {A B : Type} (f : nat -> A -> B) (xs : list A) : list B :=
  mapiFrom 0 f xs.

(** [[...new Set(xs)]]: the first occurrence of every string, in order. *)
Fixpoint uniqueFrom (seen : list string) (xs : list string) : list string :=
  match xs with
  | [] => []
  | x :: rest =>
      if existsb (String.eqb x) seen
      then uniqueFrom seen rest
      else x :: uniqueFrom (x :: seen) rest
  end.

Definition unique (xs : list string) : list string := uniqueFrom [] xs.

(** Template-literal rendering of a non-negative integer. *)
Definition showNat (n : nat) : string :=
  NilEmpty.string_of_uint (Nat.to_uint n).

End JS.

Import JS.

Notation "x <- m ;; k" := (JS.bind m (fun x => k))
  (at level 61, m at next level, right associativity).

(* ================================================================== *)
(** * analyzer.ts                                                      *)
(* ================================================================== *)

Module Analyzer.

(** ** Data model ([FileInfo], analyzer.ts lines 5-53) *)

Inductive Language : Type := typescript | javascript | python | other.

Definition languageName (l : Language) : string :=
  match l with
  | typescript => "typescript"
  | javascript => "javascript"
  | python => "python"
  | other => "other"
  end.

Definition Language_eqb (a b : Language) : bool :=
  match a, b with
  | typescript, typescript | javascript, javascript
  | python, python | other, other => true
  | _, _ => false
  end.

Record ImportRecord : Type := {
  imp_path : string;
  imp_imports : list string;
  imp_isDefault : bool
}.

Inductive ExportKind : Type :=
| ExportFunction | ExportClass | ExportInterface | ExportType | ExportConst | ExportDefault.

Record ExportRecord : Type := {
  exp_name : string;
  exp_type : ExportKind;
  exp_line : Z
}.

Record FunctionRecord : Type := {
  fn_name : string;
  fn_startLine : Z;
  fn_endLine : Z;
  fn_params : list string;
  fn_isAsync : bool;
  fn_isExported : bool
}.

Record ClassRecord : Type := {
  cls_name : string;
  cls_startLine : Z;
  cls_endLine : Z;
  cls_methods : list string;
  cls_extends : option string;
  cls_implements : option (list string);
  cls_isExported : bool
}.

Record InterfaceRecord : Type := {
  itf_name : string;
  itf_startLine : Z;
  itf_endLine : Z;
  itf_properties : list string;
  itf_isExported : bool
}.

Record TypeRecord : Type := {
  ty_name : string;
  ty_startLine : Z;
  ty_definition : string;
  ty_isExported : bool
}.

Record FileInfo : Type := {
  path : string;
  relativePath : string;
  content : string;
  size : Z;
  lastModified : Z;
  imports : list ImportRecord;
  exports : list ExportRecord;
  functions : list FunctionRecord;
  classes : list ClassRecord;
  interfaces : list InterfaceRecord;
  types : list TypeRecord;
  dependencies : list string;
  language : Language
}.

(** ** The outside world of the analyzer *)

Record Stats : Type := {
  stat_size : Z;
  stat_mtime : Z
}.

(** File system, clock and Node's [path] module, as one snapshot. *)
Record World : Type := {
  fs_stat : string -> Result Stats;
  fs_readFile : string -> Result string;
  fastGlob : list string -> string -> Result (list string);
  path_relative : string -> string -> string;
  path_extname : string -> string;
  newDate : Z
}.

(** The regular-expression scanners of analyzer.ts (lines 155-491).  They
    are pure functions of the text and the language tag; the properties
    below hold for whatever they return. *)
Record Extractors : Type := {
  extractImports : string -> Language -> list ImportRecord;
  extractExports : string -> Language -> list ExportRecord;
  extractFunctions : string -> Language -> list FunctionRecord;
  extractClasses : string -> Language -> list ClassRecord;
  extractInterfaces : string -> Language -> list InterfaceRecord;
  extractTypes : string -> Language -> list TypeRecord
}.

(** ** Analyzer state: [cache : Map<string, FileInfo>] and [projectRoot] *)

(** A JavaScript [Map] keeps its entries in insertion order; [set] on a
    present key replaces the value in place. *)
Definition Cache : Type := list (string * FileInfo).

Fixpoint cacheSet (key : string) (value : FileInfo) (c : Cache) : Cache :=
  match c with
  | [] => [(key, value)]
  | (k, v) :: rest =>
      if String.eqb k key then (key, value) :: rest
      else (k, v) :: cacheSet key value rest
  end.

Fixpoint cacheGet (key : string) (c : Cache) : option FileInfo :=
  match c with
  | [] => None
  | (k, v) :: rest => if String.eqb k key then Some v else cacheGet key rest
  end.

Definition cacheValues (c : Cache) : list FileInfo := map snd c.

Record State : Type := {
  cache : Cache;
  projectRoot : string
}.

Definition initialState : State := {| cache := []; projectRoot := "" |}.

(** ** State-and-exception monad of the analyzer methods *)

Definition M (A : Type) : Type := State -> Result A * State.

Definition ret {A : Type} (a : A) : M A := fun st => (Ok a, st).

Definition raise {A : Type} (e : Error) : M A := fun st => (Throw e, st).

Definition bindM {A B : Type} (m : M A) (k : A -> M B) : M B :=
  fun st =>
    match m st with
    | (Ok a, st') => k a st'
    | (Throw e, st') => (Throw e, st')
    end.

Definition lift {A : Type} (r : Result A) : M A := fun st => (r, st).

(** [try { body } catch (error) { handler(error) }]: the handler runs in the
    state the body had reached. *)
Definition tryCatchM {A : Type} (body : M A) (handler : Error -> M A) : M A :=
  fun st =>
    match body st with
    | (Ok a, st') => (Ok a, st')
    | (Throw e, st') => handler e st'
    end.

Definition getProjectRoot : M string := fun st => (Ok (projectRoot st), st).

Definition setProjectRoot (root : string) : M unit :=
  fun st => (Ok tt, {| cache := cache st; projectRoot := root |}).

(** [this.cache.set(key, value)] *)
Definition cache_set (key : string) (value : FileInfo) : M unit :=
  fun st => (Ok tt, {| cache := cacheSet key value (cache st);
                       projectRoot := projectRoot st |}).

(** [await Promise.all(xs.map(f))].  The model settles the calls in list
    order.  JavaScript starts them in list order and settles each when its
    reads complete; for [analyzeFile], whose only effect is one
    [cache.set] of its own path, the order of settlement decides the
    position of the paths that are new to the cache and nothing else.  No
    statement below depends on the position of a new path. *)
Fixpoint promiseAll {A B : Type} (f : A -> M B) (xs : list A) : M (list B) :=
  match xs with
  | [] => ret []
  | x :: rest =>
      bindM (f x) (fun y => bindM (promiseAll f rest) (fun ys => ret (y :: ys)))
  end.

Notation "x <-- m ;;; k" := (bindM m (fun x => k))
  (at level 61, m at next level, right associativity).

Section Methods.

Variable W : World.
Variable X : Extractors.

(** [detectLanguage] (lines 145-153) *)
Definition detectLanguage (filePath : string) : Language :=
  let ext := toLowerCase (path_extname W filePath) in
  if String.eqb ext ".ts" || String.eqb ext ".tsx" then typescript
  else if String.eqb ext ".js" || String.eqb ext ".jsx" then javascript
  else if String.eqb ext ".py" then python
  else other.

(** The record built in the [catch] branch of [analyzeFile]. *)
Definition minimalFileInfo (filePath relativePath : string) : FileInfo :=
  {| path := filePath;
     relativePath := relativePath;
     content := "";
     size := 0;
     lastModified := newDate W;
     imports := [];
     exports := [];
     functions := [];
     classes := [];
     interfaces := [];
     types := [];
     dependencies := [];
     language := other |}.

(** [fileInfo.dependencies = fileInfo.imports.map(imp => imp.path)] *)
Definition withDependencies (fileInfo : FileInfo) : FileInfo :=
  {| path := path fileInfo;
     relativePath := relativePath fileInfo;
     content := content fileInfo;
     size := size fileInfo;
     lastModified := lastModified fileInfo;
     imports := imports fileInfo;
     exports := exports fileInfo;
     functions := functions fileInfo;
     classes := classes fileInfo;
     interfaces := interfaces fileInfo;
     types := types fileInfo;
     dependencies := map imp_path (imports fileInfo);
     language := language fileInfo |}.

(** [analyzeFile] (lines 93-143) *)
Definition analyzeFile (filePath : string) : M FileInfo :=
  tryCatchM
    (stats <-- lift (fs_stat W filePath) ;;;
     content <-- lift (fs_readFile W filePath) ;;;
     root <-- getProjectRoot ;;;
     let relativePath := path_relative W root filePath in
     let language := detectLanguage filePath in
     let fileInfo :=
       {| path := filePath;
          relativePath := relativePath;
          content := content;
          size := stat_size stats;
          lastModified := stat_mtime stats;
          imports := extractImports X content language;
          exports := extractExports X content language;
          functions := extractFunctions X content language;
          classes := extractClasses X content language;
          interfaces := extractInterfaces X content language;
          types := extractTypes X content language;
          dependencies := [];
          language := language |} in
     let fileInfo := withDependencies fileInfo in
     _ <-- cache_set filePath fileInfo ;;;
     ret fileInfo)
    (fun error =>
       root <-- getProjectRoot ;;;
       let relativePath := path_relative W root filePath in
       let fileInfo := minimalFileInfo filePath relativePath in
       _ <-- cache_set filePath fileInfo ;;;
       ret fileInfo).

Definition indexPatterns : list string :=
  [ "**/*.ts"; "**/*.js"; "**/*.tsx"; "**/*.jsx";
    "**/*.py"; "**/*.json"; "**/*.md";
    "!node_modules/**"; "!dist/**"; "!build/**"; "!coverage/**"; "!.git/**" ].

(** [indexProject] (lines 59-91); its [catch] re-throws. *)
Definition indexProject (root : string) : M unit :=
  _ <-- setProjectRoot root ;;;
  tryCatchM
    (files <-- lift (fastGlob W indexPatterns root) ;;;
     _ <-- promiseAll analyzeFile files ;;;
     ret tt)
    (fun error => raise error).

(** [reindexFiles] (lines 892-899) *)
Definition reindexFiles (changedFiles : list string) : M unit :=
  _ <-- promiseAll analyzeFile changedFiles ;;;
  ret tt.

(** [getAllFiles] (lines 918-920) *)
Definition getAllFiles : M (list FileInfo) :=
  fun st => (Ok (cacheValues (cache st)), st).

End Methods.

End Analyzer.

Import Analyzer.

(* ================================================================== *)
(** * Regular expressions                                              *)
(* ================================================================== *)

(** [calculateRelevanceScore] hands each keyword to [new RegExp(keyword, 'g')]
    and counts the matches in the content.  The ranker is written over an
    arbitrary engine: construction may throw [SyntaxError], and a constructed
    expression yields a number of matches for every string. *)
Record RegExpEngine : Type := {
  RegExp : Type;
  (** [new RegExp(source, 'g')] *)
  newRegExp : string -> Result RegExp;
  (** [(s.match(re) || []).length] *)
  matchCount : string -> RegExp -> nat
}.

(** A concrete engine for the patterns whose every character is either an
    ordinary character or the metacharacter [.], on which it computes what
    JavaScript computes.  A pattern with another syntax character lies
    outside this instance: it answers every such pattern with a
    [SyntaxError], also those JavaScript accepts (as [a*b]), and its message
    is not the wording of an actual engine.  The examples consult it on
    patterns of literals and [.] only. *)
Module DotRegExp.

Inductive Atom : Type :=
| Lit (c : ascii)
| AnyChar.

(** SyntaxCharacter of the ECMAScript pattern grammar. *)
Definition isSyntaxCharacter (c : ascii) : bool :=
  existsb (Ascii.eqb c)
    [ "^"; "$"; "\"; "."; "*"; "+"; "?"; "("; ")"; "["; "]"; "{"; "}"; "|" ]%char.

Fixpoint parse (source : string) : option (list Atom) :=
  match source with
  | EmptyString => Some []
  | String c rest =>
      match parse rest with
      | None => None
      | Some atoms =>
          if Ascii.eqb c "."%char then Some (AnyChar :: atoms)
          else if isSyntaxCharacter c then None
          else Some (Lit c :: atoms)
      end
  end.

Definition atomMatches (a : Atom) (c : ascii) : bool :=
  match a with
  | Lit x => Ascii.eqb x c
  | AnyChar => negb (isLineTerminator c)
  end.

Fixpoint matchesAt (atoms : list Atom) (s : string) : bool :=
  match atoms, s with
  | [], _ => true
  | _ :: _, EmptyString => false
  | a :: atoms', String c rest => atomMatches a c && matchesAt atoms' rest
  end.

(** Leftmost, non-overlapping matches, as the [g] flag enumerates them. *)
Fixpoint countFrom (atoms : list Atom) (skip : nat) (s : string) : nat :=
  match s with
  | EmptyString => match atoms with [] => 1 | _ => 0 end
  | String c rest =>
      match skip with
      | S k => countFrom atoms k rest
      | O =>
          if matchesAt atoms s
          then S (countFrom atoms (List.length atoms - 1) rest)
          else countFrom atoms 0 rest
      end
  end.

Definition engine : RegExpEngine :=
  {| RegExp := list Atom;
     newRegExp := fun source =>
       match parse source with
       | Some atoms => Ok atoms
       | None => Throw (SyntaxError ("Invalid regular expression: /" ++ source ++ "/"))
       end;
     matchCount := fun s atoms => countFrom atoms 0 s |}.

End DotRegExp.

(* ================================================================== *)
(** * context-builder.ts: relevance ranking                            *)
(* ================================================================== *)

Module ContextBuilder.

Section Ranker.

Variable E : RegExpEngine.

(** Body of the [keywords.forEach] of [calculateRelevanceScore]
    (lines 255-269): one keyword added to the running [score]. *)
Definition scoreKeyword (file : FileInfo) (score : Z) (keyword : string) : Result Z :=
  let fileName := toLowerCase (relativePath file) in
  let content := toLowerCase (content file) in
  let score := if includes fileName keyword then (score + 10)%Z else score in
  let score :=
    if some (fun fn => includes (toLowerCase (fn_name fn)) keyword) (functions file)
    then (score + 8)%Z else score in
  let score :=
    if some (fun cls => includes (toLowerCase (cls_name cls)) keyword) (classes file)
    then (score + 8)%Z else score in
  re <- newRegExp E keyword ;;
  let contentMatches := Z.of_nat (matchCount E content re) in
  let score := (score + Z.min contentMatches 5)%Z in
  let score :=
    if some (fun imp => includes (toLowerCase (imp_path imp)) keyword) (imports file)
    then (score + 5)%Z else score in
  Ok score.

(** [calculateRelevanceScore] (lines 250-272) *)
Definition calculateRelevanceScore (file : FileInfo) (keywords : list string) : Result Z :=
  forEachM (scoreKeyword file) keywords 0%Z.

(** [query.toLowerCase().split(/\s+/).filter(word => word.length > 2)] *)
Definition keywordsOf (query : string) : list string :=
  let queryLower := toLowerCase query in
  filter (fun word => (2 <? String.length word)%nat) (splitWhitespace queryLower).

(** [['typescript', 'javascript'].includes(file.language)] *)
Definition isPrimaryLanguage (file : FileInfo) : bool :=
  match language file with
  | typescript | javascript => true
  | _ => false
  end.

(** The relevance predicate: callback of the first [allFiles.filter]
    (lines 196-219). *)
Definition isRelevant (keywords : list string) (file : FileInfo) : bool :=
  if negb (isPrimaryLanguage file) then false
  else
    let fileName := toLowerCase (relativePath file) in
    let fileContent := toLowerCase (content file) in
    let fileNameMatches :=
      some (fun keyword =>
              includes fileName keyword
              || some (fun fn => includes (toLowerCase (fn_name fn)) keyword) (functions file)
              || some (fun cls => includes (toLowerCase (cls_name cls)) keyword) (classes file))
           keywords in
    let contentMatches :=
      some (fun keyword =>
              includes fileContent keyword
              || some (fun imp => includes (toLowerCase (imp_path imp)) keyword) (imports file))
           keywords in
    fileNameMatches || contentMatches.

(** Callback of the fallback filter (lines 224-229). *)
Definition isMainFile (file : FileInfo) : bool :=
  let fileName := toLowerCase (relativePath file) in
  isPrimaryLanguage file
  && (includes fileName "index" || includes fileName "main"
      || (0 <? List.length (functions file))%nat
      || (0 <? List.length (classes file))%nat).

(** The fallback set (lines 224-229). *)
Definition fallbackFiles (allFiles : list FileInfo) : list FileInfo :=
  slice0 10 (filter isMainFile allFiles).

(** [relevantFiles] after lines 196-230: the matching files, or the fallback
    set when nothing matched. *)
Definition candidateFiles (allFiles : list FileInfo) (keywords : list string)
  : list FileInfo :=
  let relevantFiles := filter (isRelevant keywords) allFiles in
  if (List.length relevantFiles =? 0)%nat then fallbackFiles allFiles else relevantFiles.

(** Scope filtering (lines 233-237). *)
Definition applyScope (scope : option string) (relevantFiles : list FileInfo)
  : list FileInfo :=
  match scope with
  | Some s =>
      if String.eqb s "function"
      then filter (fun f => (0 <? List.length (functions f))%nat) relevantFiles
      else if String.eqb s "class"
      then filter (fun f => (0 <? List.length (classes f))%nat) relevantFiles
      else relevantFiles
  | None => relevantFiles
  end.

(** Stable insertion into a list ordered by decreasing score: the new entry
    comes from an earlier position than every entry already placed, so it
    goes in front of the first entry whose score is not larger. *)
Fixpoint insertByScore (x : Z * FileInfo) (sorted : list (Z * FileInfo))
  : list (Z * FileInfo) :=
  match sorted with
  | [] => [x]
  | y :: rest =>
      if (fst y <=? fst x)%Z then x :: y :: rest
      else y :: insertByScore x rest
  end.

Fixpoint sortByScore (scored : list (Z * FileInfo)) : list (Z * FileInfo) :=
  match scored with
  | [] => []
  | x :: rest => insertByScore x (sortByScore rest)
  end.

(** [relevantFiles.sort((a, b) => bScore - aScore)] (lines 240-244).
    [Array.prototype.sort] is stable and the comparator orders by decreasing
    score, which fixes the result whatever algorithm the engine runs.  With
    fewer than two elements the comparator is never called; otherwise every
    element is compared at least once, so a score that throws aborts the
    sort, and every score throws on the same first keyword. *)
Definition sortByRelevance (relevantFiles : list FileInfo) (keywords : list string)
  : Result (list FileInfo) :=
  if (List.length relevantFiles <? 2)%nat then Ok relevantFiles
  else
    scored <- mapM (fun f => s <- calculateRelevanceScore f keywords ;; Ok (s, f))
                   relevantFiles ;;
    Ok (map snd (sortByScore scored)).

(** [findRelevantFiles] (lines 190-248) *)
Definition findRelevantFiles (allFiles : list FileInfo) (query : string)
           (scope : option string) : Result (list FileInfo) :=
  let keywords := keywordsOf query in
  let relevantFiles := candidateFiles allFiles keywords in
  let relevantFiles := applyScope scope relevantFiles in
  relevantFiles <- sortByRelevance relevantFiles keywords ;;
  Ok (slice0 20 relevantFiles).

End Ranker.

(** ** The score as the specification words it *)

(** Number of literal, non-overlapping occurrences of [sub] in [s]. *)
Fixpoint literalOccurrencesFrom (sub : string) (skip : nat) (s : string) : nat :=
  match s with
  | EmptyString => 0
  | String c rest =>
      match skip with
      | S k => literalOccurrencesFrom sub k rest
      | O =>
          if String.prefix sub s
          then S (literalOccurrencesFrom sub (String.length sub - 1) rest)
          else literalOccurrencesFrom sub 0 rest
      end
  end.

Definition literalOccurrences (s sub : string) : nat :=
  literalOccurrencesFrom sub 0 s.

(** 10 for the path, 8 for a function name, 8 for a class name,
    [min(occurrences, 5)] for the content, 5 for an import path. *)
Definition keywordTerms (occurrences : nat) (file : FileInfo) (keyword : string) : Z :=
  ((if includes (toLowerCase (relativePath file)) keyword then 10 else 0)
   + (if some (fun fn => includes (toLowerCase (fn_name fn)) keyword) (functions file)
      then 8 else 0)
   + (if some (fun cls => includes (toLowerCase (cls_name cls)) keyword) (classes file)
      then 8 else 0)
   + Z.min (Z.of_nat occurrences) 5
   + (if some (fun imp => includes (toLowerCase (imp_path imp)) keyword) (imports file)
      then 5 else 0))%Z.

(** The content term counts the literal occurrences of the keyword. *)
Definition specKeywordScore (file : FileInfo) (keyword : string) : Z :=
  keywordTerms (literalOccurrences (toLowerCase (content file)) keyword) file keyword.

(** Summed over the keywords. *)
Definition specRelevanceScore (file : FileInfo) (keywords : list string) : Z :=
  fold_right Z.add 0%Z (map (specKeywordScore file) keywords).

(** ** Dependency graph ([buildDependencyGraph], lines 274-304) *)

Record GraphNode : Type := {
  node_id : string;
  node_type : Language;
  node_size : Z;
  node_functions : nat;
  node_classes : nat
}.

Record GraphEdge : Type := {
  source : string;
  target : string;
  edge_type : string
}.

Record DependencyGraph : Type := {
  nodes : list GraphNode;
  edges : list GraphEdge
}.

(** The [files.find] of lines 287-291. *)
Definition importTarget (files : list FileInfo) (imp : ImportRecord) : option FileInfo :=
  find (fun f =>
          includes (relativePath f) (imp_path imp)
          || String.eqb (relativePath f) (imp_path imp ++ ".ts")
          || String.eqb (relativePath f) (imp_path imp ++ ".js"))
       files.

Definition buildDependencyGraph (files : list FileInfo) : DependencyGraph :=
  let nodes :=
    map (fun f =>
           {| node_id := relativePath f;
              node_type := language f;
              node_size := size f;
              node_functions := List.length (functions f);
              node_classes := List.length (classes f) |})
        files in
  let edges :=
    flat_map (fun file =>
      flat_map (fun imp =>
        match importTarget files imp with
        | Some targetFile =>
            [ {| source := relativePath file;
                 target := relativePath targetFile;
                 edge_type := "import" |} ]
        | None => []
        end) (imports file)) files in
  {| nodes := nodes; edges := edges |}.

(** ** Token estimate and compression (lines 532-646) *)

(** [Math.ceil(content.length / 4)].  A length divided by 4 is exact in
    binary64, so the quotient is the rational one. *)
Definition estimateTokenCount (content : string) : Z :=
  Qceiling (inject_Z (Z.of_nat (String.length content)) / inject_Z 4)%Q.

(** Line filter of Tier 1 (lines 555-568). *)
Definition isEssentialLine (line : string) : bool :=
  let trimmed := trim line in
  startsWith trimmed "export"
  || startsWith trimmed "import"
  || startsWith trimmed "function"
  || startsWith trimmed "class"
  || startsWith trimmed "interface"
  || startsWith trimmed "type"
  || startsWith trimmed "const"
  || startsWith trimmed "//"
  || includes trimmed "TODO"
  || includes trimmed "FIXME"
  || startsWith line "```".

(** Callback of [files.map] (lines 550-571). *)
Definition compressFile (file : string) : string :=
  let lines := split file LF in
  let filename := hd "" lines in
  let essentialLines := filter isEssentialLine lines in
  filename ++ LF ++ join essentialLines LF.

(** Body of the loop over the sections (lines 544-578). *)
Definition compressSection (i : nat) (section : string) : string :=
  if includes section "Complete File Contents"
  then
    let files := slice1 (split section "### ") in
    let compressedFiles := map compressFile files in
    "## " ++ hd "" (split section LF) ++ LF ++ LF
    ++ join (map (fun f => "### " ++ f) compressedFiles) (LF ++ LF ++ "---" ++ LF ++ LF)
  else if (i =? 0)%nat then section else "## " ++ section.

(** Tier 1: [compressedContext] of line 580. *)
Definition moderateCompression (context : string) : string :=
  let sections := split context (LF ++ "## ") in
  let compressedSections := mapi compressSection sections in
  join compressedSections (LF ++ LF).

(** State of the Tier 2 loop (lines 594-597). *)
Record ScanState : Type := {
  importantLines : list string;
  inCodeBlock : bool;
  currentLanguage : string
}.

Definition pushLine (st : ScanState) (line : string) : ScanState :=
  {| importantLines := (importantLines st ++ [line])%list;
     inCodeBlock := inCodeBlock st;
     currentLanguage := currentLanguage st |}.

(** Lines 612-626. *)
Definition keptInsideFence (line : string) : bool :=
  let trimmed := trim line in
  startsWith trimmed "export"
  || startsWith trimmed "import"
  || startsWith trimmed "function"
  || startsWith trimmed "class"
  || startsWith trimmed "interface"
  || startsWith trimmed "type"
  || startsWith trimmed "const"
  || startsWith trimmed "let"
  || startsWith trimmed "var"
  || includes trimmed "//"
  || includes trimmed "/*"
  || String.eqb trimmed ""
  || startsWith line "#".

(** Lines 631-639. *)
Definition keptOutsideFence (line : string) : bool :=
  startsWith line "#"
  || startsWith line "**"
  || startsWith line "- "
  || startsWith line "*"
  || String.eqb (trim line) ""
  || includes line "Summary"
  || includes line "Insights".

(** Body of [for (const line of lines)] (lines 599-643). *)
Definition scanLine (st : ScanState) (line : string) : ScanState :=
  if startsWith line "```"
  then
    if inCodeBlock st
    then {| importantLines := (importantLines st ++ [line])%list;
            inCodeBlock := false;
            currentLanguage := currentLanguage st |}
    else {| importantLines := (importantLines st ++ [line])%list;
            inCodeBlock := true;
            currentLanguage := String.substring 3 (String.length line - 3) line |}
  else if inCodeBlock st
  then (if keptInsideFence line then pushLine st line else st)
  else (if keptOutsideFence line then pushLine st line else st).

(** Tier 2: [aggressiveCompression] (lines 591-646). *)
Definition aggressiveCompression (context : string) (maxTokens : Z) : string :=
  let lines := split context LF in
  let final :=
    fold_left scanLine lines
      {| importantLines := []; inCodeBlock := false; currentLanguage := "" |} in
  join (importantLines final) LF.

(** [intelligentCompression] (lines 537-589) *)
Definition intelligentCompression (context : string) (maxTokens : Z) : string :=
  let compressedContext := moderateCompression context in
  if (maxTokens <? estimateTokenCount compressedContext)%Z
  then aggressiveCompression compressedContext maxTokens
  else compressedContext.

(** ** Request pipeline ([buildCompleteContext], lines 39-188) *)

Record Options : Type := {
  query : string;
  opt_projectRoot : string;
  scope : option string;
  completeness : option string;
  maxTokens : option Z
}.

Record Metadata : Type := {
  totalFiles : Z;
  totalLines : Z;
  totalFunctions : Z;
  totalClasses : Z;
  primaryLanguage : string;
  estimatedTokens : Z
}.

(** [usagePatterns]: the record of [analyzeUsagePatterns], or the
    [{ patterns: [] }] of the error responses. *)
Inductive UsagePatterns : Type :=
| NoPatterns
| Usage (commonImports : list (string * Z))
        (architecturalPatterns : list string)
        (functionUsagePatterns : list (string * Z)).

Record Response : Type := {
  formattedContext : string;
  metadata : Metadata;
  summary : string;
  folderTree : string;
  dependencyGraph : DependencyGraph;
  usagePatterns : UsagePatterns;
  filesIncluded : list string;
  resp_totalLines : Z;
  compressionLevel : string;
  tokenCount : Z
}.

(** Result of [validateProjectRoot] (lines 900-1032); every [return] of it
    sets [normalizedPath], the failing ones set [message]. *)
Record Validation : Type := {
  valid : bool;
  message : option string;
  normalizedPath : string
}.

(** What the pipeline reads from the file system outside the analyzer. *)
Record Platform : Type := {
  validateProjectRoot : string -> Result Validation;
  (** the [try] block of [generateFolderTree] (lines 772-783) *)
  folderTreeScan : string -> Result string;
  (** the text its [catch] returns (line 786) *)
  folderTreeFailure : string -> Error -> string
}.

(** Aggregation and rendering methods of context-builder.ts that the
    pipeline calls (lines 306-521); each may throw. *)
Record Renderer : Type := {
  analyzeUsagePatterns : list FileInfo -> list FileInfo -> Result UsagePatterns;
  formatContextForFiles :
    list FileInfo -> DependencyGraph -> UsagePatterns -> string -> string -> Result string;
  generateContextSummary :
    list FileInfo -> DependencyGraph -> UsagePatterns -> Result string
}.

(** [languageCount[f.language] = (languageCount[f.language] || 0) + 1] on an
    object whose keys keep their insertion order. *)
Fixpoint countLanguage (l : Language) (counts : list (Language * Z))
  : list (Language * Z) :=
  match counts with
  | [] => [(l, 1%Z)]
  | (k, n) :: rest =>
      if Language_eqb k l then (k, (n + 1)%Z) :: rest
      else (k, n) :: countLanguage l rest
  end.

(** Lines 118-124; [reduce] without an initial value throws on an empty
    array. *)
Definition detectPrimaryLanguage (relevantFiles : list FileInfo) : Result string :=
  let languageCount :=
    fold_left (fun counts f => countLanguage (language f) counts) relevantFiles [] in
  match languageCount with
  | [] => Throw (TypeError "Reduce of empty array with no initial value")
  | first :: rest =>
      let winner :=
        fold_left (fun a b => if (snd b <? snd a)%Z then a else b) rest first in
      Ok (languageName (fst winner))
  end.

Definition sumZ (xs : list Z) : Z := fold_left Z.add xs 0%Z.

(** The two error responses differ in one sentence only. *)
Definition errorResponse (options : Options) (detail closing tree : string) : Response :=
  {| formattedContext :=
       "# Error Building Context" ++ LF ++ LF
       ++ "An error occurred while building context for query: "
       ++ dquote ++ query options ++ dquote ++ LF ++ LF
       ++ "Error: " ++ detail ++ LF ++ LF ++ closing;
     metadata :=
       {| totalFiles := 0;
          totalLines := 0;
          totalFunctions := 0;
          totalClasses := 0;
          primaryLanguage := "unknown";
          estimatedTokens := 100 |};
     summary := "Error occurred during context building - check folder structure";
     folderTree := tree;
     dependencyGraph := {| nodes := []; edges := [] |};
     usagePatterns := NoPatterns;
     filesIncluded := [];
     resp_totalLines := 0;
     compressionLevel := "error";
     tokenCount := 100 |}.

Section Pipeline.

Variable W : World.
Variable X : Extractors.
Variable E : RegExpEngine.
Variable P : Platform.
Variable R : Renderer.

(** [generateFolderTree] (lines 648-788): everything that can throw sits
    inside its own [try], whose [catch] returns a text. *)
Definition generateFolderTree (root : string) : string :=
  tryCatch (folderTreeScan P root) (folderTreeFailure P root).

(** The [try] block of [buildCompleteContext] (lines 54-159). *)
Definition buildCompleteContextBody (options : Options) : M Response :=
  validation <-- lift (validateProjectRoot P (opt_projectRoot options)) ;;;
  let folderTreeForError :=
    generateFolderTree
      (if String.eqb (normalizedPath validation) ""
       then opt_projectRoot options else normalizedPath validation) in
  if negb (valid validation)
  then
    ret (errorResponse options
           (match message validation with Some m => m | None => "undefined" end)
           "Please check the project structure below and adjust accordingly."
           folderTreeForError)
  else
    _ <-- indexProject W X (normalizedPath validation) ;;;
    allFiles <-- getAllFiles ;;;
    relevantFiles <-- lift (findRelevantFiles E allFiles (query options) (scope options)) ;;;
    let folderTree := generateFolderTree (normalizedPath validation) in
    let dependencyGraph := buildDependencyGraph relevantFiles in
    usagePatterns <-- lift (analyzeUsagePatterns R allFiles relevantFiles) ;;;
    formattedContext <--
      lift (formatContextForFiles R relevantFiles dependencyGraph usagePatterns
              (query options) folderTree) ;;;
    let totalLines :=
      sumZ (map (fun f => Z.of_nat (List.length (split (content f) LF))) relevantFiles) in
    let totalFunctions :=
      sumZ (map (fun f => Z.of_nat (List.length (functions f))) relevantFiles) in
    let totalClasses :=
      sumZ (map (fun f => Z.of_nat (List.length (classes f))) relevantFiles) in
    primaryLanguage <-- lift (detectPrimaryLanguage relevantFiles) ;;;
    let estimatedTokens := estimateTokenCount formattedContext in
    let compress :=
      match maxTokens options with
      | Some limit => negb (limit =? 0)%Z && (limit <? estimatedTokens)%Z
      | None => false
      end in
    let finalContext :=
      match maxTokens options with
      | Some limit =>
          if compress then intelligentCompression formattedContext limit
          else formattedContext
      | None => formattedContext
      end in
    let compressionLevel :=
      if compress then "compressed"
      else match completeness options with
           | Some c => if String.eqb c "" then "full" else c
           | None => "full"
           end in
    let finalTokenCount := estimateTokenCount finalContext in
    summary <-- lift (generateContextSummary R relevantFiles dependencyGraph usagePatterns) ;;;
    ret {| formattedContext := finalContext;
           metadata :=
             {| totalFiles := Z.of_nat (List.length relevantFiles);
                totalLines := totalLines;
                totalFunctions := totalFunctions;
                totalClasses := totalClasses;
                primaryLanguage := primaryLanguage;
                estimatedTokens := finalTokenCount |};
           summary := summary;
           folderTree := folderTree;
           dependencyGraph := dependencyGraph;
           usagePatterns := usagePatterns;
           filesIncluded := map relativePath relevantFiles;
           resp_totalLines := totalLines;
           compressionLevel := compressionLevel;
           tokenCount := finalTokenCount |}.

(** The [catch] block (lines 161-187). *)
Definition buildCompleteContextCatch (options : Options) (error : Error) : M Response :=
  let folderTreeForError := generateFolderTree (opt_projectRoot options) in
  ret (errorResponse options (errorMessage error)
         "Please check the project structure below to understand the issue."
         folderTreeForError).

Definition buildCompleteContext (options : Options) : M Response :=
  tryCatchM (buildCompleteContextBody options) (buildCompleteContextCatch options).

End Pipeline.

End ContextBuilder.

Import ContextBuilder.

(* ================================================================== *)
(** * context-validator.ts                                             *)
(* ================================================================== *)

Module ContextValidator.

(** ** Numbers

    The scores of the validator are fractional JavaScript numbers, that is
    binary64 floating-point numbers.  The validator is written over an
    [Arithmetic], a carrier with the operations the source applies to its
    numbers, and run on [binary64] below. *)
Record Arithmetic : Type := {
  num : Type;
  (** a decimal literal, or an integer count read as a number *)
  lit : Q -> num;
  add : num -> num -> num;
  mul : num -> num -> num;
  div : num -> num -> num;
  (** [Math.round] *)
  round : num -> num;
  (** [a <= b] *)
  leb : num -> num -> bool
}.

(** What the proofs about the validator use of its numbers.  The laws are
    proved of [binary64] in [binary64_laws]. *)
Record ArithmeticLaws (A : Arithmetic) : Prop := {
  leb_refl : forall x, leb A x x = true;
  leb_trans : forall x y z, leb A x y = true -> leb A y z = true -> leb A x z = true;
  (** literals are rounded monotonically, and none from 1 upwards to zero *)
  lit_mono : forall p q, (p <= q)%Q -> leb A (lit A p) (lit A q) = true;
  lit_positive : forall q, (1 <= q)%Q -> leb A (lit A q) (lit A 0) = false;
  (** sums *)
  add_mono : forall a a' b b',
      leb A a a' = true -> leb A b b' = true -> leb A (add A a b) (add A a' b') = true;
  add_nonneg : forall a b,
      leb A (lit A 0) a = true -> leb A (lit A 0) b = true ->
      leb A (lit A 0) (add A a b) = true;
  (** products of non-negative numbers; a factor up to 1 does not enlarge *)
  mul_nonneg : forall a b,
      leb A (lit A 0) a = true -> leb A (lit A 0) b = true ->
      leb A (lit A 0) (mul A a b) = true;
  mul_le_1 : forall a b,
      leb A a (lit A 1) = true -> leb A (lit A 0) b = true ->
      leb A (mul A a b) b = true;
  (** quotients by a positive number *)
  div_nonneg : forall a c,
      leb A (lit A 0) a = true -> leb A c (lit A 0) = false ->
      leb A (lit A 0) (div A a c) = true;
  div_le_1 : forall a c,
      leb A a c = true -> leb A c (lit A 0) = false ->
      leb A (div A a c) (lit A 1) = true;
  (** [Math.round] is monotone and leaves 0 and 100 alone *)
  round_mono : forall x y, leb A x y = true -> leb A (round A x) (round A y) = true;
  round_zero : leb A (lit A 0) (round A (lit A 0)) = true;
  round_hundred : leb A (round A (lit A 100)) (lit A 100) = true
}.

(** ** binary64

    A finite binary64 number is a rational with a significand of 53 bits.
    Every operation of the validator yields the exact result rounded to
    the nearest such number, of two equally near the one with the even
    significand (IEEE 754 roundTiesToEven, the rounding of JavaScript).

    The model covers the finite numbers, which is where the validator
    stays.  It has no [NaN] and no infinity: the validator divides by 5,
    by 100, by a count that is at least 1 and by the sum of its weights,
    which is 1, and by nothing else ([divisors_positive],
    [totalWeight_one]).  The exponent is not
    bounded: the numbers of the validator are 0 or lie between
    [2 ^ -60] and [2 ^ 60] for every string JavaScript can hold (fewer
    than [2 ^ 53] code units), far from the range where binary64 overflows
    or loses bits.  Zero has no sign: no number of the validator is
    negative. *)

(** [floor (log2 x)], for a positive [x]. *)
Definition ilog2 (x : Q) : Z :=
  let e := (Z.log2 (Qnum x) - Z.log2 (Zpos (Qden x)))%Z in
  if Qle_bool (2 ^ e)%Q x then e else (e - 1)%Z.

(** The integer nearest to [x]; of two equally near, the even one. *)
Definition nearestEven (x : Q) : Z :=
  let f := Qfloor x in
  match (x - inject_Z f ?= 1 # 2)%Q with
  | Lt => f
  | Gt => (f + 1)%Z
  | Eq => if Z.even f then f else (f + 1)%Z
  end.

(** The weight of the last of the 53 significant bits of a positive [x]. *)
Definition ulp (x : Q) : Q := (2 ^ (ilog2 x - 52))%Q.

Definition roundPositive (x : Q) : Q :=
  (inject_Z (nearestEven (x / ulp x)) * ulp x)%Q.

(** The binary64 number nearest to [x], as a reduced fraction. *)
Definition roundNearestEven (x : Q) : Q :=
  Qred match Qnum x with
       | Z0 => 0%Q
       | Zpos _ => roundPositive x
       | Zneg _ => (- roundPositive (- x))%Q
       end.

(** A binary64 number: a rational that rounding leaves as it is. *)
Record Double : Type := {
  value : Q;
  value_representable : Qeq_bool (roundNearestEven value) value = true
}.

Definition zeroDouble : Double := {| value := 0%Q; value_representable := eq_refl |}.

(** The binary64 number nearest to [q].  The test always succeeds
    ([double_value]): rounding is idempotent. *)
Definition double (q : Q) : Double :=
  let r := roundNearestEven q in
  match sumbool_of_bool (Qeq_bool (roundNearestEven r) r) with
  | left H => {| value := r; value_representable := H |}
  | right _ => zeroDouble
  end.

(** The numbers of JavaScript.  [Math.round x] is [floor (x + 1/2)],
    computed exactly; the integer it yields is a binary64 number whenever
    [x] is one. *)
Definition binary64 : Arithmetic :=
  {| num := Double;
     lit := double;
     add := fun x y => double (value x + value y);
     mul := fun x y => double (value x * value y);
     div := fun x y => double (value x / value y);
     round := fun x => double (inject_Z (Qfloor (value x + (1 # 2))));
     leb := fun x y => Qle_bool (value x) (value y) |}.

(** ** Regular expressions of the validator *)

(** [(context.match(/```[\s\S]*?```/g) || []).length]: an opening fence
    pairs with the nearest fence that starts at least three code units
    later. *)
Fixpoint countFences (opened : bool) (skip : nat) (s : string) : nat :=
  match s with
  | EmptyString => 0
  | String c rest =>
      match skip with
      | S k => countFences opened k rest
      | O =>
          if String.prefix "```" s
          then if opened then S (countFences false 2 rest)
               else countFences true 2 rest
          else countFences opened 0 rest
      end
  end.

Definition countCodeBlocks (context : string) : nat := countFences false 0 context.

(** [(context.match(/^##? /gm) || []).length]: with the [m] flag a line
    starts at offset 0 and after every line terminator. *)
Fixpoint countHeadersFrom (lineStart : bool) (s : string) : nat :=
  match s with
  | EmptyString => 0
  | String c rest =>
      (if lineStart && (String.prefix "# " s || String.prefix "## " s) then 1 else 0)
      + countHeadersFrom (isLineTerminator c) rest
  end.

Definition countHeaders (context : string) : nat := countHeadersFrom true context.

(** [/^[A-Z]/.test(word)] *)
Definition startsUppercase (word : string) : bool :=
  match word with
  | EmptyString => false
  | String c _ => let n := N_of_ascii c in ((65 <=? n) && (n <=? 90))%N
  end.

(** ** Query analysis ([analyzeQuery], lines 69-111) *)

Inductive QueryType : Type :=
| QFunction | QClass | QModule | QFeature | QGeneral.

Record QueryAnalysis : Type := {
  qa_type : QueryType;
  qa_entities : list string;
  qa_scope : string;
  qa_requiresImplementation : bool;
  qa_requiresTests : bool;
  qa_requiresDocumentation : bool;
  qa_requiresDependencies : bool;
  qa_keywords : list string
}.

Definition analyzeQuery (query : string) : QueryAnalysis :=
  let queryLower := toLowerCase query in
  let words := splitWhitespace query in
  {| qa_type :=
       if includes queryLower "function" || includes queryLower "method" then QFunction
       else if includes queryLower "class" || includes queryLower "object" then QClass
       else if includes queryLower "module" || includes queryLower "file" then QModule
       else if includes queryLower "feature" || includes queryLower "component" then QFeature
       else QGeneral;
     qa_entities :=
       filter (fun word =>
                 ((2 <? String.length word)%nat && startsUppercase word)
                 || includes word ".")
              words;
     qa_scope := "feature";
     qa_requiresImplementation :=
       includes queryLower "implement" || includes queryLower "code"
       || includes queryLower "how";
     qa_requiresTests := includes queryLower "test" || includes queryLower "spec";
     qa_requiresDocumentation :=
       includes queryLower "document" || includes queryLower "readme";
     qa_requiresDependencies := true;
     qa_keywords :=
       filter (fun word => (2 <? String.length word)%nat) (splitWhitespace query) |}.

Section Validator.

Variable A : Arithmetic.

Notation "x + y" := (add A x y).
Notation "x * y" := (mul A x y).
Notation "x / y" := (div A x y).
Notation "x <= y" := (leb A x y).
Notation "' q" := (lit A q%Q) (at level 1, format "' q").

(** A count, where the source uses it as a number. *)
Definition ofNat (n : nat) : num A := lit A (inject_Z (Z.of_nat n)).

(** [Math.min(1, x)] *)
Definition min1 (x : num A) : num A := if x <= '1 then x else '1.

(** [Math.round(x * 100) / 100] *)
Definition round2 (x : num A) : num A := round A (x * '100) / '100.

Record ValidationDetail : Type := {
  d_score : num A;
  d_weight : num A;
  d_missingElements : list string;
  d_suggestions : list string;
  d_warnings : list string;
  d_strengths : list string
}.

Record ValidationResult : Type := {
  isComplete : bool;
  completenessScore : num A;
  confidenceScore : num A;
  missingElements : list string;
  suggestions : list string;
  warnings : list string;
  strengths : list string
}.

Definition newDetail (weight : num A) : ValidationDetail :=
  {| d_score := '0; d_weight := weight;
     d_missingElements := []; d_suggestions := []; d_warnings := []; d_strengths := [] |}.

Definition setScore (r : ValidationDetail) (s : num A) : ValidationDetail :=
  {| d_score := s; d_weight := d_weight r;
     d_missingElements := d_missingElements r; d_suggestions := d_suggestions r;
     d_warnings := d_warnings r; d_strengths := d_strengths r |}.

Definition addScore (r : ValidationDetail) (s : num A) : ValidationDetail :=
  setScore r (d_score r + s).

Definition pushMissing (r : ValidationDetail) (x : string) : ValidationDetail :=
  {| d_score := d_score r; d_weight := d_weight r;
     d_missingElements := (d_missingElements r ++ [x])%list;
     d_suggestions := d_suggestions r;
     d_warnings := d_warnings r; d_strengths := d_strengths r |}.

Definition pushSuggestion (r : ValidationDetail) (x : string) : ValidationDetail :=
  {| d_score := d_score r; d_weight := d_weight r;
     d_missingElements := d_missingElements r;
     d_suggestions := (d_suggestions r ++ [x])%list;
     d_warnings := d_warnings r; d_strengths := d_strengths r |}.

Definition pushWarning (r : ValidationDetail) (x : string) : ValidationDetail :=
  {| d_score := d_score r; d_weight := d_weight r;
     d_missingElements := d_missingElements r; d_suggestions := d_suggestions r;
     d_warnings := (d_warnings r ++ [x])%list; d_strengths := d_strengths r |}.

Definition pushStrength (r : ValidationDetail) (x : string) : ValidationDetail :=
  {| d_score := d_score r; d_weight := d_weight r;
     d_missingElements := d_missingElements r; d_suggestions := d_suggestions r;
     d_warnings := d_warnings r; d_strengths := (d_strengths r ++ [x])%list |}.

(** [result.score = Math.min(1, result.score)] *)
Definition capScore (r : ValidationDetail) : ValidationDetail :=
  setScore r (min1 (d_score r)).

(** [validateCodeCompleteness] (lines 113-164) *)
Definition validateCodeCompleteness (context : string) (query : QueryAnalysis)
  : ValidationDetail :=
  let result := newDetail '0.3 in
  let codeBlocks := countCodeBlocks context in
  let result :=
    if (codeBlocks =? 0)%nat
    then
      let result := pushMissing result "No code implementations found" in
      let result := pushSuggestion result "Include actual code implementations" in
      setScore result '0.1
    else
      let result :=
        pushStrength result ("Contains " ++ showNat codeBlocks ++ " code blocks") in
      setScore result (min1 (ofNat codeBlocks / '5)) in
  let result :=
    if includes context "import" || includes context "from"
    then addScore (pushStrength result "Dependencies and imports are included") '0.2
    else pushMissing result "Missing import statements" in
  let result :=
    if includes context "export"
    then addScore (pushStrength result "Export statements included") '0.1
    else result in
  let result :=
    if includes context "interface" || includes context "type"
    then addScore (pushStrength result "Type definitions included") '0.1
    else result in
  let result :=
    match qa_type query with
    | QFunction =>
        if negb (includes context "function")
        then pushWarning result
               "Query asks about functions but few function definitions found"
        else result
    | _ => result
    end in
  let result :=
    match qa_type query with
    | QClass =>
        if negb (includes context "class")
        then pushWarning result
               "Query asks about classes but few class definitions found"
        else result
    | _ => result
    end in
  capScore result.

(** [validateDependencyCompleteness] (lines 166-201) *)
Definition validateDependencyCompleteness (contextContent : string) (query : QueryAnalysis)
  : ValidationDetail :=
  let result := newDetail '0.25 in
  let result :=
    if includes contextContent "Dependencies" || includes contextContent "imports"
    then addScore (pushStrength result "Dependency information included") '0.4
    else
      let result := pushMissing result "Missing dependency information" in
      pushSuggestion result "Include dependency relationships and import statements" in
  let result :=
    if includes contextContent "Dependency" && includes contextContent "Graph"
    then addScore (pushStrength result "Dependency graph visualization included") '0.3
    else result in
  let result :=
    if includes contextContent "Usage" || includes contextContent "Pattern"
    then addScore (pushStrength result "Usage patterns documented") '0.3
    else result in
  capScore result.

(** [validateStructuralCompleteness] (lines 203-244) *)
Definition validateStructuralCompleteness (context : string) (query : QueryAnalysis)
  : ValidationDetail :=
  let result := newDetail '0.2 in
  let hasHeaders := countHeaders context in
  let result :=
    if (3 <=? hasHeaders)%nat
    then addScore (pushStrength result "Well-structured with multiple sections") '0.3
    else pushSuggestion result "Add more structural sections for clarity" in
  let result :=
    if includes context "File Contents" || includes context "Components"
    then addScore (pushStrength result "File organization included") '0.3
    else result in
  let result :=
    if includes context "Summary" || includes context "Overview"
    then addScore (pushStrength result "Contains summary/overview section") '0.2
    else pushMissing result "Missing project summary" in
  let result :=
    if includes context "Insights" || includes context "Analysis"
    then addScore (pushStrength result "Includes analysis and insights") '0.2
    else result in
  capScore result.

(** [validateContextCoherence] (lines 246-286) *)
Definition validateContextCoherence (context : string) (query : QueryAnalysis)
  : ValidationDetail :=
  let result := newDetail '0.15 in
  let contextLower := toLowerCase context in
  let keywordMatches :=
    filter (fun keyword => includes contextLower (toLowerCase keyword))
           (qa_keywords query) in
  let coherenceRatio :=
    ofNat (List.length keywordMatches)
    / ofNat (Nat.max (List.length (qa_keywords query)) 1) in
  let result := setScore result coherenceRatio in
  let result :=
    if '0.7 <= coherenceRatio
    then pushStrength result "High coherence between query and context"
    else if '0.4 <= coherenceRatio
    then pushStrength result "Good coherence between query and context"
    else
      let result :=
        pushWarning result "Low coherence between query and provided context" in
      pushSuggestion result "Ensure context directly addresses the query" in
  let entityMatches :=
    filter (fun entity => includes contextLower (toLowerCase entity))
           (qa_entities query) in
  let result :=
    if (0 <? List.length entityMatches)%nat
    then
      addScore
        (pushStrength result
           ("Found " ++ showNat (List.length entityMatches) ++ " requested entities"))
        '0.2
    else result in
  capScore result.

(** [validateUsageExamples] (lines 288-327) *)
Definition validateUsageExamples (context : string) (query : QueryAnalysis)
  : ValidationDetail :=
  let result := newDetail '0.1 in
  let result :=
    if includes context "example" || includes context "Example"
    then addScore (pushStrength result "Contains usage examples") '0.5
    else result in
  let result :=
    if qa_requiresTests query
    then
      if includes context "test" || includes context "spec"
      then addScore (pushStrength result "Test cases included") '0.3
      else
        let result := pushMissing result "Missing test cases" in
        pushSuggestion result "Include relevant test files"
    else result in
  let result :=
    if qa_requiresDocumentation query
    then
      if includes context "README" || includes context "doc"
      then addScore (pushStrength result "Documentation included") '0.2
      else pushMissing result "Missing documentation"
    else result in
  capScore result.

(** [calculateConfidenceScore] (lines 329-349) *)
Definition calculateConfidenceScore (completenessScore : num A) (context : string)
  : num A :=
  let confidence := completenessScore in
  let contextLength := Z.of_nat (String.length context) in
  let confidence :=
    if (contextLength <? 1000)%Z then confidence * '0.7
    else if (10000 <? contextLength)%Z then min1 (confidence * '1.1)
    else confidence in
  let codeBlockCount := countCodeBlocks context in
  let confidence :=
    if (3 <=? codeBlockCount)%nat then min1 (confidence * '1.05) else confidence in
  round2 confidence.

(** Loop state of the aggregation (lines 42-53). *)
Record Totals : Type := {
  totalScore : num A;
  totalWeight : num A;
  allMissing : list string;
  allSuggestions : list string;
  allWarnings : list string;
  allStrengths : list string
}.

Definition aggregate (acc : Totals) (validation : ValidationDetail) : Totals :=
  {| totalScore := totalScore acc + d_score validation * d_weight validation;
     totalWeight := totalWeight acc + d_weight validation;
     allMissing := (allMissing acc ++ d_missingElements validation)%list;
     allSuggestions := (allSuggestions acc ++ d_suggestions validation)%list;
     allWarnings := (allWarnings acc ++ d_warnings validation)%list;
     allStrengths := (allStrengths acc ++ d_strengths validation)%list |}.

(** The array [validations] of lines 33-39. *)
Definition validations (contextContent : string) (queryAnalysis : QueryAnalysis)
  : list ValidationDetail :=
  [ validateCodeCompleteness contextContent queryAnalysis;
    validateDependencyCompleteness contextContent queryAnalysis;
    validateStructuralCompleteness contextContent queryAnalysis;
    validateContextCoherence contextContent queryAnalysis;
    validateUsageExamples contextContent queryAnalysis ].

(** [validateCompleteness] (lines 15-67).  Both shapes of its first argument
    carry [formattedContext], which is all it reads of it. *)
Definition validateCompleteness (contextContent : string) (query : string)
  : ValidationResult :=
  let queryAnalysis := analyzeQuery query in
  let totals :=
    fold_left aggregate (validations contextContent queryAnalysis)
      {| totalScore := '0; totalWeight := '0;
         allMissing := []; allSuggestions := []; allWarnings := []; allStrengths := [] |} in
  let completenessScore :=
    if negb (totalWeight totals <= '0)
    then round2 (totalScore totals / totalWeight totals)
    else '0 in
  let confidenceScore := calculateConfidenceScore completenessScore contextContent in
  let isComplete :=
    ('0.8 <= completenessScore) && (List.length (allMissing totals) <? 3)%nat in
  {| isComplete := isComplete;
     completenessScore := completenessScore;
     confidenceScore := confidenceScore;
     missingElements := unique (allMissing totals);
     suggestions := unique (allSuggestions totals);
     warnings := unique (allWarnings totals);
     strengths := unique (allStrengths totals) |}.

End Validator.

End ContextValidator.

Import ContextValidator.

(* ================================================================== *)
(** * analyzer.ts: queries over the cache                              *)
(* ================================================================== *)

Module AnalyzerQueries.

(** [searchFiles] (lines 922-931) *)
Definition searchFiles (cache : Cache) (query : string) : list FileInfo :=
  let files := cacheValues cache in
  let queryLower := toLowerCase query in
  filter (fun file =>
            includes (toLowerCase (relativePath file)) queryLower
            || some (fun fn => includes (toLowerCase (fn_name fn)) queryLower)
                    (functions file)
            || some (fun cls => includes (toLowerCase (cls_name cls)) queryLower)
                    (classes file))
         files.

Record Reference : Type := {
  ref_line : Z;
  ref_type : string
}.

(** The references one file contributes (lines 938-959). *)
Definition fileReferences (symbol : string) (file : FileInfo) : list Reference :=
  (flat_map (fun fn =>
     if String.eqb (fn_name fn) symbol
     then [ {| ref_line := fn_startLine fn; ref_type := "function_definition" |} ]
     else []) (functions file)
   ++ flat_map (fun cls =>
     if String.eqb (cls_name cls) symbol
     then [ {| ref_line := cls_startLine cls; ref_type := "class_definition" |} ]
     else []) (classes file)
   ++ flat_map (fun imp =>
     if existsb (String.eqb symbol) (imp_imports imp)
     then [ {| ref_line := 0; ref_type := "import" |} ]
     else []) (imports file))%list.

(** [findReferences] (lines 933-967) *)
Definition findReferences (cache : Cache) (symbol : string)
  : list (FileInfo * list Reference) :=
  flat_map (fun file =>
              let refs := fileReferences symbol file in
              if (0 <? List.length refs)%nat then [(file, refs)] else [])
           (cacheValues cache).

(** The loop over the extensions of [findFile] (lines 502-506): the first
    extension with a hit decides. *)
Fixpoint findWithExtensions (files : list FileInfo) (importPath : string)
         (extensions : list string) : option FileInfo :=
  match extensions with
  | [] => None
  | ext :: rest =>
      match find (fun f =>
                    String.eqb (relativePath f) (importPath ++ ext)
                    || String.eqb (relativePath f) (importPath ++ "/index" ++ ext))
                 files with
      | Some found => Some found
      | None => findWithExtensions files importPath rest
      end
  end.

(** [findFile] (lines 493-511) *)
Definition findFile (cache : Cache) (importPath : string) : option FileInfo :=
  let files := cacheValues cache in
  match find (fun f => String.eqb (relativePath f) importPath
                       || String.eqb (path f) importPath) files with
  | Some found => Some found
  | None =>
      match findWithExtensions files importPath [".ts"; ".js"; ".tsx"; ".jsx"] with
      | Some found => Some found
      | None =>
          find (fun f => includes (relativePath f) importPath
                         || includes (path f) importPath) files
      end
  end.

(** [buildDependencyEdges] (lines 763-780) *)
Definition buildDependencyEdges (cache : Cache) (files : list FileInfo) : list GraphEdge :=
  flat_map (fun file =>
    flat_map (fun dep =>
      match findFile cache dep with
      | Some targetFile =>
          [ {| source := relativePath file;
               target := relativePath targetFile;
               edge_type := "import" |} ]
      | None => []
      end) (dependencies file)) files.

End AnalyzerQueries.

Import AnalyzerQueries.

(** ** The dependency graph of one target (lines 527-582)

    The analyzer's [buildDependencyGraph]; the module keeps it apart from
    the method of the same name of the context builder. *)

Module ProjectAnalyzer.

Record Link : Type := {
  link_source : string;
  link_target : string
}.

Record TargetGraph : Type := {
  tg_target : string;
  tg_dependencies : list string;
  tg_dependents : list string;
  tg_nodes : list string;
  tg_edges : list Link
}.

(** The two variables [collectDependencies] closes over: the set [visited]
    and the array [dependencies]. *)
Record Collected : Type := {
  visited : list string;
  collected : list string
}.

(** [collectDependencies] (lines 549-561).  [budget] is [6 - depth]: the
    call returns at once when [depth > 5], that is when no budget is left. *)
Fixpoint collectDependencies (cache : Cache) (budget : nat) (file : FileInfo)
         (st : Collected) : Collected :=
  match budget with
  | O => st
  | S budget' =>
      if existsb (String.eqb (path file)) (visited st) then st
      else
        fold_left
          (fun st dep =>
             match findFile cache dep with
             | Some depFile =>
                 if existsb (String.eqb (relativePath depFile)) (collected st)
                 then st
                 else collectDependencies cache budget' depFile
                        {| visited := visited st;
                           collected := (collected st ++ [relativePath depFile])%list |}
             | None => st
             end)
          (dependencies file)
          {| visited := (visited st ++ [path file])%list;
             collected := collected st |}
  end.

(** The loop over the dependents (lines 564-568). *)
Definition dependentsOf (target : string) (filteredFiles : list FileInfo) : list string :=
  flat_map (fun file =>
              if existsb (String.eqb target) (dependencies file)
                 || some (fun imp => String.eqb (imp_path imp) target) (imports file)
              then [relativePath file]
              else [])
           filteredFiles.

(** [buildDependencyGraph] of the analyzer (lines 527-582); the parameter
    [projectRoot] is not used. *)
Definition buildDependencyGraph (cache : Cache) (target : string) (includeTests : bool)
  : TargetGraph :=
  let files := cacheValues cache in
  let filteredFiles :=
    if includeTests then files
    else filter (fun f => negb (includes (path f) "test")
                          && negb (includes (path f) "spec")) files in
  let targetFile :=
    match findFile cache target with
    | Some f => Some f
    | None => find (fun f => includes (relativePath f) target) filteredFiles
    end in
  match targetFile with
  | None =>
      {| tg_target := target; tg_dependencies := []; tg_dependents := [];
         tg_nodes := []; tg_edges := [] |}
  | Some targetFile =>
      let dependents := dependentsOf target filteredFiles in
      let dependencies :=
        collected (collectDependencies cache 6 targetFile
                                       {| visited := []; collected := [] |}) in
      {| tg_target := relativePath targetFile;
         tg_dependencies := dependencies;
         tg_dependents := dependents;
         tg_nodes := (relativePath targetFile :: dependencies ++ dependents)%list;
         tg_edges :=
           (map (fun dep => {| link_source := relativePath targetFile;
                               link_target := dep |}) dependencies
            ++ map (fun dep => {| link_source := dep;
                                  link_target := relativePath targetFile |})
                   dependents)%list |}
  end.

(** ** The project analysis (lines 600-610, 652-694, 725-740, 809-823) *)

Record LanguageStats : Type := {
  ls_count : Z;
  ls_totalSize : Z;
  ls_totalFunctions : Z;
  ls_totalClasses : Z
}.

(** Body of the loop of [analyzeLanguages] (lines 655-670), on an object
    whose keys keep their insertion order. *)
Fixpoint addLanguage (file : FileInfo) (languages : list (Language * LanguageStats))
  : list (Language * LanguageStats) :=
  let add (lang : LanguageStats) :=
    {| ls_count := ls_count lang + 1;
       ls_totalSize := ls_totalSize lang + size file;
       ls_totalFunctions :=
         ls_totalFunctions lang + Z.of_nat (List.length (functions file));
       ls_totalClasses :=
         ls_totalClasses lang + Z.of_nat (List.length (classes file)) |}%Z in
  match languages with
  | [] =>
      [(language file,
        add {| ls_count := 0; ls_totalSize := 0;
               ls_totalFunctions := 0; ls_totalClasses := 0 |})]
  | (key, lang) :: rest =>
      if Language_eqb key (language file) then (key, add lang) :: rest
      else (key, lang) :: addLanguage file rest
  end.

(** [analyzeLanguages] (lines 652-673) *)
Definition analyzeLanguages (files : list FileInfo) : list (Language * LanguageStats) :=
  fold_left (fun languages file => addLanguage file languages) files [].

(** [detectArchitecturalPatterns] (lines 675-694) *)
Definition detectArchitecturalPatterns (files : list FileInfo) : list string :=
  let hasTests := some (fun f => includes (path f) "test" || includes (path f) "spec") files in
  let hasComponents := some (fun f => includes (path f) "component") files in
  let hasServices := some (fun f => includes (path f) "service") files in
  let hasModels := some (fun f => includes (path f) "model") files in
  let hasControllers := some (fun f => includes (path f) "controller") files in
  let hasUtils := some (fun f => includes (path f) "util") files in
  ((if hasTests then ["Testing Framework"] else [])
   ++ (if hasComponents then ["Component-Based Architecture"] else [])
   ++ (if hasServices then ["Service Layer Pattern"] else [])
   ++ (if hasModels then ["Model-Based Architecture"] else [])
   ++ (if hasControllers then ["MVC Pattern"] else [])
   ++ (if hasUtils then ["Utility Functions"] else []))%list.

(** The integer fields of [calculateProjectComplexity] (lines 725-740); its
    three averages are floating-point quotients and are left out. *)
Record Complexity : Type := {
  cx_files : nat;
  cx_functions : nat;
  cx_classes : nat;
  cx_lines : nat
}.

Definition calculateProjectComplexity (files : list FileInfo) : Complexity :=
  {| cx_files := List.length files;
     cx_functions := fold_left (fun sum f => sum + List.length (functions f)) files 0;
     cx_classes := fold_left (fun sum f => sum + List.length (classes f)) files 0;
     cx_lines :=
       fold_left (fun sum f => sum + List.length (split (content f) LF)) files 0 |}.

(** [generateProjectSummary] (lines 809-823); [reduce] without an initial
    value throws on an empty array. *)
Definition generateProjectSummary (files : list FileInfo) : Result string :=
  let totalFiles := List.length files in
  let languages := analyzeLanguages files in
  match languages with
  | [] => Throw (TypeError "Reduce of empty array with no initial value")
  | first :: rest =>
      let primaryLanguage :=
        fst (fold_left (fun a b =>
                          if (ls_count (snd b) <? ls_count (snd a))%Z then a else b)
                       rest first) in
      let patterns := detectArchitecturalPatterns files in
      let complexity := calculateProjectComplexity files in
      Ok ("This project contains " ++ showNat totalFiles
          ++ " files primarily written in " ++ languageName primaryLanguage ++ ". "
          ++ "It follows " ++ join patterns ", " ++ " architectural patterns. "
          ++ "The codebase has " ++ showNat (cx_functions complexity)
          ++ " functions and " ++ showNat (cx_classes complexity) ++ " classes "
          ++ "across " ++ showNat (cx_lines complexity) ++ " lines of code.")
  end.

Section Reports.

(** What the reports hold beside the parts modelled here: the file types,
    the directory tree and the complexity of the structure; the
    architecture, the metrics and the recommendations of the analysis; and
    the module clusters of the dependency graph. *)
Variables StructureDetails AnalysisDetails Cluster : Type.
Variable structureDetails : list FileInfo -> StructureDetails.
Variable analysisDetails : list FileInfo -> AnalysisDetails.
Variable identifyModuleClusters : list FileInfo -> list Cluster.

Record Structure : Type := {
  st_totalFiles : nat;
  st_languages : list (Language * LanguageStats);
  st_details : StructureDetails
}.

(** [getProjectStructure] (lines 513-525) *)
Definition getProjectStructure (cache : Cache) : Structure :=
  let files := cacheValues cache in
  {| st_totalFiles := List.length files;
     st_languages := analyzeLanguages files;
     st_details := structureDetails files |}.

Record Analysis : Type := {
  an_summary : string;
  an_patterns : list string;
  an_details : AnalysisDetails
}.

(** [getProjectAnalysis] (lines 600-610): the summary is computed first. *)
Definition getProjectAnalysis (cache : Cache) : Result Analysis :=
  let files := cacheValues cache in
  summary <- generateProjectSummary files ;;
  Ok {| an_summary := summary;
        an_patterns := detectArchitecturalPatterns files;
        an_details := analysisDetails files |}.

Record ProjectGraph : Type := {
  pg_nodes : list GraphNode;
  pg_edges : list GraphEdge;
  pg_clusters : list Cluster
}.

(** [getDependencyGraph] (lines 584-598) *)
Definition getDependencyGraph (cache : Cache) : ProjectGraph :=
  let files := cacheValues cache in
  {| pg_nodes :=
       map (fun f => {| node_id := relativePath f;
                        node_type := language f;
                        node_size := size f;
                        node_functions := List.length (functions f);
                        node_classes := List.length (classes f) |}) files;
     pg_edges := buildDependencyEdges cache files;
     pg_clusters := identifyModuleClusters files |}.

End Reports.

End ProjectAnalyzer.

(* ================================================================== *)
(** * analyzer.ts: the scanners behind [analyzeFile]                   *)
(* ================================================================== *)

(** The module keeps the scanners apart from the fields of [Extractors],
    which have the same names. *)
Module Scanners.

(** The regular expressions of the scanners are parameters.  Each one is
    given as the function from the text it is applied to, to the capture
    groups the code reads: [None] is [null] for a match and [undefined] for
    a group; a group that takes part in every match is a plain string. *)
Record Patterns : Type := {
  (** line 160, all matches in order: groups 1 to 4 *)
  importMatches :
    string -> list (option string * option string * option string * string);
  (** line 188, all matches in order: groups 1 to 3 *)
  requireMatches : string -> list (option string * option string * string);
  (** line 208, all matches in order: groups 1 and 2 *)
  pythonImportMatches : string -> list (option string * string);
  (** line 238: group 1 *)
  exportFunctionMatch : string -> option string;
  (** line 250: group 1 *)
  exportClassMatch : string -> option string;
  (** line 262: group 1 *)
  exportInterfaceMatch : string -> option string;
  (** line 274: group 1 *)
  exportTypeMatch : string -> option string;
  (** line 285: whether there is a match *)
  exportConstTest : string -> bool;
  (** line 286: group 1 *)
  exportConstMatch : string -> option string;
  (** line 334: groups 1 and 2 *)
  functionMatch : string -> option (string * string);
  (** line 350: group 1 *)
  arrowMatch : string -> option string;
  (** line 395: groups 1 to 3 *)
  classMatch : string -> option (string * option string * option string);
  (** line 438: group 1 *)
  interfaceMatch : string -> option string;
  (** line 476: groups 1 and 2 *)
  typeMatch : string -> option (string * string)
}.

(** Truthiness of a capture group: [undefined] and the empty string are
    falsy. *)
Definition truthy (group : option string) : option string :=
  match group with
  | Some text => if String.eqb text "" then None else Some text
  | None => None
  end.

(** [index + 1] *)
Definition lineNumber (index : nat) : Z := Z.of_nat index + 1.

(** [lines.forEach((line, index) => ...)] with a body that pushes the
    records [body index line]. *)
Definition forEachLine {R : Type} (body : nat -> string -> list R) (content : string)
  : list R :=
  concat (mapi body (split content LF)).

Definition isScript (language : Language) : bool :=
  match language with
  | typescript | javascript => true
  | _ => false
  end.

Section Scan.

Variable P : Patterns.

(** Bodies of the two [while] loops over the ES module syntax (lines
    163-185 and 189-205). *)
Definition importOf (m : option string * option string * option string * string)
  : list ImportRecord :=
  let '(defaultImport, namedImports, namespaceImport, path) := m in
  match truthy defaultImport with
  | Some defaultImport =>
      [ {| imp_path := trim path; imp_imports := [trim defaultImport];
           imp_isDefault := true |} ]
  | None =>
      match truthy namedImports with
      | Some namedImports =>
          [ {| imp_path := trim path;
               imp_imports := map trim (split namedImports ",");
               imp_isDefault := false |} ]
      | None =>
          match truthy namespaceImport with
          | Some namespaceImport =>
              [ {| imp_path := trim path; imp_imports := [trim namespaceImport];
                   imp_isDefault := false |} ]
          | None => []
          end
      end
  end.

Definition requireOf (m : option string * option string * string) : list ImportRecord :=
  let '(singleImport, destructured, path) := m in
  match truthy singleImport with
  | Some singleImport =>
      [ {| imp_path := trim path; imp_imports := [trim singleImport];
           imp_isDefault := true |} ]
  | None =>
      match truthy destructured with
      | Some destructured =>
          [ {| imp_path := trim path;
               imp_imports := map trim (split destructured ",");
               imp_isDefault := false |} ]
      | None => []
      end
  end.

(** Body of the loop over the Python imports (lines 211-221). *)
Definition pythonImportOf (m : option string * string) : ImportRecord :=
  let '(fromPath, importedItems) := m in
  let path :=
    match truthy fromPath with
    | Some fromPath => fromPath
    | None => trim (hd "" (split importedItems ","))
    end in
  {| imp_path := trim path;
     imp_imports := map trim (split importedItems ",");
     imp_isDefault := false |}.

(** [extractImports] (lines 155-225) *)
Definition extractImports (content : string) (language : Language) : list ImportRecord :=
  if isScript language
  then (flat_map importOf (importMatches P content)
        ++ flat_map requireOf (requireMatches P content))%list
  else match language with
       | python => map pythonImportOf (pythonImportMatches P content)
       | _ => []
       end.

(** The [if (match)] blocks of [extractExports]. *)
Definition exported (kind : ExportKind) (index : nat) (m : option string)
  : list ExportRecord :=
  match m with
  | Some name => [ {| exp_name := name; exp_type := kind; exp_line := lineNumber index |} ]
  | None => []
  end.

(** Body of the loop of [extractExports] (lines 233-304). *)
Definition exportOfLine (index : nat) (line : string) : list ExportRecord :=
  let trimmed := trim line in
  if startsWith trimmed "export function "
     || startsWith trimmed "export async function "
  then exported ExportFunction index (exportFunctionMatch P trimmed)
  else if startsWith trimmed "export class "
  then exported ExportClass index (exportClassMatch P trimmed)
  else if startsWith trimmed "export interface "
  then exported ExportInterface index (exportInterfaceMatch P trimmed)
  else if startsWith trimmed "export type "
  then exported ExportType index (exportTypeMatch P trimmed)
  else if exportConstTest P trimmed
  then exported ExportConst index (exportConstMatch P trimmed)
  else if startsWith trimmed "export default "
  then [ {| exp_name := "default"; exp_type := ExportDefault;
            exp_line := lineNumber index |} ]
  else [].

(** [extractExports] (lines 227-308) *)
Definition extractExports (content : string) (language : Language) : list ExportRecord :=
  if isScript language then forEachLine exportOfLine content else [].

(** Body of the loop of [extractFunctions] (lines 330-363). *)
Definition functionsOfLine (index : nat) (line : string) : list FunctionRecord :=
  let trimmed := trim line in
  (match functionMatch P trimmed with
   | Some (name, paramsStr) =>
       [ {| fn_name := name;
            fn_startLine := lineNumber index;
            fn_endLine := lineNumber index;
            fn_params := if String.eqb paramsStr "" then []
                         else map trim (split paramsStr ",");
            fn_isAsync := includes trimmed "async";
            fn_isExported := includes trimmed "export" |} ]
   | None => []
   end
   ++ match arrowMatch P trimmed with
      | Some name =>
          [ {| fn_name := name;
               fn_startLine := lineNumber index;
               fn_endLine := lineNumber index;
               fn_params := [];
               fn_isAsync := includes trimmed "async";
               fn_isExported := includes trimmed "export" |} ]
      | None => []
      end)%list.

(** [extractFunctions] (lines 310-367) *)
Definition extractFunctions (content : string) (language : Language)
  : list FunctionRecord :=
  if isScript language then forEachLine functionsOfLine content else [].

(** Body of the loop of [extractClasses] (lines 391-410). *)
Definition classOfLine (index : nat) (line : string) : list ClassRecord :=
  let trimmed := trim line in
  match classMatch P trimmed with
  | Some (name, extendsClass, implementsStr) =>
      [ {| cls_name := name;
           cls_startLine := lineNumber index;
           cls_endLine := lineNumber index;
           cls_methods := [];
           cls_extends := extendsClass;
           cls_implements :=
             match truthy implementsStr with
             | Some implementsStr => Some (map trim (split implementsStr ","))
             | None => None
             end;
           cls_isExported := includes trimmed "export" |} ]
  | None => []
  end.

(** [extractClasses] (lines 369-414) *)
Definition extractClasses (content : string) (language : Language) : list ClassRecord :=
  if isScript language then forEachLine classOfLine content else [].

(** Body of the loop of [extractInterfaces] (lines 434-450). *)
Definition interfaceOfLine (index : nat) (line : string) : list InterfaceRecord :=
  let trimmed := trim line in
  match interfaceMatch P trimmed with
  | Some name =>
      [ {| itf_name := name;
           itf_startLine := lineNumber index;
           itf_endLine := lineNumber index;
           itf_properties := [];
           itf_isExported := includes trimmed "export" |} ]
  | None => []
  end.

(** [extractInterfaces] (lines 416-454) *)
Definition extractInterfaces (content : string) (language : Language)
  : list InterfaceRecord :=
  match language with
  | typescript => forEachLine interfaceOfLine content
  | _ => []
  end.

(** Body of the loop of [extractTypes] (lines 472-487). *)
Definition typeOfLine (index : nat) (line : string) : list TypeRecord :=
  let trimmed := trim line in
  match typeMatch P trimmed with
  | Some (name, definition) =>
      [ {| ty_name := name;
           ty_startLine := lineNumber index;
           ty_definition := trim definition;
           ty_isExported := includes trimmed "export" |} ]
  | None => []
  end.

(** [extractTypes] (lines 456-491) *)
Definition extractTypes (content : string) (language : Language) : list TypeRecord :=
  match language with
  | typescript => forEachLine typeOfLine content
  | _ => []
  end.

(** The scanners as [analyzeFile] calls them. *)
Definition extractors : Extractors :=
  {| Analyzer.extractImports := extractImports;
     Analyzer.extractExports := extractExports;
     Analyzer.extractFunctions := extractFunctions;
     Analyzer.extractClasses := extractClasses;
     Analyzer.extractInterfaces := extractInterfaces;
     Analyzer.extractTypes := extractTypes |}.

End Scan.

End Scanners.

(* ================================================================== *)
(** * file-watcher.ts                                                  *)
(* ================================================================== *)

Module FileWatcher.

(** ** The change queue of one [watch] call (lines 68-90)

    [changeQueue] and [changeTimeout] are the two variables the handlers
    close over.  At most one timer is pending; [delivered] records the
    arguments of the calls of [onChange], oldest first. *)
Record Debounce : Type := {
  changeQueue : list string;
  changeTimeout : bool;
  delivered : list (list string)
}.

Definition idle : Debounce :=
  {| changeQueue := []; changeTimeout := false; delivered := [] |}.

(** [processChanges] (lines 71-78) *)
Definition processChanges (st : Debounce) : Debounce :=
  if (0 <? List.length (changeQueue st))%nat
  then {| changeQueue := [];
          changeTimeout := false;
          delivered := (delivered st ++ [changeQueue st])%list |}
  else {| changeQueue := changeQueue st;
          changeTimeout := false;
          delivered := delivered st |}.

(** [queueChange] (lines 80-90): the pending timer is cleared and a new one
    is set. *)
Definition queueChange (st : Debounce) (filePath : string) : Debounce :=
  {| changeQueue :=
       if existsb (String.eqb filePath) (changeQueue st)
       then changeQueue st
       else (changeQueue st ++ [filePath])%list;
     changeTimeout := true;
     delivered := delivered st |}.

(** What can happen to a watcher: the file system reports a path
    ([add], [change] and [unlink] all call [queueChange]), or the pending
    timer fires. *)
Inductive Event : Type :=
| FileEvent (filePath : string)
| TimerFired.

(** A timer that was cleared, or never set, does not fire. *)
Definition step (st : Debounce) (ev : Event) : Debounce :=
  match ev with
  | FileEvent filePath => queueChange st filePath
  | TimerFired => if changeTimeout st then processChanges st else st
  end.

Definition run (events : list Event) (st : Debounce) : Debounce :=
  fold_left step events st.

(** ** The watcher object (lines 4-6, 8-66, 112-130) *)

Record Watcher : Type := {
  patterns : list string;
  ignored : list string
}.

Record State : Type := {
  watcher : option Watcher;
  (** a [Set]: insertion order, no repetition *)
  watchedPaths : list string
}.

Definition initial : State := {| watcher := None; watchedPaths := [] |}.

Definition focusedSuffixes : list string :=
  [ "**/*.js"; "**/*.jsx"; "**/*.ts"; "**/*.tsx";
    "**/*.go"; "**/*.php"; "**/*.java"; "**/*.py";
    "**/*.html"; "**/*.htm"; "**/*.css"; "**/*.scss"; "**/*.sass";
    "**/*.json"; "**/*.yaml"; "**/*.yml"; "**/*.ini"; "**/*.cfg";
    "**/*.conf"; "**/*.config"; "**/*.md"; "**/*.txt" ].

Section Watch.

(** [path.join] *)
Variable path_join : string -> string -> string.

(** [watch] (lines 8-113): an existing watcher is closed and replaced. *)
Definition watch (st : State) (projectRoot : string) : State :=
  {| watcher :=
       Some {| patterns := map (path_join projectRoot) focusedSuffixes;
               ignored := [ "**/node_modules/**"; "**/dist/**"; "**/build/**";
                            "**/target/**"; "**/vendor/**"; "**/.git/**";
                            "**/coverage/**" ] |};
     watchedPaths :=
       if existsb (String.eqb projectRoot) (watchedPaths st)
       then watchedPaths st
       else (watchedPaths st ++ [projectRoot])%list |}.

End Watch.

(** [stopWatching] (lines 115-122) *)
Definition stopWatching (st : State) : State :=
  match watcher st with
  | Some _ => {| watcher := None; watchedPaths := [] |}
  | None => st
  end.

(** [isWatching] (lines 124-126) *)
Definition isWatching (st : State) (projectRoot : string) : bool :=
  existsb (String.eqb projectRoot) (watchedPaths st).

(** [getWatchedPaths] (lines 128-130) *)
Definition getWatchedPaths (st : State) : list string := watchedPaths st.

End FileWatcher.

(* ================================================================== *)
(** * context-builder.ts: what the folder tree leaves out              *)
(* ================================================================== *)

Module FolderTree.

(** Lines 649-671. *)
Definition excludePatterns : list string :=
  [ "node_modules"; ".next"; ".nuxt"; "dist"; "build"; "target"; "out";
    ".venv"; "venv"; "__pycache__"; ".pytest_cache";
    "vendor"; "composer.lock";
    ".gradle"; "gradle";
    ".vscode"; ".idea"; ".vs"; ".vscode-test";
    ".git"; ".svn"; ".hg";
    ".cache"; ".tmp"; "tmp"; "temp"; ".temp";
    "coverage"; ".nyc_output";
    ".DS_Store"; "Thumbs.db"; "desktop.ini";
    "logs"; "*.log"; "npm-debug.log*"; "yarn-debug.log*"; "yarn-error.log*" ].

(** [pattern.replace(/\*/g, '.*')] *)
Fixpoint replaceStars (pattern : string) : string :=
  match pattern with
  | EmptyString => EmptyString
  | String c rest =>
      if Ascii.eqb c "*"%char then ".*" ++ replaceStars rest
      else String c (replaceStars rest)
  end.

Section ShouldExclude.

(** [new RegExp(source).test(name)], for the four sources that arise. *)
Variable regexTest : string -> string -> bool.

(** [shouldExclude] (lines 673-681) *)
Definition shouldExclude (name : string) : bool :=
  some (fun pattern =>
          if includes pattern "*"
          then regexTest (replaceStars pattern) name
          else String.eqb name pattern || startsWith name pattern)
       excludePatterns.

End ShouldExclude.

End FolderTree.

(* ================================================================== *)
(** * context-builder.ts: the language named in the summary            *)
(* ================================================================== *)

(** The vote of [generateContextSummary] (lines 436-439); [reduce] without
    an initial value throws on an empty array. *)
Definition summaryPrimaryLanguage (files : list FileInfo) : Result string :=
  match files with
  | [] => Throw (TypeError "Reduce of empty array with no initial value")
  | first :: rest =>
      let count (f : FileInfo) :=
        List.length (filter (fun g => Language_eqb (language g) (language f)) files) in
      let winner :=
        fold_left (fun prev current =>
                     if (count prev <? count current)%nat then current else prev)
                  rest first in
      Ok (languageName (language winner))
  end.

(* ================================================================== *)
(** * The server (unnamed/part_001, lines 1-296)                       *)
(* ================================================================== *)

Module Server.

Inductive ErrorCode : Type :=
| MethodNotFound | InternalError | InvalidParams.

(** [new McpError(code, message)] *)
Record McpError : Type := {
  code : ErrorCode;
  mcp_message : string
}.

(** A handler returns, or throws an [McpError]. *)
Inductive Outcome (A : Type) : Type :=
| Returned (value : A)
| Failed (error : McpError).

Arguments Returned {A} value.
Arguments Failed {A} error.

(** The arguments of the two tools, of the shape the handlers declare. *)
Record GetCompleteContextArgs : Type := {
  arg_query : string;
  arg_scope : option string;
  arg_completeness : option string;
  arg_maxTokens : option Z;
  arg_projectRoot : string;
  arg_folderTreeMode : option string
}.

Record GetFolderTreeArgs : Type := {
  tree_projectRoot : string;
  tree_mode : option string
}.

Inductive ToolCall : Type :=
| GetCompleteContext (args : GetCompleteContextArgs)
| GetFolderTree (args : GetFolderTreeArgs).

Definition toolName (call : ToolCall) : string :=
  match call with
  | GetCompleteContext _ => "get_complete_context"
  | GetFolderTree _ => "get_folder_tree"
  end.

Inductive Resource : Type :=
| StructureResource | DependenciesResource | AnalysisResource.

Definition uri (resource : Resource) : string :=
  match resource with
  | StructureResource => "project://structure"
  | DependenciesResource => "project://dependencies"
  | AnalysisResource => "project://analysis"
  end.

(** The fields of the server (lines 19-25): its own analyzer, the analyzer
    the context builder owns (context-builder.ts, lines 35-37), the file
    watcher and the last project root. *)
Record State : Type := {
  analyzer : Analyzer.State;
  contextBuilder : Analyzer.State;
  fileWatcher : FileWatcher.State;
  projectRoot : string
}.

(** The constructor (lines 27-46). *)
Definition initial : State :=
  {| analyzer := initialState;
     contextBuilder := initialState;
     fileWatcher := FileWatcher.initial;
     projectRoot := "" |}.

(** [value || fallback] on an optional string and on an optional number. *)
Definition orString (value : option string) (fallback : string) : string :=
  match value with
  | Some text => if String.eqb text "" then fallback else text
  | None => fallback
  end.

Definition orNumber (value : option Z) (fallback : Z) : Z :=
  match value with
  | Some n => if (n =? 0)%Z then fallback else n
  | None => fallback
  end.

Section Handlers.

Variable W : World.
Variable X : Extractors.
Variable E : RegExpEngine.
Variable P : Platform.
Variable R : Renderer.
Variable A : Arithmetic.

Variables StructureDetails AnalysisDetails Cluster : Type.
Variable structureDetails : list FileInfo -> StructureDetails.
Variable analysisDetails : list FileInfo -> AnalysisDetails.
Variable identifyModuleClusters : list FileInfo -> list Cluster.

(** What a tool answers: the values [handleGetCompleteContext] puts into its
    text (lines 229-266), and the text of [handleGetFolderTree]. *)
Inductive ToolResult : Type :=
| ContextReport (query : string) (context : Response) (validation : ValidationResult A)
| FolderTreeReport (text : string).

(** What a resource holds: the value passed to [JSON.stringify]. *)
Inductive Contents : Type :=
| StructureJson (structure : ProjectAnalyzer.Structure StructureDetails)
| DependenciesJson (graph : ProjectAnalyzer.ProjectGraph Cluster)
| AnalysisJson (analysis : ProjectAnalyzer.Analysis AnalysisDetails).

(** [handleGetCompleteContext] (lines 208-268) *)
Definition handleGetCompleteContext (args : GetCompleteContextArgs) (st : State)
  : Result ToolResult * State :=
  let options :=
    {| query := arg_query args;
       opt_projectRoot := arg_projectRoot args;
       scope := Some (orString (arg_scope args) "feature");
       completeness := Some (orString (arg_completeness args) "full");
       maxTokens := Some (orNumber (arg_maxTokens args) 180000) |} in
  match buildCompleteContext W X E P R options (contextBuilder st) with
  | (Ok context, builder) =>
      let validation :=
        validateCompleteness A (formattedContext context) (arg_query args) in
      (Ok (ContextReport (arg_query args) context validation),
       {| analyzer := analyzer st;
          contextBuilder := builder;
          fileWatcher := fileWatcher st;
          projectRoot := arg_projectRoot args |})
  | (Throw error, builder) =>
      (Throw error,
       {| analyzer := analyzer st;
          contextBuilder := builder;
          fileWatcher := fileWatcher st;
          projectRoot := arg_projectRoot args |})
  end.

(** [handleGetFolderTree] (lines 270-284) *)
Definition handleGetFolderTree (args : GetFolderTreeArgs) (st : State)
  : Result ToolResult * State :=
  let folderTree := generateFolderTree P (tree_projectRoot args) in
  (Ok (FolderTreeReport
         ("# Folder Tree" ++ LF ++ LF
          ++ "Mode: " ++ orString (tree_mode args) "full_analysis" ++ LF
          ++ "Project Root: " ++ tree_projectRoot args ++ LF ++ LF
          ++ folderTree)),
   st).

(** The tool execution handler (lines 140-161), for the two tools. *)
Definition callTool (call : ToolCall) (st : State) : Outcome ToolResult * State :=
  let '(result, st') :=
    match call with
    | GetCompleteContext args => handleGetCompleteContext args st
    | GetFolderTree args => handleGetFolderTree args st
    end in
  match result with
  | Ok value => (Returned value, st')
  | Throw error =>
      (Failed {| code := InternalError;
                 mcp_message := "Error executing " ++ toolName call ++ ": "
                                ++ errorMessage error |},
       st')
  end.

(** The resource read handler (lines 164-205), for the three resources. *)
Definition readResource (resource : Resource) (st : State) : Outcome Contents :=
  let result :=
    match resource with
    | StructureResource =>
        Ok (StructureJson
              (ProjectAnalyzer.getProjectStructure structureDetails
                 (cache (analyzer st))))
    | DependenciesResource =>
        Ok (DependenciesJson
              (ProjectAnalyzer.getDependencyGraph identifyModuleClusters
                 (cache (analyzer st))))
    | AnalysisResource =>
        analysis <- ProjectAnalyzer.getProjectAnalysis analysisDetails
                      (cache (analyzer st)) ;;
        Ok (AnalysisJson analysis)
    end in
  match result with
  | Ok contents => Returned contents
  | Throw error =>
      Failed {| code := InternalError;
                mcp_message := "Error reading resource " ++ uri resource ++ ": "
                               ++ errorMessage error |}
  end.

(** The state after a sequence of tool calls. *)
Definition afterCalls (calls : list ToolCall) (st : State) : State :=
  fold_left (fun st call => snd (callTool call st)) calls st.

End Handlers.

End Server.

(* ================================================================== *)
(** * Vocabulary of the statements                                     *)
(* ================================================================== *)

(** [Subsequence xs ys]: [xs] is obtained from [ys] by dropping elements,
    the kept ones staying in their order. *)
Inductive Subsequence {A : Type} : list A -> list A -> Prop :=
| Subsequence_nil : Subsequence [] []
| Subsequence_skip : forall x xs ys, Subsequence xs ys -> Subsequence xs (x :: ys)
| Subsequence_keep : forall x xs ys, Subsequence xs ys -> Subsequence (x :: xs) (x :: ys).

(** Reading or statting [filePath] throws. *)
Definition readFails (W : World) (filePath : string) : Prop :=
  (exists e, fs_stat W filePath = Throw e) \/ (exists e, fs_readFile W filePath = Throw e).

(** A record without facts: what extraction leaves for an unreadable file. *)
Definition isEmptyRecord (fileInfo : FileInfo) : Prop :=
  imports fileInfo = [] /\ exports fileInfo = [] /\ functions fileInfo = []
  /\ classes fileInfo = [] /\ interfaces fileInfo = [] /\ types fileInfo = []
  /\ dependencies fileInfo = [] /\ size fileInfo = 0%Z /\ language fileInfo = other.

(** The in-band failure report of [buildCompleteContext]. *)
Definition isErrorResponse (r : Response) : Prop :=
  totalFiles (metadata r) = 0%Z /\ totalLines (metadata r) = 0%Z
  /\ totalFunctions (metadata r) = 0%Z /\ totalClasses (metadata r) = 0%Z
  /\ estimatedTokens (metadata r) = 100%Z /\ tokenCount r = 100%Z
  /\ compressionLevel r = "error".

(** The fallback criterion in words: a primary-language file that has
    "index" or "main" in its lower-cased relative path, or a function, or a
    class. *)
Definition isMainCandidate (file : FileInfo) : Prop :=
  (language file = typescript \/ language file = javascript)
  /\ (includes (toLowerCase (relativePath file)) "index" = true
      \/ includes (toLowerCase (relativePath file)) "main" = true
      \/ functions file <> [] \/ classes file <> []).

(** Every code unit of [s] satisfies [p]. *)
Fixpoint stringForall (p : ascii -> bool) (s : string) : bool :=
  match s with
  | EmptyString => true
  | String c rest => p c && stringForall p rest
  end.

(** [a] is ranked at least as high as [b]: both scores are returned and the
    score of [a] is not smaller. *)
Definition outranks (E : RegExpEngine) (keywords : list string) (a b : FileInfo) : Prop :=
  exists sa sb,
    calculateRelevanceScore E a keywords = Ok sa
    /\ calculateRelevanceScore E b keywords = Ok sb
    /\ (sb <= sa)%Z.

(** The score of [f] is returned and equals [s]. *)
Definition hasScore (E : RegExpEngine) (keywords : list string) (s : Z) (f : FileInfo)
  : bool :=
  match calculateRelevanceScore E f keywords with
  | Ok s' => (s' =? s)%Z
  | Throw _ => false
  end.

(** What the [scope] option demands of a ranked file. *)
Definition withinScope (scope : option string) (f : FileInfo) : Prop :=
  (scope = Some "function" -> functions f <> [])
  /\ (scope = Some "class" -> classes f <> []).

(** Number of files written in language [l]. *)
Definition languageShare (l : Language) (files : list FileInfo) : nat :=
  List.length (filter (fun f => Language_eqb (language f) l) files).

(** The paths the file system reported in a run of a watcher. *)
Definition reported (events : list FileWatcher.Event) : list string :=
  flat_map (fun ev => match ev with
                      | FileWatcher.FileEvent filePath => [filePath]
                      | FileWatcher.TimerFired => []
                      end) events.

(** The calls a client can make on a [FileWatcher]. *)
Inductive WatcherCall : Type :=
| CallWatch (projectRoot : string)
| CallStopWatching.

Definition watcherCall (path_join : string -> string -> string)
           (st : FileWatcher.State) (c : WatcherCall) : FileWatcher.State :=
  match c with
  | CallWatch projectRoot => FileWatcher.watch path_join st projectRoot
  | CallStopWatching => FileWatcher.stopWatching st
  end.

(** The roots passed to [watch] since the last [stopWatching], oldest
    first. *)
Definition rootsSinceStop (calls : list WatcherCall) : list string :=
  fold_left (fun roots c => match c with
                            | CallWatch projectRoot => (roots ++ [projectRoot])%list
                            | CallStopWatching => []
                            end) calls [].

(** What [collectDependencies] maintains: the collected relative paths are
    pairwise different and belong to cached files. *)
Definition collectedFrom (cache : Cache) (st : ProjectAnalyzer.Collected) : Prop :=
  NoDup (ProjectAnalyzer.collected st)
  /\ forall d, In d (ProjectAnalyzer.collected st) ->
               In d (map relativePath (cacheValues cache)).

(** The exclusion patterns without and with a wildcard. *)
Definition literalPatterns : list string :=
  filter (fun pattern => negb (includes pattern "*")) FolderTree.excludePatterns.

Definition wildcardPatterns : list string :=
  filter (fun pattern => includes pattern "*") FolderTree.excludePatterns.

(* ================================================================== *)
(** * Sample inputs                                                    *)
(* ================================================================== *)

Module Samples.

Definition sourceFile (relativePath : string) (language : Language) (content : string)
  : FileInfo :=
  {| path := "/project/" ++ relativePath;
     relativePath := relativePath;
     content := content;
     size := Z.of_nat (String.length content);
     lastModified := 0;
     imports := [];
     exports := [];
     functions := [];
     classes := [];
     interfaces := [];
     types := [];
     dependencies := [];
     language := language |}.

Definition withImports (paths : list string) (f : FileInfo) : FileInfo :=
  {| path := path f; relativePath := relativePath f; content := content f;
     size := size f; lastModified := lastModified f;
     imports :=
       map (fun p => {| imp_path := p; imp_imports := []; imp_isDefault := true |}) paths;
     exports := exports f; functions := functions f; classes := classes f;
     interfaces := interfaces f; types := types f;
     dependencies := paths; language := language f |}.

Definition withFunctions (names : list string) (f : FileInfo) : FileInfo :=
  {| path := path f; relativePath := relativePath f; content := content f;
     size := size f; lastModified := lastModified f;
     imports := imports f; exports := exports f;
     functions :=
       map (fun n => {| fn_name := n; fn_startLine := 1; fn_endLine := 1;
                        fn_params := []; fn_isAsync := false; fn_isExported := false |})
           names;
     classes := classes f; interfaces := interfaces f; types := types f;
     dependencies := dependencies f; language := language f |}.


(** A TypeScript file that the fallback criterion does not select. *)
Definition appFile : FileInfo := sourceFile "src/app.ts" typescript "a is on".

(** A TypeScript file with a function. *)
Definition utilFile : FileInfo :=
  withFunctions ["helper"] (sourceFile "src/util.ts" typescript "function helper() {}").

(** Two files that name [index.ts] once each.  The second also holds
    [index_ts], which the pattern [index.ts] matches as well. *)
Definition notesFile : FileInfo :=
  sourceFile "src/notes.ts" typescript "see index.ts".

Definition tableFile : FileInfo :=
  sourceFile "src/table.ts" typescript "index.ts and index_ts".

(** A world with one readable and one unreadable file. *)
Definition world : World :=
  {| fs_stat := fun p =>
       if String.eqb p "/project/src/app.ts"
       then Ok {| stat_size := 7; stat_mtime := 1 |}
       else Throw (SystemError "ENOENT: no such file or directory");
     fs_readFile := fun p =>
       if String.eqb p "/project/src/app.ts" then Ok "a is on"
       else Throw (SystemError "ENOENT: no such file or directory");
     fastGlob := fun _ _ => Ok ["/project/src/app.ts"; "/project/src/gone.ts"];
     path_relative := fun root p =>
       String.substring (String.length root + 1)
                        (String.length p - String.length root - 1) p;
     path_extname := fun p =>
       String.substring (String.length p - 3) 3 p;
     newDate := 2 |}.

(** Extractors that find one import in every non-empty text. *)
Definition extractors : Extractors :=
  {| extractImports := fun content _ =>
       if String.eqb content "" then []
       else [ {| imp_path := "./dep"; imp_imports := ["dep"]; imp_isDefault := true |} ];
     extractExports := fun _ _ => [];
     extractFunctions := fun _ _ => [];
     extractClasses := fun _ _ => [];
     extractInterfaces := fun _ _ => [];
     extractTypes := fun _ _ => [] |}.

(** A platform on which every project root is rejected. *)
Definition rejectingPlatform : Platform :=
  {| validateProjectRoot := fun root =>
       Ok {| valid := false;
             message := Some "not a directory";
             normalizedPath := root |};
     folderTreeScan := fun root => Ok root;
     folderTreeFailure := fun root e => errorMessage e |}.

(** A platform on which validating the project root throws. *)
Definition throwingPlatform : Platform :=
  {| validateProjectRoot := fun root =>
       Throw (SystemError "EACCES: permission denied");
     folderTreeScan := fun root => Throw (SystemError "EACCES: permission denied");
     folderTreeFailure := fun root e => errorMessage e |}.

Definition renderer : Renderer :=
  {| analyzeUsagePatterns := fun _ _ => Ok (Usage [] [] []);
     formatContextForFiles := fun files _ _ q _ =>
       Ok (String.concat LF (map content files));
     generateContextSummary := fun _ _ _ => Ok "summary" |}.

Definition request : Options :=
  {| query := "ranking"; opt_projectRoot := "/project";
     scope := None; completeness := None; maxTokens := None |}.

(** A document with five fenced blocks and all the sections the validator
    looks for, and a query whose keywords occur in it. *)
Definition report : string :=
  "# Title" ++ LF ++ "## Summary" ++ LF ++ "## Dependencies" ++ LF
  ++ "Usage Pattern Insights example import export type" ++ LF
  ++ "## File Contents" ++ LF
  ++ "```a```" ++ "```b```" ++ "```c```" ++ "```d```" ++ "```e```".

Definition reportQuery : string := "Summary Usage".

(** A document on the border of completeness: its five scores are 1, 0.6,
    1, 0.5 and 0.7, whose weighted mean is 0.795 over the rationals and
    just below it in binary64. *)
Definition borderline : string :=
  "# Title" ++ LF ++ "## Summary" ++ LF ++ "## Dependency Graph" ++ LF
  ++ "Usage Insights example doc" ++ LF
  ++ "## File Contents" ++ LF
  ++ "```a```" ++ "```b```" ++ "```c```" ++ "```d```" ++ "```e```".

Definition borderlineQuery : string := "readme usage".

(** A document of headers only: Tier 2 keeps every line of it. *)
Definition headings : string :=
  "# Title" ++ LF ++ "## Complete overview" ++ LF ++ "## Usage Patterns & Insights".

(** A platform on which every project root is accepted as it is. *)
Definition acceptingPlatform : Platform :=
  {| validateProjectRoot := fun root =>
       Ok {| valid := true; message := None; normalizedPath := root |};
     folderTreeScan := fun root => Ok root;
     folderTreeFailure := fun root e => errorMessage e |}.

(** A request whose keyword occurs in the path of [src/app.ts]. *)
Definition appRequest : Options :=
  {| query := "app"; opt_projectRoot := "/project";
     scope := None; completeness := None; maxTokens := Some 1%Z |}.

(** A file that imports one indexed module, without its extension, and one
    package that is not indexed. *)
Definition mainFile : FileInfo :=
  withImports ["src/util"; "lodash"]
    (sourceFile "src/main.ts" typescript "import helper from 'src/util'").

(** A file that imports [helper] by name. *)
Definition clientFile : FileInfo :=
  {| path := "/project/src/client.ts"; relativePath := "src/client.ts";
     content := "import { helper } from './util'";
     size := 31; lastModified := 0;
     imports := [ {| imp_path := "./util"; imp_imports := ["helper"];
                     imp_isDefault := false |} ];
     exports := []; functions := []; classes := []; interfaces := []; types := [];
     dependencies := ["./util"]; language := typescript |}.

(** The cache after indexing the four files. *)
Definition indexed : Cache :=
  [ (path appFile, appFile); (path utilFile, utilFile);
    (path mainFile, mainFile); (path clientFile, clientFile) ].

(** Patterns that recognise one import statement and the declarations of
    [helper]. *)
Definition patterns : Scanners.Patterns :=
  {| Scanners.importMatches := fun text =>
       if includes text "import helper from 'src/util'"
       then [(Some "helper", None, None, "src/util")] else [];
     Scanners.requireMatches := fun _ => [];
     Scanners.pythonImportMatches := fun _ => [];
     Scanners.exportFunctionMatch := fun line =>
       if includes line "function helper" then Some "helper" else None;
     Scanners.exportClassMatch := fun _ => None;
     Scanners.exportInterfaceMatch := fun _ => None;
     Scanners.exportTypeMatch := fun _ => None;
     Scanners.exportConstTest := fun _ => false;
     Scanners.exportConstMatch := fun _ => None;
     Scanners.functionMatch := fun line =>
       if includes line "function helper()" then Some ("helper", "") else None;
     Scanners.arrowMatch := fun _ => None;
     Scanners.classMatch := fun _ => None;
     Scanners.interfaceMatch := fun _ => None;
     Scanners.typeMatch := fun _ => None |}.

(** A source text of three lines. *)
Definition helperSource : string :=
  "import helper from 'src/util'" ++ LF
  ++ "export function helper() {}" ++ LF
  ++ "function helper() {}".

(** A world in which [/project/src/helper.ts] holds that text. *)
Definition helperWorld : World :=
  {| fs_stat := fun p =>
       if String.eqb p "/project/src/helper.ts"
       then Ok {| stat_size := 78; stat_mtime := 1 |}
       else Throw (SystemError "ENOENT: no such file or directory");
     fs_readFile := fun p =>
       if String.eqb p "/project/src/helper.ts" then Ok helperSource
       else Throw (SystemError "ENOENT: no such file or directory");
     fastGlob := fun _ _ => Ok ["/project/src/helper.ts"];
     path_relative := path_relative world;
     path_extname := path_extname world;
     newDate := 2 |}.

End Samples.

(* ================================================================== *)
(** * Properties                                                       *)
(* ================================================================== *)

(** ** Token estimate *)

Lemma estimateTokenCount_div (s : string) :
  estimateTokenCount s = ((Z.of_nat (String.length s) + 3) / 4)%Z.
Proof.
  unfold estimateTokenCount, Qceiling, Qfloor, Qdiv, Qinv, Qmult, Qopp, inject_Z.
  cbn [Qnum Qden].
  set (n := Z.of_nat (String.length s)).
  replace (Z.pos (1 * 4)) with 4%Z by reflexivity.
  rewrite Z.mul_1_r.
  Z.div_mod_to_equations. lia.
Qed.

(** C8. For every string [s], the empty one included, the token estimate is
    the ceiling of [length s / 4]: the least integer [k] with
    [length s <= 4 k]; it is [0] for the empty string. *)
Theorem estimateTokenCount_is_ceiling (s : string) :
  let n := Z.of_nat (String.length s) in
  (n <= 4 * estimateTokenCount s)%Z
  /\ (forall k : Z, (n <= 4 * k)%Z -> (estimateTokenCount s <= k)%Z)
  /\ estimateTokenCount s = Qceiling (Z.of_nat (String.length s) # 4)
  /\ estimateTokenCount "" = 0%Z.
Proof.
  cbv zeta. rewrite estimateTokenCount_div.
  set (n := Z.of_nat (String.length s)).
  repeat split.
  - Z.div_mod_to_equations. lia.
  - intros k Hk. Z.div_mod_to_equations. lia.
  - unfold Qceiling, Qfloor, Qopp. cbn [Qnum Qden].
    Z.div_mod_to_equations. lia.
Qed.

(** ** Dependency graph *)

Lemma importTarget_In (files : list FileInfo) (imp : ImportRecord) (t : FileInfo) :
  importTarget files imp = Some t -> In t files.
Proof.
  unfold importTarget, JS.find. intros H.
  apply find_some in H. tauto.
Qed.

Lemma buildDependencyGraph_node_ids (files : list FileInfo) :
  map node_id (nodes (buildDependencyGraph files)) = map relativePath files.
Proof.
  unfold buildDependencyGraph. cbn [nodes].
  rewrite map_map. reflexivity.
Qed.

(** C10. The graph has one node per input file, in order, with the relative
    path as identifier, and both ends of every edge are identifiers of
    nodes. *)
Theorem buildDependencyGraph_closed (files : list FileInfo) :
  let g := buildDependencyGraph files in
  List.length (nodes g) = List.length files
  /\ map node_id (nodes g) = map relativePath files
  /\ Forall (fun e => In (source e) (map node_id (nodes g))
                      /\ In (target e) (map node_id (nodes g)))
            (edges g).
Proof.
  cbv zeta. split; [| split].
  - unfold buildDependencyGraph. cbn [nodes]. apply length_map.
  - apply buildDependencyGraph_node_ids.
  - rewrite buildDependencyGraph_node_ids.
    unfold buildDependencyGraph. cbn [edges].
    apply Forall_forall. intros e He.
    apply in_flat_map in He. destruct He as [file [Hfile He]].
    apply in_flat_map in He. destruct He as [imp [Himp He]].
    destruct (importTarget files imp) as [t |] eqn:Ht.
    + destruct He as [He | []]. subst e. cbn [source target].
      split; apply in_map; [assumption |].
      eapply importTarget_In; eassumption.
    + destruct He.
Qed.

(** ** Extraction *)

Section Extraction.

Variable W : World.
Variable X : Extractors.

Lemma cacheGet_cacheSet_eq (k : string) (v : FileInfo) (c : Cache) :
  cacheGet k (cacheSet k v c) = Some v.
Proof.
  induction c as [| [k' v'] c IH]; cbn.
  - rewrite String.eqb_refl. reflexivity.
  - destruct (String.eqb k' k) eqn:Hk; cbn.
    + rewrite String.eqb_refl. reflexivity.
    + rewrite Hk. exact IH.
Qed.

Lemma cacheGet_cacheSet_neq (k k' : string) (v : FileInfo) (c : Cache) :
  k <> k' -> cacheGet k (cacheSet k' v c) = cacheGet k c.
Proof.
  intros Hne. induction c as [| [k0 v0] c IH]; cbn.
  - destruct (String.eqb k' k) eqn:Hk; [| reflexivity].
    apply String.eqb_eq in Hk. congruence.
  - destruct (String.eqb k0 k') eqn:Hk0; cbn.
    + apply String.eqb_eq in Hk0. subst k0.
      destruct (String.eqb k' k) eqn:Hk; [| reflexivity].
      apply String.eqb_eq in Hk. congruence.
    + destruct (String.eqb k0 k); [reflexivity | exact IH].
Qed.

(** The record [analyzeFile] computes depends on the state through
    [projectRoot] only; it is stored under the file's path and returned. *)
Lemma analyzeFile_run (filePath : string) (st : State) :
  exists fileInfo,
    analyzeFile W X filePath st
    = (Ok fileInfo,
       {| cache := cacheSet filePath fileInfo (cache st);
          projectRoot := projectRoot st |})
    /\ path fileInfo = filePath
    /\ dependencies fileInfo = map imp_path (imports fileInfo)
    /\ (readFails W filePath ->
        fileInfo
        = minimalFileInfo W filePath (path_relative W (projectRoot st) filePath))
    /\ (forall st', projectRoot st' = projectRoot st ->
        fst (analyzeFile W X filePath st') = Ok fileInfo).
Proof.
  unfold analyzeFile, tryCatchM, bindM, lift, getProjectRoot, cache_set, ret, readFails.
  destruct (fs_stat W filePath) as [stats | e1] eqn:Hstat.
  - destruct (fs_readFile W filePath) as [text | e2] eqn:Hread.
    + eexists. split; [reflexivity |].
      cbn. repeat split.
      * intros [[e He] | [e He]]; discriminate.
      * intros st' Hroot. rewrite Hroot. reflexivity.
    + eexists. split; [reflexivity |].
      cbn. repeat split.
      intros st' Hroot. rewrite Hroot. reflexivity.
  - eexists. split; [reflexivity |].
    cbn. repeat split.
    intros st' Hroot. rewrite Hroot. reflexivity.
Qed.

(** A batch runs to its end: every listed path gets the record that
    [analyzeFile] computes for it. *)
Lemma promiseAll_analyzeFile (files : list string) (st : State) :
  exists infos st',
    promiseAll (analyzeFile W X) files st = (Ok infos, st')
    /\ List.length infos = List.length files
    /\ projectRoot st' = projectRoot st
    /\ (forall p fileInfo, ~ In p files ->
          cacheGet p (cache st) = Some fileInfo -> cacheGet p (cache st') = Some fileInfo)
    /\ (forall p, In p files ->
          exists fileInfo,
            fst (analyzeFile W X p st) = Ok fileInfo
            /\ cacheGet p (cache st') = Some fileInfo).
Proof.
  revert st. induction files as [| f files IH]; intros st.
  - exists [], st. cbn. repeat split; auto. intros p [].
  - destruct (analyzeFile_run f st) as [fi [Hrun [Hpath [Hdeps [Hfail Hroot]]]]].
    set (st1 := {| cache := cacheSet f fi (cache st); projectRoot := projectRoot st |}) in *.
    destruct (IH st1) as [infos [st' [Hrest [Hlen [Hroot' [Hkeep Hall]]]]]].
    exists (fi :: infos), st'.
    split; [| split; [| split; [| split]]].
    + cbn [promiseAll]. unfold bindM at 1. rewrite Hrun.
      unfold bindM at 1. rewrite Hrest. reflexivity.
    + cbn. congruence.
    + rewrite Hroot'. reflexivity.
    + intros p v Hnot Hget. apply Hkeep.
      * intros Hin. apply Hnot. right. exact Hin.
      * subst st1. cbn [cache]. rewrite cacheGet_cacheSet_neq; [exact Hget |].
        intros Heq. apply Hnot. left. symmetry. exact Heq.
    + intros p Hin.
      destruct (in_dec string_dec p files) as [Hlater | Hnot].
      * destruct (Hall p Hlater) as [v [Hv Hget]].
        exists v. split; [| exact Hget].
        destruct (analyzeFile_run p st) as [v' [_ [_ [_ [_ Hsame]]]]].
        rewrite (Hsame st1 eq_refl) in Hv.
        rewrite (Hsame st eq_refl). exact Hv.
      * destruct Hin as [Heq | Hin]; [| contradiction]. subst p.
        exists fi. split.
        -- rewrite Hrun. reflexivity.
        -- apply Hkeep; [exact Hnot |].
           subst st1. cbn [cache]. apply cacheGet_cacheSet_eq.
Qed.

(** C7. Whatever branch [analyzeFile] takes, the record it returns and
    stores has as [dependencies] the [path] fields of its [imports], element
    for element and in order. *)
Theorem analyzeFile_dependencies (filePath : string) (st : State) :
  exists fileInfo st',
    analyzeFile W X filePath st = (Ok fileInfo, st')
    /\ cacheGet filePath (cache st') = Some fileInfo
    /\ dependencies fileInfo = map imp_path (imports fileInfo).
Proof.
  destruct (analyzeFile_run filePath st) as [fi [Hrun [_ [Hdeps _]]]].
  eexists fi, _. split; [exact Hrun |]. split; [| exact Hdeps].
  cbn [cache]. apply cacheGet_cacheSet_eq.
Qed.

Lemma minimalFileInfo_empty (filePath relativePath : string) :
  isEmptyRecord (minimalFileInfo W filePath relativePath).
Proof. unfold isEmptyRecord. cbn. tauto. Qed.

(** C6. [analyzeFile] returns and stores a record for every path; when the
    read or the stat of the path throws, that record has empty fact lists,
    size 0 and language [other].  A batch over any list of paths completes
    with one record per path, each path being stored with its record,
    whichever of them fail. *)
Theorem analyzeFile_never_aborts (files : list string) (st : State) :
  (forall filePath, readFails W filePath ->
     exists fileInfo st',
       analyzeFile W X filePath st = (Ok fileInfo, st')
       /\ cacheGet filePath (cache st') = Some fileInfo
       /\ path fileInfo = filePath
       /\ isEmptyRecord fileInfo)
  /\ exists infos st',
       promiseAll (analyzeFile W X) files st = (Ok infos, st')
       /\ List.length infos = List.length files
       /\ forall p, In p files ->
            exists fileInfo,
              cacheGet p (cache st') = Some fileInfo
              /\ path fileInfo = p
              /\ (readFails W p -> isEmptyRecord fileInfo).
Proof.
  split.
  - intros filePath Hfail.
    destruct (analyzeFile_run filePath st) as [fi [Hrun [Hpath [_ [Hmin _]]]]].
    eexists fi, _. split; [exact Hrun |].
    split; [cbn [cache]; apply cacheGet_cacheSet_eq |].
    split; [exact Hpath |].
    rewrite (Hmin Hfail). apply minimalFileInfo_empty.
  - destruct (promiseAll_analyzeFile files st)
      as [infos [st' [Hrun [Hlen [_ [_ Hall]]]]]].
    exists infos, st'. split; [exact Hrun |]. split; [exact Hlen |].
    intros p Hin. destruct (Hall p Hin) as [fi [Hfi Hget]].
    exists fi. split; [exact Hget |].
    destruct (analyzeFile_run p st) as [fi' [Hrun' [Hpath [_ [Hmin _]]]]].
    rewrite Hrun' in Hfi. cbn in Hfi. injection Hfi as Hfi. subst fi'.
    split; [exact Hpath |].
    intros Hfail. rewrite (Hmin Hfail). apply minimalFileInfo_empty.
Qed.

End Extraction.

(** ** Lists *)

Lemma Subsequence_refl {A : Type} (xs : list A) : Subsequence xs xs.
Proof. induction xs; constructor; assumption. Qed.

Lemma Subsequence_nil_l {A : Type} (ys : list A) : Subsequence [] ys.
Proof. induction ys; constructor; assumption. Qed.

Lemma Subsequence_trans {A : Type} (xs ys zs : list A) :
  Subsequence xs ys -> Subsequence ys zs -> Subsequence xs zs.
Proof.
  intros Hxy Hyz. revert xs Hxy.
  induction Hyz as [| z ys zs Hyz IH | z ys zs Hyz IH]; intros xs Hxy.
  - exact Hxy.
  - constructor. apply IH. exact Hxy.
  - inversion Hxy; subst.
    + constructor. apply IH. assumption.
    + apply Subsequence_keep. apply IH. assumption.
Qed.

Lemma Subsequence_filter {A : Type} (p : A -> bool) (xs : list A) :
  Subsequence (filter p xs) xs.
Proof.
  induction xs as [| x xs IH]; cbn.
  - constructor.
  - destruct (p x); constructor; exact IH.
Qed.

Lemma Subsequence_firstn {A : Type} (n : nat) (xs : list A) :
  Subsequence (firstn n xs) xs.
Proof.
  revert n. induction xs as [| x xs IH]; intros [| n]; cbn.
  - constructor.
  - constructor.
  - apply Subsequence_nil_l.
  - apply Subsequence_keep. apply IH.
Qed.

Lemma Forall_firstn {A : Type} (P : A -> Prop) (n : nat) (xs : list A) :
  Forall P xs -> Forall P (firstn n xs).
Proof.
  intros H. revert n. induction H as [| x xs Hx Hxs IH]; intros [| n]; cbn; auto.
Qed.

Lemma Forall_filter {A : Type} (p : A -> bool) (xs : list A) :
  Forall (fun x => p x = true) (filter p xs).
Proof.
  apply Forall_forall. intros x Hx. apply filter_In in Hx. tauto.
Qed.

Lemma filter_none {A : Type} (p : A -> bool) (xs : list A) :
  (forall x, In x xs -> p x = false) -> filter p xs = [].
Proof.
  induction xs as [| x xs IH]; intros H; cbn.
  - reflexivity.
  - rewrite (H x (or_introl eq_refl)). apply IH.
    intros y Hy. apply H. right. exact Hy.
Qed.

(** ** Relevance ranking *)

Section Ranking.

Variable E : RegExpEngine.

Lemma length_insertByScore (x : Z * FileInfo) (l : list (Z * FileInfo)) :
  List.length (insertByScore x l) = S (List.length l).
Proof.
  induction l as [| y l IH]; cbn.
  - reflexivity.
  - destruct (fst y <=? fst x)%Z; cbn; [reflexivity | rewrite IH; reflexivity].
Qed.

Lemma length_sortByScore (l : list (Z * FileInfo)) :
  List.length (sortByScore l) = List.length l.
Proof.
  induction l as [| x l IH]; cbn.
  - reflexivity.
  - rewrite length_insertByScore, IH. reflexivity.
Qed.


Lemma mapM_length {A B : Type} (f : A -> Result B) (xs : list A) (ys : list B) :
  mapM f xs = Ok ys -> List.length ys = List.length xs.
Proof.
  revert ys. induction xs as [| x xs IH]; cbn; intros ys H.
  - injection H as <-. reflexivity.
  - destruct (f x) as [y | e]; cbn in H; [| discriminate].
    destruct (mapM f xs) as [ys' | e]; cbn in H; [| discriminate].
    injection H as <-. cbn. rewrite (IH ys' eq_refl). reflexivity.
Qed.

Lemma mapM_total {A B : Type} (f : A -> Result B) (xs : list A) :
  (forall x, In x xs -> exists y, f x = Ok y) -> exists ys, mapM f xs = Ok ys.
Proof.
  induction xs as [| x xs IH]; cbn; intros H.
  - eexists. reflexivity.
  - destruct (H x (or_introl eq_refl)) as [y Hy]. rewrite Hy. cbn.
    destruct IH as [ys Hys]; [intros z Hz; apply H; right; exact Hz |].
    rewrite Hys. cbn. eexists. reflexivity.
Qed.

(** A score is returned as soon as every keyword compiles. *)
Lemma forEachM_scoreKeyword_total (file : FileInfo) (keywords : list string) (acc : Z) :
  (forall k, In k keywords -> exists re, newRegExp E k = Ok re) ->
  exists s, forEachM (scoreKeyword E file) keywords acc = Ok s.
Proof.
  revert acc. induction keywords as [| k ks IH]; intros acc H; cbn.
  - eexists. reflexivity.
  - destruct (H k (or_introl eq_refl)) as [re Hre].
    unfold scoreKeyword at 1. rewrite Hre. cbn [bind].
    apply IH. intros k' Hk'. apply H. right. exact Hk'.
Qed.

Lemma sortByRelevance_length (files : list FileInfo) (keywords : list string)
      (sorted : list FileInfo) :
  sortByRelevance E files keywords = Ok sorted ->
  List.length sorted = List.length files.
Proof.
  unfold sortByRelevance.
  destruct (List.length files <? 2)%nat.
  - intros H. injection H as <-. reflexivity.
  - destruct (mapM _ files) as [scored |] eqn:Hs; cbn; [| discriminate].
    intros H. injection H as <-.
    rewrite length_map, length_sortByScore.
    eapply mapM_length. exact Hs.
Qed.

Lemma sortByRelevance_total (files : list FileInfo) (keywords : list string) :
  (forall k, In k keywords -> exists re, newRegExp E k = Ok re) ->
  exists sorted, sortByRelevance E files keywords = Ok sorted.
Proof.
  intros H. unfold sortByRelevance.
  destruct (List.length files <? 2)%nat; [eexists; reflexivity |].
  destruct (mapM_total
              (fun f => s <- calculateRelevanceScore E f keywords ;; Ok (s, f)) files)
    as [scored Hs].
  - intros f _. unfold calculateRelevanceScore.
    destruct (forEachM_scoreKeyword_total f keywords 0 H) as [s Hs].
    rewrite Hs. cbn. eexists. reflexivity.
  - rewrite Hs. cbn. eexists. reflexivity.
Qed.


Lemma isMainFile_candidate (file : FileInfo) :
  isMainFile file = true -> isMainCandidate file.
Proof.
  unfold isMainFile, isMainCandidate, isPrimaryLanguage.
  intros H. apply andb_true_iff in H. destruct H as [Hlang Hrest].
  split.
  - destruct (language file); try discriminate; auto.
  - repeat (apply orb_true_iff in Hrest; destruct Hrest as [Hrest | Hrest]); auto.
    + right; right; left. destruct (functions file); [discriminate | congruence].
    + right; right; right. destruct (classes file); [discriminate | congruence].
Qed.

Lemma isMainCandidate_file (file : FileInfo) :
  isMainCandidate file -> isMainFile file = true.
Proof.
  unfold isMainFile, isMainCandidate, isPrimaryLanguage.
  intros [Hlang Hrest]. apply andb_true_iff. split.
  - destruct Hlang as [-> | ->]; reflexivity.
  - destruct Hrest as [H | [H | [H | H]]].
    + rewrite H. reflexivity.
    + rewrite H, orb_true_r. reflexivity.
    + destruct (functions file); [contradiction |]. cbn. rewrite orb_true_r. reflexivity.
    + destruct (classes file); [contradiction |]. cbn. rewrite !orb_true_r. reflexivity.
Qed.

Lemma fallbackFiles_spec (allFiles : list FileInfo) :
  Subsequence (fallbackFiles allFiles) allFiles
  /\ Forall isMainCandidate (fallbackFiles allFiles)
  /\ List.length (fallbackFiles allFiles) <= 10.
Proof.
  unfold fallbackFiles, slice0. repeat split.
  - eapply Subsequence_trans; [apply Subsequence_firstn | apply Subsequence_filter].
  - apply Forall_firstn.
    eapply Forall_impl; [| apply Forall_filter].
    intros f. apply isMainFile_candidate.
  - apply firstn_le_length.
Qed.

Lemma length_applyScope (scope : option string) (files : list FileInfo) :
  List.length (applyScope scope files) <= List.length files.
Proof.
  unfold applyScope. destruct scope as [s |]; [| lia].
  destruct (String.eqb s "function"); [apply filter_length_le |].
  destruct (String.eqb s "class"); [apply filter_length_le | lia].
Qed.



End Ranking.

(** Sample runs of the ranking properties. *)



(** ** Relevance score *)

Section Score.

Variable E : RegExpEngine.

Lemma scoreKeyword_terms (file : FileInfo) (score : Z) (keyword : string) :
  scoreKeyword E file score keyword
  = (re <- newRegExp E keyword ;;
     Ok (score + keywordTerms (matchCount E (toLowerCase (content file)) re)
                              file keyword)%Z).
Proof.
  unfold scoreKeyword, keywordTerms.
  destruct (newRegExp E keyword) as [re | e]; cbn [bind]; [| reflexivity].
  f_equal.
  destruct (includes (toLowerCase (relativePath file)) keyword);
    destruct (some _ (functions file));
    destruct (some _ (classes file));
    destruct (some _ (imports file)); lia.
Qed.

(** Where the pattern made from each keyword matches exactly the literal
    occurrences of the keyword, the score is the sum the specification
    gives. *)
Lemma calculateRelevanceScore_literal (file : FileInfo) (keywords : list string) :
  (forall k, In k keywords ->
     exists re, newRegExp E k = Ok re
                /\ matchCount E (toLowerCase (content file)) re
                   = literalOccurrences (toLowerCase (content file)) k) ->
  calculateRelevanceScore E file keywords = Ok (specRelevanceScore file keywords).
Proof.
  unfold calculateRelevanceScore, specRelevanceScore.
  assert (Hgen : forall acc,
             (forall k, In k keywords ->
                exists re, newRegExp E k = Ok re
                           /\ matchCount E (toLowerCase (content file)) re
                              = literalOccurrences (toLowerCase (content file)) k) ->
             forEachM (scoreKeyword E file) keywords acc
             = Ok (acc + fold_right Z.add 0 (map (specKeywordScore file) keywords))%Z).
  { induction keywords as [| k ks IH]; intros acc H; cbn [forEachM map fold_right].
    - f_equal. lia.
    - destruct (H k (or_introl eq_refl)) as [re [Hre Hcount]].
      rewrite scoreKeyword_terms, Hre. cbn [bind].
      rewrite IH by (intros k' Hk'; apply H; right; exact Hk').
      unfold specKeywordScore. rewrite Hcount. f_equal. lia. }
  intros H. rewrite (Hgen 0%Z H). f_equal.
Qed.

End Score.

(** C3 at the failing input.  The query ["index.ts"] yields the keyword
    [index.ts], which occurs once in the content of each of the two files:
    both are relevant, and the sum of the specification is 1 for both, which
    would leave them in their order.  The ranker scores both; for the second
    the pattern [index.ts] also matches [index_ts], so the code returns 2,
    and the ranking puts it first. *)
Theorem calculateRelevanceScore_pattern_not_literal :
  let files := [Samples.notesFile; Samples.tableFile] in
  keywordsOf "index.ts" = ["index.ts"]
  /\ filter (isRelevant ["index.ts"]) files = files
  /\ literalOccurrences (toLowerCase (content Samples.tableFile)) "index.ts" = 1
  /\ specRelevanceScore Samples.notesFile ["index.ts"] = 1%Z
  /\ specRelevanceScore Samples.tableFile ["index.ts"] = 1%Z
  /\ calculateRelevanceScore DotRegExp.engine Samples.notesFile ["index.ts"] = Ok 1%Z
  /\ calculateRelevanceScore DotRegExp.engine Samples.tableFile ["index.ts"] = Ok 2%Z
  /\ findRelevantFiles DotRegExp.engine files "index.ts" None
     = Ok [Samples.tableFile; Samples.notesFile].
Proof. cbv zeta. repeat split. Qed.

(** On keywords without pattern syntax the concrete engine counts the
    literal occurrences. *)
Lemma DotRegExp_parse_literal (k : string) :
  forallb (fun c => negb (DotRegExp.isSyntaxCharacter c)) (list_ascii_of_string k) = true ->
  exists atoms,
    DotRegExp.parse k = Some atoms
    /\ List.length atoms = String.length k
    /\ forall s, DotRegExp.matchesAt atoms s = String.prefix k s.
Proof.
  induction k as [| c k IH]; cbn [list_ascii_of_string forallb]; intros H.
  - exists []. repeat split. intros [| c s]; reflexivity.
  - apply andb_true_iff in H. destruct H as [Hc Hk].
    destruct (IH Hk) as [atoms [Hparse [Hlen Hmatch]]].
    assert (Hdot : Ascii.eqb c "."%char = false).
    { destruct (Ascii.eqb c "."%char) eqn:Heq; [| reflexivity].
      apply Ascii.eqb_eq in Heq. subst c. discriminate. }
    exists (DotRegExp.Lit c :: atoms).
    cbn [DotRegExp.parse]. rewrite Hparse, Hdot.
    apply negb_true_iff in Hc. rewrite Hc.
    split; [reflexivity |]. split; [cbn; congruence |].
    intros [| c' s]; cbn [DotRegExp.matchesAt String.prefix DotRegExp.atomMatches].
    + reflexivity.
    + rewrite Hmatch.
      destruct (Ascii.eqb c c') eqn:Hcc.
      * apply Ascii.eqb_eq in Hcc. subst c'.
        destruct (ascii_dec c c); [reflexivity | contradiction].
      * apply Ascii.eqb_neq in Hcc.
        destruct (ascii_dec c c'); [contradiction | reflexivity].
Qed.

Lemma DotRegExp_counts_literals (k s : string) :
  k <> "" ->
  forallb (fun c => negb (DotRegExp.isSyntaxCharacter c)) (list_ascii_of_string k) = true ->
  exists re,
    newRegExp DotRegExp.engine k = Ok re
    /\ matchCount DotRegExp.engine s re = literalOccurrences s k.
Proof.
  intros Hne Hlit.
  destruct (DotRegExp_parse_literal k Hlit) as [atoms [Hparse [Hlen Hmatch]]].
  exists atoms. cbn [newRegExp matchCount DotRegExp.engine].
  rewrite Hparse. split; [reflexivity |].
  unfold literalOccurrences.
  assert (Hatoms : atoms <> []).
  { intros ->. destruct k; [contradiction | discriminate]. }
  generalize 0 as skip.
  induction s as [| c s IH]; intros skip; cbn [DotRegExp.countFrom literalOccurrencesFrom].
  - destruct atoms; [contradiction | reflexivity].
  - destruct skip as [| skip]; [| apply IH].
    rewrite Hmatch, Hlen.
    destruct (String.prefix k (String c s)); rewrite IH; reflexivity.
Qed.

(** ** Request pipeline *)

Lemma errorResponse_isErrorResponse (options : Options) (detail closing tree : string) :
  isErrorResponse (errorResponse options detail closing tree).
Proof. unfold isErrorResponse. cbn. tauto. Qed.

Section PipelineProperties.

Variable W : World.
Variable X : Extractors.
Variable E : RegExpEngine.
Variable P : Platform.
Variable R : Renderer.

(** A rejected project root ends the [try] block with an error response. *)
Lemma buildCompleteContextBody_rejected (options : Options) (st : State) (v : Validation) :
  validateProjectRoot P (opt_projectRoot options) = Ok v ->
  valid v = false ->
  exists detail closing tree,
    buildCompleteContextBody W X E P R options st
    = (Ok (errorResponse options detail closing tree), st).
Proof.
  intros Hv Hvalid.
  unfold buildCompleteContextBody, bindM at 1, lift at 1.
  rewrite Hv, Hvalid. cbn [negb].
  do 3 eexists. reflexivity.
Qed.

(** C2, as the code has it.  [buildCompleteContext] returns a response for
    every request and every state.  When its [try] block throws, and when
    the project root is rejected, the response has [totalFiles],
    [totalLines], [totalFunctions] and [totalClasses] equal to 0,
    [estimatedTokens] and [tokenCount] equal to 100, and [compressionLevel]
    equal to ["error"]. *)
Theorem buildCompleteContext_never_raises (options : Options) (st : State) :
  exists response st',
    buildCompleteContext W X E P R options st = (Ok response, st')
    /\ ((exists e st1,
           buildCompleteContextBody W X E P R options st = (Throw e, st1)) ->
        isErrorResponse response)
    /\ (forall v,
          validateProjectRoot P (opt_projectRoot options) = Ok v ->
          valid v = false ->
          isErrorResponse response).
Proof.
  unfold buildCompleteContext, tryCatchM.
  destruct (buildCompleteContextBody W X E P R options st) as [[r | e] st1] eqn:Hbody.
  - exists r, st1. split; [reflexivity |]. split.
    + intros [e [st2 H]]. discriminate.
    + intros v Hv Hvalid.
      destruct (buildCompleteContextBody_rejected options st Hv Hvalid)
        as [detail [closing [tree Hrej]]].
      rewrite Hrej in Hbody. injection Hbody as <- _.
      apply errorResponse_isErrorResponse.
  - unfold buildCompleteContextCatch, ret.
    eexists _, st1. split; [reflexivity |].
    split; intros; apply errorResponse_isErrorResponse.
Qed.

End PipelineProperties.

Lemma buildCompleteContext_never_raises_witness :
  (exists e st1,
     buildCompleteContextBody Samples.world Samples.extractors DotRegExp.engine
       Samples.throwingPlatform Samples.renderer Samples.request initialState
     = (Throw e, st1))
  /\ exists response st',
       buildCompleteContext Samples.world Samples.extractors DotRegExp.engine
         Samples.throwingPlatform Samples.renderer Samples.request initialState
       = (Ok response, st')
       /\ isErrorResponse response.
Proof.
  assert (Hthrow : exists e st1,
             buildCompleteContextBody Samples.world Samples.extractors DotRegExp.engine
               Samples.throwingPlatform Samples.renderer Samples.request initialState
             = (Throw e, st1)).
  { do 2 eexists. reflexivity. }
  split; [exact Hthrow |].
  destruct (buildCompleteContext_never_raises Samples.world Samples.extractors
              DotRegExp.engine Samples.throwingPlatform Samples.renderer
              Samples.request initialState) as [response [st' [Hrun [Herr _]]]].
  exists response, st'. split; [exact Hrun | exact (Herr Hthrow)].
Defined.

(** C2, as stated, fails: on a rejected project root the response reports
    the failure with [compressionLevel = "error"], and its
    [metadata.estimatedTokens] is 100, not 0. *)
Lemma error_metadata_counterexample :
  exists response st',
    buildCompleteContext Samples.world Samples.extractors DotRegExp.engine
      Samples.rejectingPlatform Samples.renderer Samples.request initialState
    = (Ok response, st')
    /\ compressionLevel response = "error"
    /\ estimatedTokens (metadata response) = 100%Z
    /\ estimatedTokens (metadata response) <> 0%Z.
Proof.
  do 2 eexists. split; [reflexivity |].
  cbn. repeat split. discriminate.
Qed.

(** ** Compression *)

Lemma length_append (s t : string) :
  String.length (s ++ t) = String.length s + String.length t.
Proof. induction s as [| c s IH]; cbn; [reflexivity | rewrite IH; reflexivity]. Qed.

Lemma join_cons (x : string) (xs : list string) (sep : string) :
  xs <> [] -> join (x :: xs) sep = x ++ sep ++ join xs sep.
Proof. destruct xs; [contradiction | reflexivity]. Qed.

Lemma split_LF_cons (c : ascii) (rest : string) :
  split (String c rest) LF
  = if Ascii.eqb (ascii_of_nat 10) c
    then "" :: split rest LF
    else consField c (split rest LF).
Proof.
  unfold split, LF. cbn [splitFrom String.prefix String.length Nat.sub].
  destruct (ascii_dec (ascii_of_nat 10) c) as [Heq | Hne].
  - rewrite (proj2 (Ascii.eqb_eq _ _) Heq). destruct rest; reflexivity.
  - rewrite (proj2 (Ascii.eqb_neq _ _) Hne). reflexivity.
Qed.

Lemma split_LF_nonempty (s : string) : split s LF <> [].
Proof.
  destruct s as [| c rest]; [discriminate |].
  rewrite split_LF_cons.
  destruct (Ascii.eqb _ c); [discriminate |].
  destruct (split rest LF); discriminate.
Qed.

(** Splitting into lines and joining them again gives the text back. *)
Lemma join_split_LF (s : string) : join (split s LF) LF = s.
Proof.
  induction s as [| c rest IH]; [reflexivity |].
  rewrite split_LF_cons.
  destruct (Ascii.eqb (ascii_of_nat 10) c) eqn:Hc.
  - apply Ascii.eqb_eq in Hc. subst c.
    rewrite join_cons by apply split_LF_nonempty.
    rewrite IH. reflexivity.
  - pose proof (split_LF_nonempty rest) as Hne.
    destruct (split rest LF) as [| f fs]; [contradiction |].
    cbn [consField]. rewrite <- IH.
    destruct fs; reflexivity.
Qed.

(** Dropping lines never lengthens the joined text. *)
Lemma join_Subsequence_length (sep : string) (xs ys : list string) :
  Subsequence xs ys ->
  String.length (join xs sep) <= String.length (join ys sep).
Proof.
  induction 1 as [| y xs ys H IH | y xs ys H IH].
  - apply Nat.le_refl.
  - destruct ys as [| y' ys].
    + inversion H; subst. cbn. lia.
    + rewrite (@join_cons y (y' :: ys) sep) by discriminate.
      rewrite !length_append. lia.
  - destruct xs as [| x' xs].
    + destruct ys as [| y' ys]; [apply Nat.le_refl |].
      rewrite (@join_cons y (y' :: ys) sep) by discriminate.
      cbn [join String.concat]. rewrite length_append. lia.
    + destruct ys as [| y' ys]; [inversion H |].
      rewrite (@join_cons y (x' :: xs) sep) by discriminate.
      rewrite (@join_cons y (y' :: ys) sep) by discriminate.
      rewrite !length_append. lia.
Qed.

Lemma Subsequence_snoc_keep {A : Type} (x : A) (xs ys : list A) :
  Subsequence xs ys -> Subsequence (xs ++ [x])%list (ys ++ [x])%list.
Proof.
  induction 1; cbn.
  - apply Subsequence_keep. constructor.
  - apply Subsequence_skip. assumption.
  - apply Subsequence_keep. assumption.
Qed.

Lemma Subsequence_snoc_skip {A : Type} (x : A) (xs ys : list A) :
  Subsequence xs ys -> Subsequence xs (ys ++ [x])%list.
Proof.
  induction 1; cbn.
  - apply Subsequence_skip. constructor.
  - apply Subsequence_skip. assumption.
  - apply Subsequence_keep. assumption.
Qed.

(** One step of the Tier 2 loop keeps the current line or drops it. *)
Lemma scanLine_Subsequence (st : ScanState) (line : string) (seen : list string) :
  Subsequence (importantLines st) seen ->
  Subsequence (importantLines (scanLine st line)) (seen ++ [line])%list.
Proof.
  intros H. unfold scanLine, pushLine.
  destruct (startsWith line "```").
  - destruct (inCodeBlock st); cbn [importantLines];
      apply Subsequence_snoc_keep; exact H.
  - destruct (inCodeBlock st).
    + destruct (keptInsideFence line); cbn [importantLines];
        [apply Subsequence_snoc_keep | apply Subsequence_snoc_skip]; exact H.
    + destruct (keptOutsideFence line); cbn [importantLines];
        [apply Subsequence_snoc_keep | apply Subsequence_snoc_skip]; exact H.
Qed.

Lemma fold_scanLine_Subsequence (lines seen : list string) (st : ScanState) :
  Subsequence (importantLines st) seen ->
  Subsequence (importantLines (fold_left scanLine lines st)) (seen ++ lines)%list.
Proof.
  revert seen st. induction lines as [| line lines IH]; intros seen st H; cbn [fold_left].
  - rewrite app_nil_r. exact H.
  - replace (seen ++ line :: lines)%list with ((seen ++ [line]) ++ lines)%list
      by (rewrite <- app_assoc; reflexivity).
    apply IH. apply scanLine_Subsequence. exact H.
Qed.

(** Tier 2 returns a selection of the lines of its input. *)
Lemma aggressiveCompression_length (context : string) (maxTokens : Z) :
  String.length (aggressiveCompression context maxTokens) <= String.length context.
Proof.
  unfold aggressiveCompression.
  rewrite <- (join_split_LF context) at 2.
  apply join_Subsequence_length.
  apply (@fold_scanLine_Subsequence (split context LF) [] _).
  cbn [importantLines]. constructor.
Qed.

Lemma estimateTokenCount_mono (s t : string) :
  String.length s <= String.length t ->
  (estimateTokenCount s <= estimateTokenCount t)%Z.
Proof.
  intros H. rewrite !estimateTokenCount_div.
  apply Z.div_le_mono; lia.
Qed.

(** C5. The estimate of the Tier 2 output never exceeds the estimate of its
    input, in particular of the Tier 1 output.  [intelligentCompression]
    runs Tier 2 exactly when the estimate of the Tier 1 output exceeds
    [maxTokens], and returns what Tier 2 produced as it is. *)
Theorem aggressiveCompression_never_grows (context : string) (maxTokens : Z) :
  let tier1 := moderateCompression context in
  (estimateTokenCount (aggressiveCompression tier1 maxTokens)
   <= estimateTokenCount tier1)%Z
  /\ ((maxTokens < estimateTokenCount tier1)%Z ->
      intelligentCompression context maxTokens = aggressiveCompression tier1 maxTokens)
  /\ ((estimateTokenCount tier1 <= maxTokens)%Z ->
      intelligentCompression context maxTokens = tier1).
Proof.
  cbv zeta. split; [| split].
  - apply estimateTokenCount_mono. apply aggressiveCompression_length.
  - intros H. unfold intelligentCompression.
    rewrite (proj2 (Z.ltb_lt _ _) H). reflexivity.
  - intros H. unfold intelligentCompression.
    rewrite (proj2 (Z.ltb_ge _ _) H). reflexivity.
Qed.

(** A document of headers: Tier 1 leaves an estimate of 15 tokens, Tier 2
    runs for a budget of 5 and returns a text that is still estimated at 15
    tokens. *)
Lemma aggressiveCompression_never_grows_witness :
  (5 < estimateTokenCount (moderateCompression Samples.headings))%Z
  /\ intelligentCompression Samples.headings 5
     = aggressiveCompression (moderateCompression Samples.headings) 5
  /\ estimateTokenCount (intelligentCompression Samples.headings 5) = 15%Z.
Proof.
  assert (H : (5 < estimateTokenCount (moderateCompression Samples.headings))%Z)
    by (vm_compute; reflexivity).
  split; [exact H |].
  split; [| vm_compute; reflexivity].
  exact (proj1 (proj2 (aggressiveCompression_never_grows Samples.headings 5)) H).
Defined.

(** ** Completeness validation *)

Lemma uniqueFrom_spec (seen xs : list string) :
  NoDup (uniqueFrom seen xs)
  /\ forall x, In x (uniqueFrom seen xs) -> In x xs /\ ~ In x seen.
Proof.
  revert seen. induction xs as [| x xs IH]; intros seen; cbn [uniqueFrom].
  - split; [constructor | intros x []].
  - destruct (existsb (String.eqb x) seen) eqn:Hseen.
    + destruct (IH seen) as [Hnd Hin]. split; [exact Hnd |].
      intros y Hy. destruct (Hin y Hy). split; [right |]; assumption.
    + destruct (IH (x :: seen)) as [Hnd Hin]. split.
      * constructor; [| exact Hnd].
        intros Hx. destruct (Hin x Hx) as [_ Hnot]. apply Hnot. left. reflexivity.
      * intros y [<- | Hy].
        -- split; [left; reflexivity |].
           intros Hx. apply not_true_iff_false in Hseen. apply Hseen.
           apply existsb_exists. exists x. split; [exact Hx | apply String.eqb_refl].
        -- destruct (Hin y Hy) as [Hyxs Hnot]. split; [right; exact Hyxs |].
           intros Hys. apply Hnot. right. exact Hys.
Qed.

Lemma unique_NoDup (xs : list string) : NoDup (unique xs).
Proof. apply uniqueFrom_spec. Qed.

Lemma uniqueFrom_id (seen xs : list string) :
  NoDup xs -> (forall x, In x xs -> ~ In x seen) -> uniqueFrom seen xs = xs.
Proof.
  intros Hnd. revert seen. induction Hnd as [| x xs Hx Hnd IH]; intros seen Hseen.
  - reflexivity.
  - cbn [uniqueFrom].
    destruct (existsb (String.eqb x) seen) eqn:He.
    + apply existsb_exists in He. destruct He as [y [Hy Heq]].
      apply String.eqb_eq in Heq. subst y.
      exfalso. apply (Hseen x); [left; reflexivity | exact Hy].
    + f_equal. apply IH. intros y Hy [<- | Hys].
      * contradiction.
      * apply (Hseen y); [right; exact Hy | exact Hys].
Qed.

(** A list without repetitions is its own de-duplication. *)
Lemma unique_id (xs : list string) : NoDup xs -> unique xs = xs.
Proof. intros H. apply uniqueFrom_id; [exact H | intros x _ []]. Qed.

Lemma Subsequence_In {A : Type} (xs ys : list A) (x : A) :
  Subsequence xs ys -> In x xs -> In x ys.
Proof.
  induction 1; cbn; intros Hin; auto.
  destruct Hin; auto.
Qed.

Lemma Subsequence_NoDup {A : Type} (xs ys : list A) :
  Subsequence xs ys -> NoDup ys -> NoDup xs.
Proof.
  induction 1 as [| y xs ys H IH | y xs ys H IH]; intros Hnd.
  - constructor.
  - inversion Hnd; subst. apply IH. assumption.
  - inversion Hnd; subst. constructor; [| apply IH; assumption].
    intros Hin. eapply Subsequence_In in Hin; [| exact H]. contradiction.
Qed.

Lemma Subsequence_app {A : Type} (xs xs' ys ys' : list A) :
  Subsequence xs ys -> Subsequence xs' ys' ->
  Subsequence (xs ++ xs')%list (ys ++ ys')%list.
Proof.
  induction 1; cbn; intros H'.
  - exact H'.
  - apply Subsequence_skip. auto.
  - apply Subsequence_keep. auto.
Qed.

Section Validation.

Variable A : Arithmetic.
Hypothesis L : ArithmeticLaws A.

Local Notation "x <== y" := (leb A x y = true) (at level 70, no associativity).
Local Notation "'zero'" := (lit A 0).
Local Notation "'one'" := (lit A 1).

Lemma lit_nonneg (q : Q) : (0 <= q)%Q -> zero <== lit A q.
Proof. apply (lit_mono L). Qed.

Lemma ofNat_nonneg (n : nat) : zero <== ofNat A n.
Proof.
  apply lit_nonneg. unfold Qle, inject_Z. cbn [Qnum Qden]. lia.
Qed.

Lemma ofNat_positive (n : nat) : 1 <= n -> leb A (ofNat A n) zero = false.
Proof.
  intros H. apply (lit_positive L). unfold Qle, inject_Z. cbn [Qnum Qden]. lia.
Qed.

Lemma zero_le_one : zero <== one.
Proof. apply lit_nonneg. apply Qle_bool_imp_le. reflexivity. Qed.

Lemma min1_nonneg (x : num A) : zero <== x -> zero <== min1 A x.
Proof.
  intros H. unfold min1. destruct (leb A x one); [exact H | apply zero_le_one].
Qed.

Lemma min1_le_1 (x : num A) : min1 A x <== one.
Proof.
  unfold min1. destruct (leb A x one) eqn:H; [exact H | apply (leb_refl L)].
Qed.

(** [Math.round(x * 100) / 100] stays between 0 and 1 with [x]. *)
Lemma round2_unit (x : num A) :
  zero <== x -> x <== one -> zero <== round2 A x /\ round2 A x <== one.
Proof.
  intros H0 H1. unfold round2.
  assert (Hpos : leb A (lit A 100) zero = false).
  { apply (lit_positive L). apply Qle_bool_imp_le. reflexivity. }
  assert (H100 : zero <== lit A 100).
  { apply lit_nonneg. apply Qle_bool_imp_le. reflexivity. }
  split.
  - apply (div_nonneg L); [| exact Hpos].
    apply (leb_trans L) with (y := round A zero).
    + apply (round_zero L).
    + apply (round_mono L). apply (mul_nonneg L); assumption.
  - apply (div_le_1 L); [| exact Hpos].
    apply (leb_trans L) with (y := round A (lit A 100)).
    + apply (round_mono L). apply (mul_le_1 L); assumption.
    + apply (round_hundred L).
Qed.

(** Invariant of a detail under construction: its score and its weight are
    not negative. *)
Local Notation "'Building' r" := (zero <== d_score r /\ zero <== d_weight r)
  (at level 10, r at level 9).

(** A finished detail: the score has been capped. *)
Local Notation "'Finished' r" :=
  ((zero <== d_score r /\ d_score r <== one) /\ zero <== d_weight r)
  (at level 10, r at level 9).

Lemma building_newDetail (q : Q) : (0 <= q)%Q -> Building (newDetail A (lit A q)).
Proof.
  intros H. cbn [newDetail d_score d_weight].
  split; [apply (leb_refl L) | apply lit_nonneg; exact H].
Qed.

Lemma building_setScore (r : ValidationDetail A) (s : num A) :
  Building r -> zero <== s -> Building (setScore r s).
Proof. cbn [setScore d_score d_weight]. tauto. Qed.

Lemma building_addScore (r : ValidationDetail A) (q : Q) :
  Building r -> (0 <= q)%Q -> Building (addScore r (lit A q)).
Proof.
  intros [Hs Hw] Hq. cbn [addScore setScore d_score d_weight].
  split; [| exact Hw].
  apply (add_nonneg L); [exact Hs | apply lit_nonneg; exact Hq].
Qed.

Lemma building_pushMissing (r : ValidationDetail A) (x : string) :
  Building r -> Building (pushMissing r x).
Proof. cbn [pushMissing d_score d_weight]. tauto. Qed.

Lemma building_pushSuggestion (r : ValidationDetail A) (x : string) :
  Building r -> Building (pushSuggestion r x).
Proof. cbn [pushSuggestion d_score d_weight]. tauto. Qed.

Lemma building_pushWarning (r : ValidationDetail A) (x : string) :
  Building r -> Building (pushWarning r x).
Proof. cbn [pushWarning d_score d_weight]. tauto. Qed.

Lemma building_pushStrength (r : ValidationDetail A) (x : string) :
  Building r -> Building (pushStrength r x).
Proof. cbn [pushStrength d_score d_weight]. tauto. Qed.

Lemma finished_capScore (r : ValidationDetail A) :
  Building r -> Finished (capScore r).
Proof.
  intros [Hs Hw]. cbn [capScore setScore d_score d_weight].
  repeat split; [apply min1_nonneg; exact Hs | apply min1_le_1 | exact Hw].
Qed.

(** The validators are chains of [let]; the invariant is carried from one
    binding to the next. *)
Lemma finished_let_detail (x : ValidationDetail A)
      (body : ValidationDetail A -> ValidationDetail A) :
  Building x ->
  (forall r, Building r -> Finished (body r)) ->
  Finished (let r := x in body r).
Proof. intros Hx Hbody. exact (Hbody x Hx). Qed.

Lemma finished_let_value {T : Type} (x : T) (body : T -> ValidationDetail A) :
  (forall y, Finished (body y)) -> Finished (let y := x in body y).
Proof. intros Hbody. exact (Hbody x). Qed.

Ltac literal_nonneg := apply Qle_bool_imp_le; reflexivity.

(** Walks through the updates of one binding, branch by branch. *)
Ltac building side :=
  repeat first
    [ assumption
    | apply building_pushMissing
    | apply building_pushSuggestion
    | apply building_pushWarning
    | apply building_pushStrength
    | apply building_addScore; [| literal_nonneg]
    | apply building_setScore; [| side]
    | apply building_newDetail; literal_nonneg
    | match goal with
      | |- context [if ?b then _ else _] => destruct b
      | |- context [match qa_type ?q with _ => _ end] => destruct (qa_type q)
      end ].

(** Walks through the bindings of a validator. *)
Ltac validator side :=
  repeat match goal with
         | |- context [d_score (let r := ?x in @?body r)] =>
             first [ refine (@finished_let_detail x body _ _);
                     [solve [building side] | cbv beta; intros ? ?]
                   | refine (@finished_let_value _ x body _); cbv beta; intros ? ]
         end;
  apply finished_capScore; assumption.

Lemma validateCodeCompleteness_finished (context : string) (query : QueryAnalysis) :
  Finished (validateCodeCompleteness A context query).
Proof.
  assert (H5 : leb A (lit A 5) zero = false).
  { apply (lit_positive L). apply Qle_bool_imp_le. reflexivity. }
  assert (Hblocks : forall n, zero <== min1 A (div A (ofNat A n) (lit A 5))).
  { intros n. apply min1_nonneg. apply (div_nonneg L); [apply ofNat_nonneg | exact H5]. }
  assert (Htenth : zero <== lit A 0.1) by (apply lit_nonneg; literal_nonneg).
  cbv delta [validateCodeCompleteness] beta.
  validator ltac:(solve [apply Hblocks | exact Htenth]).
Qed.

Lemma validateDependencyCompleteness_finished (context : string) (query : QueryAnalysis) :
  Finished (validateDependencyCompleteness A context query).
Proof.
  cbv delta [validateDependencyCompleteness] beta.
  validator fail.
Qed.

Lemma validateStructuralCompleteness_finished (context : string) (query : QueryAnalysis) :
  Finished (validateStructuralCompleteness A context query).
Proof.
  cbv delta [validateStructuralCompleteness] beta.
  validator fail.
Qed.

Lemma validateContextCoherence_finished (context : string) (query : QueryAnalysis) :
  Finished (validateContextCoherence A context query).
Proof.
  unfold validateContextCoherence. cbv zeta.
  set (ratio := div A _ _).
  assert (Hratio : zero <== ratio).
  { subst ratio. apply (div_nonneg L); [apply ofNat_nonneg |].
    apply ofNat_positive. apply Nat.le_max_r. }
  clearbody ratio.
  apply finished_capScore. building ltac:(exact Hratio).
Qed.

Lemma validateUsageExamples_finished (context : string) (query : QueryAnalysis) :
  Finished (validateUsageExamples A context query).
Proof.
  cbv delta [validateUsageExamples] beta.
  validator fail.
Qed.

(** Decides every test of a validator, then runs its straight-line code. *)
Ltac decide_tests :=
  repeat (progress
            (repeat match goal with
                    | |- context [if ?b then _ else _] => destruct b
                    | |- context [match qa_type ?q with _ => _ end] =>
                        destruct (qa_type q)
                    end;
             cbv beta iota zeta)).

Ltac subsequence :=
  repeat first [apply Subsequence_keep | apply Subsequence_skip | apply Subsequence_nil].

Ltac run_detail :=
  cbn [d_missingElements capScore setScore addScore pushMissing pushSuggestion
       pushWarning pushStrength newDetail app].

(** What each validator can report as missing, in the order it reports. *)
Lemma validateCodeCompleteness_missing (context : string) (query : QueryAnalysis) :
  Subsequence (d_missingElements (validateCodeCompleteness A context query))
              ["No code implementations found"; "Missing import statements"].
Proof.
  cbv delta [validateCodeCompleteness] beta.
  decide_tests; run_detail; subsequence.
Qed.

Lemma validateDependencyCompleteness_missing (context : string) (query : QueryAnalysis) :
  Subsequence (d_missingElements (validateDependencyCompleteness A context query))
              ["Missing dependency information"].
Proof.
  cbv delta [validateDependencyCompleteness] beta.
  decide_tests; run_detail; subsequence.
Qed.

Lemma validateStructuralCompleteness_missing (context : string) (query : QueryAnalysis) :
  Subsequence (d_missingElements (validateStructuralCompleteness A context query))
              ["Missing project summary"].
Proof.
  cbv delta [validateStructuralCompleteness] beta.
  decide_tests; run_detail; subsequence.
Qed.

Lemma validateContextCoherence_missing (context : string) (query : QueryAnalysis) :
  d_missingElements (validateContextCoherence A context query) = [].
Proof.
  cbv delta [validateContextCoherence] beta.
  decide_tests; run_detail; reflexivity.
Qed.

Lemma validateUsageExamples_missing (context : string) (query : QueryAnalysis) :
  Subsequence (d_missingElements (validateUsageExamples A context query))
              ["Missing test cases"; "Missing documentation"].
Proof.
  cbv delta [validateUsageExamples] beta.
  decide_tests; run_detail; subsequence.
Qed.

(** The running totals: the weighted score stays between 0 and the sum of
    the weights. *)
Lemma aggregate_bounds (vs : list (ValidationDetail A)) (acc : Totals A) :
  Forall (fun v => Finished v) vs ->
  zero <== totalScore acc ->
  totalScore acc <== totalWeight acc ->
  zero <== totalScore (fold_left (@aggregate A) vs acc)
  /\ totalScore (fold_left (@aggregate A) vs acc)
     <== totalWeight (fold_left (@aggregate A) vs acc).
Proof.
  intros Hvs. revert acc.
  induction Hvs as [| v vs [[Hs0 Hs1] Hw] Hvs IH]; intros acc H0 H1; cbn [fold_left].
  - split; assumption.
  - apply IH; cbn [aggregate totalScore totalWeight].
    + apply (add_nonneg L); [exact H0 |]. apply (mul_nonneg L); assumption.
    + apply (add_mono L); [exact H1 |]. apply (mul_le_1 L); assumption.
Qed.

Ltac read_weight :=
  cbn [d_weight capScore setScore addScore pushMissing pushSuggestion
       pushWarning pushStrength newDetail].

(** The weights of the five validators are the constants 0.3, 0.25, 0.2,
    0.15 and 0.1, whatever the document and the query. *)
Lemma validations_weights (context : string) (queryAnalysis : QueryAnalysis) :
  map (@d_weight A) (validations A context queryAnalysis)
  = [lit A 0.3; lit A 0.25; lit A 0.2; lit A 0.15; lit A 0.1].
Proof.
  unfold validations. cbn [map].
  repeat f_equal.
  - cbv delta [validateCodeCompleteness] beta. decide_tests; read_weight; reflexivity.
  - cbv delta [validateDependencyCompleteness] beta.
    decide_tests; read_weight; reflexivity.
  - cbv delta [validateStructuralCompleteness] beta.
    decide_tests; read_weight; reflexivity.
  - cbv delta [validateContextCoherence] beta. decide_tests; read_weight; reflexivity.
  - cbv delta [validateUsageExamples] beta. decide_tests; read_weight; reflexivity.
Qed.

Lemma aggregate_weight (vs : list (ValidationDetail A)) (acc : Totals A) :
  totalWeight (fold_left (@aggregate A) vs acc)
  = fold_left (add A) (map (@d_weight A) vs) (totalWeight acc).
Proof.
  revert acc. induction vs as [| v vs IH]; intros acc; cbn [fold_left map].
  - reflexivity.
  - rewrite IH. reflexivity.
Qed.

Lemma aggregate_missing (vs : list (ValidationDetail A)) (acc : Totals A) :
  allMissing (fold_left (@aggregate A) vs acc)
  = (allMissing acc ++ concat (map (@d_missingElements A) vs))%list.
Proof.
  revert acc. induction vs as [| v vs IH]; intros acc; cbn [fold_left map concat].
  - rewrite app_nil_r. reflexivity.
  - rewrite IH. cbn [aggregate allMissing]. rewrite app_assoc. reflexivity.
Qed.

Lemma validations_finished (context : string) (queryAnalysis : QueryAnalysis) :
  Forall (fun v => Finished v) (validations A context queryAnalysis).
Proof.
  unfold validations.
  repeat constructor;
    first [ apply validateCodeCompleteness_finished
          | apply validateDependencyCompleteness_finished
          | apply validateStructuralCompleteness_finished
          | apply validateContextCoherence_finished
          | apply validateUsageExamples_finished ].
Qed.

(** The missing elements collected from the five validators are pairwise
    different, so de-duplication leaves them as they are. *)
Lemma validations_missing_NoDup (context : string) (queryAnalysis : QueryAnalysis) :
  NoDup (concat (map (@d_missingElements A) (validations A context queryAnalysis))).
Proof.
  apply Subsequence_NoDup with
    (ys := [ "No code implementations found"; "Missing import statements";
             "Missing dependency information"; "Missing project summary";
             "Missing test cases"; "Missing documentation" ]).
  - unfold validations. cbn [map concat].
    rewrite validateContextCoherence_missing, app_nil_r. cbn [app].
    change [ "No code implementations found"; "Missing import statements";
             "Missing dependency information"; "Missing project summary";
             "Missing test cases"; "Missing documentation" ]
      with ([ "No code implementations found"; "Missing import statements" ]
            ++ [ "Missing dependency information" ]
            ++ [ "Missing project summary" ]
            ++ [ "Missing test cases"; "Missing documentation" ])%list.
    repeat apply Subsequence_app.
    + apply validateCodeCompleteness_missing.
    + apply validateDependencyCompleteness_missing.
    + apply validateStructuralCompleteness_missing.
    + apply validateUsageExamples_missing.
  - repeat constructor; cbn; intuition discriminate.
Qed.

(** The verdict of the validator, over a lawful arithmetic. *)
Lemma validateCompleteness_lawful (contextContent query : string) :
  let result := validateCompleteness A contextContent query in
  (zero <== completenessScore result /\ completenessScore result <== one)
  /\ NoDup (missingElements result)
  /\ NoDup (suggestions result)
  /\ NoDup (warnings result)
  /\ NoDup (strengths result)
  /\ (isComplete result = true <->
      lit A 0.8 <== completenessScore result
      /\ List.length (missingElements result) < 3).
Proof.
  cbv zeta. unfold validateCompleteness.
  cbn [completenessScore missingElements suggestions warnings strengths isComplete].
  set (totals := fold_left _ _ _).
  assert (Hbounds : zero <== totalScore totals /\ totalScore totals <== totalWeight totals).
  { subst totals. apply aggregate_bounds.
    - apply validations_finished.
    - cbn [totalScore]. apply (leb_refl L).
    - cbn [totalScore totalWeight]. apply (leb_refl L). }
  assert (Hmissing : unique (allMissing totals) = allMissing totals).
  { apply unique_id. subst totals. rewrite aggregate_missing.
    cbn [allMissing app]. apply validations_missing_NoDup. }
  destruct Hbounds as [H0 H1].
  split; [| split; [| split; [| split; [| split]]]];
    try apply unique_NoDup.
  - destruct (leb A (totalWeight totals) zero) eqn:Hw; cbn [negb].
    + split; [apply (leb_refl L) | apply zero_le_one].
    + apply round2_unit.
      * apply (div_nonneg L); assumption.
      * apply (div_le_1 L); assumption.
  - rewrite Hmissing, andb_true_iff, Nat.ltb_lt. reflexivity.
Qed.

End Validation.

(* ================================================================== *)
(** * binary64                                                         *)
(* ================================================================== *)

Section Binary64.

Local Open Scope Q_scope.

(** ** Powers of two *)

Lemma pow2_pos (e : Z) : 0 < 2 ^ e.
Proof. apply Qpower_0_lt. reflexivity. Qed.

Lemma pow2_plus (a b : Z) : 2 ^ (a + b) == 2 ^ a * 2 ^ b.
Proof. apply Qpower_plus. discriminate. Qed.

Lemma pow2_minus (a b : Z) : 2 ^ (a - b) == 2 ^ a / 2 ^ b.
Proof. apply Qpower_minus. discriminate. Qed.

Lemma pow2_le (a b : Z) : (a <= b)%Z -> 2 ^ a <= 2 ^ b.
Proof. intros H. apply Qpower_le_compat_l; [exact H | discriminate]. Qed.

Lemma pow2_lt (a b : Z) : (a < b)%Z -> 2 ^ a < 2 ^ b.
Proof. intros H. apply Qpower_lt_compat_l; [exact H | reflexivity]. Qed.

Lemma pow2_lt_inv (a b : Z) : 2 ^ a < 2 ^ b -> (a < b)%Z.
Proof. intros H. apply Qpower_lt_compat_l_inv with (q := 2); [exact H | reflexivity]. Qed.

Lemma pow2_Z (k : Z) : (0 <= k)%Z -> 2 ^ k == inject_Z (2 ^ k).
Proof. intros H. symmetry. apply (Zpower_Qpower 2 k H). Qed.

Lemma Qmake_lt_quotient (n : Z) (d : positive) (a b : Z) :
  (0 < b)%Z -> (n * b < a * Zpos d)%Z -> n # d < inject_Z a / inject_Z b.
Proof.
  intros Hb H. apply Qlt_shift_div_l.
  - unfold Qlt, inject_Z. cbn [Qnum Qden]. lia.
  - unfold Qlt, Qmult, inject_Z. cbn [Qnum Qden]. lia.
Qed.

Lemma Qmake_ge_quotient (n : Z) (d : positive) (a b : Z) :
  (0 < b)%Z -> (a * Zpos d <= n * b)%Z -> inject_Z a / inject_Z b <= n # d.
Proof.
  intros Hb H. apply Qle_shift_div_r.
  - unfold Qlt, inject_Z. cbn [Qnum Qden]. lia.
  - unfold Qle, Qmult, inject_Z. cbn [Qnum Qden]. lia.
Qed.

(** [ilog2] is the binary logarithm rounded down. *)
Lemma ilog2_spec (x : Q) : 0 < x -> 2 ^ ilog2 x <= x /\ x < 2 ^ (ilog2 x + 1).
Proof.
  destruct x as [n d]. intros Hx.
  assert (Hn : (0 < n)%Z).
  { revert Hx. unfold Qlt. cbn [Qnum Qden]. lia. }
  unfold ilog2. cbn [Qnum Qden].
  pose proof (Z.log2_spec n Hn) as [Hn1 Hn2].
  pose proof (Z.log2_spec (Zpos d) eq_refl) as [Hd1 Hd2].
  pose proof (Z.log2_nonneg n) as Ha.
  pose proof (Z.log2_nonneg (Zpos d)) as Hb.
  set (a := Z.log2 n) in *. set (b := Z.log2 (Zpos d)) in *.
  assert (Hpa : (0 < 2 ^ a)%Z) by (apply Z.pow_pos_nonneg; lia).
  assert (Hpb : (0 < 2 ^ b)%Z) by (apply Z.pow_pos_nonneg; lia).
  destruct (Qle_bool (2 ^ (a - b)) (n # d)) eqn:Htest.
  - split; [apply Qle_bool_iff; exact Htest |].
    replace (a - b + 1)%Z with (Z.succ a - b)%Z by lia.
    rewrite pow2_minus, !pow2_Z by lia.
    apply Qmake_lt_quotient; [exact Hpb | nia].
  - split.
    + replace (a - b - 1)%Z with (a - Z.succ b)%Z by lia.
      rewrite pow2_minus, !pow2_Z by lia.
      apply Qmake_ge_quotient; [apply Z.pow_pos_nonneg; lia | nia].
    + replace (a - b - 1 + 1)%Z with (a - b)%Z by lia.
      apply Qnot_le_lt. intros H. apply Qle_bool_iff in H. congruence.
Qed.

Lemma ilog2_unique (x : Q) (e : Z) : 2 ^ e <= x -> x < 2 ^ (e + 1) -> ilog2 x = e.
Proof.
  intros H1 H2.
  assert (Hx : 0 < x) by (eapply Qlt_le_trans; [apply (pow2_pos e) | exact H1]).
  destruct (ilog2_spec Hx) as [H3 H4].
  assert (Ha : (ilog2 x < e + 1)%Z).
  { apply pow2_lt_inv. eapply Qle_lt_trans; eassumption. }
  assert (Hb : (e < ilog2 x + 1)%Z).
  { apply pow2_lt_inv. eapply Qle_lt_trans; eassumption. }
  lia.
Qed.

Lemma ilog2_mono (x y : Q) : 0 < x -> x <= y -> (ilog2 x <= ilog2 y)%Z.
Proof.
  intros Hx Hxy.
  assert (Hy : 0 < y) by (eapply Qlt_le_trans; eassumption).
  destruct (ilog2_spec Hx) as [H1 _]. destruct (ilog2_spec Hy) as [_ H2].
  assert (H : (ilog2 x < ilog2 y + 1)%Z).
  { apply pow2_lt_inv. eapply Qle_lt_trans; [exact H1 |].
    eapply Qle_lt_trans; eassumption. }
  lia.
Qed.

(** ** Rounding to an integer *)

Lemma nearestEven_cases (x : Q) :
  let f := Qfloor x in
  (nearestEven x = f /\ x - inject_Z f <= 1 # 2
   /\ (x - inject_Z f == 1 # 2 -> Z.even f = true))
  \/ (nearestEven x = (f + 1)%Z /\ 1 # 2 <= x - inject_Z f
      /\ (x - inject_Z f == 1 # 2 -> Z.even f = false)).
Proof.
  cbv zeta. unfold nearestEven.
  destruct (Qcompare_spec (x - inject_Z (Qfloor x)) (1 # 2)) as [H | H | H].
  - destruct (Z.even (Qfloor x)) eqn:He.
    + left. split; [reflexivity | split; [rewrite H; apply Qle_refl | reflexivity]].
    + right. split; [reflexivity | split; [rewrite H; apply Qle_refl | reflexivity]].
  - left. split; [reflexivity | split; [apply Qlt_le_weak; exact H |]].
    intros Heq. rewrite Heq in H. discriminate.
  - right. split; [reflexivity | split; [apply Qlt_le_weak; exact H |]].
    intros Heq. rewrite Heq in H. discriminate.
Qed.

Lemma nearestEven_mono (x y : Q) : x <= y -> (nearestEven x <= nearestEven y)%Z.
Proof.
  intros Hxy.
  pose proof (Qfloor_resp_le _ _ Hxy) as Hf.
  pose proof (Qfloor_le x) as Hx1. pose proof (Qlt_floor x) as Hx2.
  pose proof (Qfloor_le y) as Hy1. pose proof (Qlt_floor y) as Hy2.
  destruct (nearestEven_cases x) as [[-> [Hx Hex]] | [-> [Hx Hex]]];
    destruct (nearestEven_cases y) as [[-> [Hy Hey]] | [-> [Hy Hey]]];
    try lia.
  destruct (Z.eq_dec (Qfloor x) (Qfloor y)) as [Heq | Hne]; [| lia].
  exfalso. rewrite Heq in *.
  assert (Hx' : x - inject_Z (Qfloor y) == 1 # 2) by lra.
  assert (Hy' : y - inject_Z (Qfloor y) == 1 # 2) by lra.
  specialize (Hex Hx'). specialize (Hey Hy'). congruence.
Qed.

Lemma nearestEven_Z (x : Q) (z : Z) : x == inject_Z z -> nearestEven x = z.
Proof.
  intros H. unfold nearestEven. cbv zeta.
  assert (Hf : Qfloor x = z) by (rewrite H; apply Qfloor_Z).
  rewrite Hf.
  assert (Hc : (x - inject_Z z ?= 1 # 2) = Lt).
  { apply Qlt_alt. rewrite H. unfold Qminus. rewrite Qplus_opp_r. reflexivity. }
  rewrite Hc. reflexivity.
Qed.

(** ** Rounding a positive rational to 53 significant bits *)

Lemma scaled_ge (x : Q) (a k : Z) : 2 ^ a <= x -> 2 ^ (a - k) <= x / 2 ^ k.
Proof.
  intros H. apply Qle_shift_div_l; [apply pow2_pos |].
  rewrite <- pow2_plus. replace (a - k + k)%Z with a by lia. exact H.
Qed.

Lemma scaled_lt (x : Q) (a k : Z) : x < 2 ^ a -> x / 2 ^ k < 2 ^ (a - k).
Proof.
  intros H. apply Qlt_shift_div_r; [apply pow2_pos |].
  rewrite <- pow2_plus. replace (a - k + k)%Z with a by lia. exact H.
Qed.

Lemma inject_Z_pow2 (k : Z) : (0 <= k)%Z -> inject_Z (2 ^ k) == 2 ^ k.
Proof. intros H. symmetry. apply pow2_Z. exact H. Qed.

(** The significand of a positive number has 53 bits, or is [2 ^ 53] when
    the number is rounded up to the next power of two. *)
Lemma significand_bounds (x : Q) :
  0 < x -> (2 ^ 52 <= nearestEven (x / ulp x) <= 2 ^ 53)%Z.
Proof.
  intros Hx. destruct (ilog2_spec Hx) as [H1 H2]. unfold ulp.
  assert (Ha : 2 ^ 52 <= x / 2 ^ (ilog2 x - 52)).
  { replace 52%Z with (ilog2 x - (ilog2 x - 52))%Z at 1 by lia.
    apply scaled_ge. exact H1. }
  assert (Hb : x / 2 ^ (ilog2 x - 52) <= 2 ^ 53).
  { replace 53%Z with (ilog2 x + 1 - (ilog2 x - 52))%Z by lia.
    apply Qlt_le_weak. apply scaled_lt. exact H2. }
  pose proof (nearestEven_mono Ha) as Hm1. pose proof (nearestEven_mono Hb) as Hm2.
  rewrite (@nearestEven_Z (2 ^ 52) (2 ^ 52)%Z) in Hm1
    by (symmetry; apply inject_Z_pow2; lia).
  rewrite (@nearestEven_Z (2 ^ 53) (2 ^ 53)%Z) in Hm2
    by (symmetry; apply inject_Z_pow2; lia).
  split; assumption.
Qed.

Lemma roundPositive_bounds (x : Q) :
  0 < x -> 2 ^ ilog2 x <= roundPositive x /\ roundPositive x <= 2 ^ (ilog2 x + 1).
Proof.
  intros Hx. destruct (significand_bounds Hx) as [H1 H2].
  unfold roundPositive. unfold ulp at 2 4.
  set (m := nearestEven _) in *. clearbody m.
  pose proof (pow2_pos (ilog2 x - 52)) as Hu.
  split.
  - replace (ilog2 x) with (52 + (ilog2 x - 52))%Z at 1 by lia.
    rewrite pow2_plus. apply Qmult_le_compat_r; [| apply Qlt_le_weak; exact Hu].
    rewrite <- inject_Z_pow2 by lia. rewrite <- Zle_Qle. exact H1.
  - replace (ilog2 x + 1)%Z with (53 + (ilog2 x - 52))%Z by lia.
    rewrite pow2_plus. apply Qmult_le_compat_r; [| apply Qlt_le_weak; exact Hu].
    rewrite <- inject_Z_pow2 by lia. rewrite <- Zle_Qle. exact H2.
Qed.

Lemma roundPositive_pos (x : Q) : 0 < x -> 0 < roundPositive x.
Proof.
  intros Hx. destruct (roundPositive_bounds Hx) as [H _].
  eapply Qlt_le_trans; [apply pow2_pos | exact H].
Qed.

(** Rounding is monotone. *)
Lemma roundPositive_mono (x y : Q) :
  0 < x -> x <= y -> roundPositive x <= roundPositive y.
Proof.
  intros Hx Hxy.
  assert (Hy : 0 < y) by (eapply Qlt_le_trans; eassumption).
  pose proof (ilog2_mono Hx Hxy) as He.
  destruct (Z.eq_dec (ilog2 x) (ilog2 y)) as [Heq | Hne].
  - unfold roundPositive, ulp. rewrite Heq.
    pose proof (pow2_pos (ilog2 y - 52)) as Hu.
    apply Qmult_le_compat_r; [| apply Qlt_le_weak; exact Hu].
    rewrite <- Zle_Qle. apply nearestEven_mono.
    apply Qmult_le_compat_r; [exact Hxy |].
    apply Qlt_le_weak. apply Qinv_lt_0_compat. exact Hu.
  - destruct (roundPositive_bounds Hx) as [_ H1].
    destruct (roundPositive_bounds Hy) as [H2 _].
    eapply Qle_trans; [exact H1 |]. eapply Qle_trans; [| exact H2].
    apply pow2_le. lia.
Qed.

Lemma roundPositive_comp (x y : Q) : 0 < x -> x == y -> roundPositive x == roundPositive y.
Proof.
  intros Hx Hxy.
  assert (Hy : 0 < y) by (rewrite <- Hxy; exact Hx).
  apply Qle_antisym; apply roundPositive_mono; try assumption;
    rewrite Hxy; apply Qle_refl.
Qed.

(** A number with a 53-bit significand is left as it is. *)
Lemma roundPositive_normal (m k : Z) :
  (2 ^ 52 <= m < 2 ^ 53)%Z ->
  roundPositive (inject_Z m * 2 ^ k) == inject_Z m * 2 ^ k.
Proof.
  intros [H1 H2].
  pose proof (pow2_pos k) as Hu.
  assert (He : ilog2 (inject_Z m * 2 ^ k) = (k + 52)%Z).
  { apply ilog2_unique.
    - rewrite Z.add_comm, pow2_plus.
      apply Qmult_le_compat_r; [| apply Qlt_le_weak; exact Hu].
      rewrite <- inject_Z_pow2 by lia. rewrite <- Zle_Qle. exact H1.
    - replace (k + 52 + 1)%Z with (53 + k)%Z by lia. rewrite pow2_plus.
      apply Qmult_lt_compat_r; [exact Hu |].
      rewrite <- inject_Z_pow2 by lia. rewrite <- Zlt_Qlt. exact H2. }
  unfold roundPositive, ulp. rewrite He.
  replace (k + 52 - 52)%Z with k by lia.
  rewrite (@nearestEven_Z (inject_Z m * 2 ^ k / 2 ^ k) m).
  - reflexivity.
  - apply Qdiv_mult_l. intros H0. rewrite H0 in Hu. discriminate.
Qed.

Lemma roundPositive_idempotent (x : Q) :
  0 < x -> roundPositive (roundPositive x) == roundPositive x.
Proof.
  intros Hx. destruct (significand_bounds Hx) as [H1 H2].
  pose proof (roundPositive_pos Hx) as Hpos.
  assert (Hshape : roundPositive x
                   = inject_Z (nearestEven (x / ulp x)) * 2 ^ (ilog2 x - 52))
    by reflexivity.
  rewrite Hshape in Hpos |- *. clear Hshape.
  set (m := nearestEven _) in *. clearbody m.
  set (k := (ilog2 x - 52)%Z) in *. clearbody k.
  destruct (Z.eq_dec m (2 ^ 53)) as [-> | Hne].
  - assert (Heq : inject_Z (2 ^ 53) * 2 ^ k == inject_Z (2 ^ 52) * 2 ^ (k + 1)).
    { rewrite !inject_Z_pow2 by lia. rewrite <- !pow2_plus.
      replace (52 + (k + 1))%Z with (53 + k)%Z by lia. reflexivity. }
    rewrite (roundPositive_comp Hpos Heq), Heq.
    apply roundPositive_normal. lia.
  - apply roundPositive_normal. lia.
Qed.

(** ** Rounding a rational *)

Lemma roundNearestEven_pos (x : Q) : 0 < x -> roundNearestEven x == roundPositive x.
Proof.
  intros Hx. unfold roundNearestEven. rewrite Qred_correct.
  destruct x as [[| p | p] d]; [discriminate Hx | reflexivity | discriminate Hx].
Qed.

Lemma roundNearestEven_neg (x : Q) :
  x < 0 -> roundNearestEven x == - roundPositive (- x).
Proof.
  intros Hx. unfold roundNearestEven. rewrite Qred_correct.
  destruct x as [[| p | p] d]; [discriminate Hx | discriminate Hx | reflexivity].
Qed.

Lemma roundNearestEven_zero (x : Q) : x == 0 -> roundNearestEven x == 0.
Proof.
  intros Hx. unfold roundNearestEven. rewrite Qred_correct.
  destruct x as [[| p | p] d]; [reflexivity | discriminate Hx | discriminate Hx].
Qed.

Lemma roundNearestEven_mono (x y : Q) :
  x <= y -> roundNearestEven x <= roundNearestEven y.
Proof.
  intros Hxy.
  destruct (Q_dec x 0) as [[Hx | Hx] | Hx]; destruct (Q_dec y 0) as [[Hy | Hy] | Hy].
  - rewrite (roundNearestEven_neg Hx), (roundNearestEven_neg Hy).
    apply Qopp_le_compat. apply roundPositive_mono; lra.
  - rewrite (roundNearestEven_neg Hx), (roundNearestEven_pos Hy).
    assert (H : 0 < roundPositive (- x)) by (apply roundPositive_pos; lra).
    assert (H' : 0 < roundPositive y) by (apply roundPositive_pos; lra). lra.
  - rewrite (roundNearestEven_neg Hx), (roundNearestEven_zero Hy).
    assert (H : 0 < roundPositive (- x)) by (apply roundPositive_pos; lra). lra.
  - lra.
  - rewrite (roundNearestEven_pos Hx), (roundNearestEven_pos Hy).
    apply roundPositive_mono; assumption.
  - lra.
  - lra.
  - rewrite (roundNearestEven_zero Hx), (roundNearestEven_pos Hy).
    apply Qlt_le_weak. apply roundPositive_pos. exact Hy.
  - rewrite (roundNearestEven_zero Hx), (roundNearestEven_zero Hy). apply Qle_refl.
Qed.

Lemma roundNearestEven_comp (x y : Q) :
  x == y -> roundNearestEven x == roundNearestEven y.
Proof.
  intros H. apply Qle_antisym; apply roundNearestEven_mono; rewrite H; apply Qle_refl.
Qed.

Lemma roundNearestEven_idempotent (x : Q) :
  roundNearestEven (roundNearestEven x) == roundNearestEven x.
Proof.
  destruct (Q_dec x 0) as [[Hx | Hx] | Hx].
  - assert (Hpos : 0 < roundPositive (- x)) by (apply roundPositive_pos; lra).
    pose proof (roundNearestEven_neg Hx) as H.
    assert (Hneg : roundNearestEven x < 0) by lra.
    rewrite (roundNearestEven_neg Hneg).
    assert (Heq : - roundNearestEven x == roundPositive (- x)) by lra.
    assert (Hpos' : 0 < - roundNearestEven x) by lra.
    rewrite (roundPositive_comp Hpos' Heq).
    rewrite roundPositive_idempotent by lra. symmetry. exact H.
  - pose proof (roundPositive_pos Hx) as Hpos.
    pose proof (roundNearestEven_pos Hx) as H.
    assert (Hpos' : 0 < roundNearestEven x) by lra.
    rewrite (roundNearestEven_pos Hpos'), (roundPositive_comp Hpos' H), H.
    apply roundPositive_idempotent. exact Hx.
  - pose proof (roundNearestEven_zero Hx) as H.
    rewrite (roundNearestEven_zero H), H. reflexivity.
Qed.

(** ** Doubles *)

Lemma double_value (q : Q) : value (double q) = roundNearestEven q.
Proof.
  unfold double. cbv zeta.
  destruct (sumbool_of_bool _) as [H | H]; [reflexivity |].
  exfalso. apply Qeq_bool_neq in H. apply H. apply roundNearestEven_idempotent.
Qed.

Lemma value_fixed (d : Double) : roundNearestEven (value d) == value d.
Proof. apply Qeq_bool_eq. apply value_representable. Qed.

(** ** The laws *)

Lemma double_mono (p q : Q) :
  p <= q -> Qle_bool (value (double p)) (value (double q)) = true.
Proof.
  intros H. rewrite !double_value. apply Qle_bool_iff.
  apply roundNearestEven_mono. exact H.
Qed.

Lemma double_nonneg (q : Q) : 0 <= q -> Qle_bool (value (double 0)) (value (double q)) = true.
Proof. apply double_mono. Qed.

Lemma value_zero : value (double 0) == 0.
Proof. reflexivity. Qed.

Lemma value_one : value (double 1) == 1.
Proof. reflexivity. Qed.

Lemma value_positive (c : Double) :
  Qle_bool (value c) (value (double 0)) = false -> 0 < value c.
Proof.
  intros H. rewrite value_zero in H. apply Qnot_le_lt. intros Hle.
  apply Qle_bool_iff in Hle. rewrite Hle in H. discriminate.
Qed.

Lemma binary64_laws : ArithmeticLaws binary64.
Proof.
  constructor; cbn [num lit add mul div round leb binary64].
  - intros x. apply Qle_bool_iff. apply Qle_refl.
  - intros x y z Hxy Hyz. apply Qle_bool_iff.
    apply Qle_bool_iff in Hxy. apply Qle_bool_iff in Hyz.
    eapply Qle_trans; eassumption.
  - intros p q H. apply double_mono. exact H.
  - intros q H. apply not_true_iff_false. intros Hq.
    pose proof (double_mono H) as H1.
    apply Qle_bool_iff in Hq. apply Qle_bool_iff in H1.
    rewrite value_zero in Hq. rewrite value_one in H1. lra.
  - intros a a' b b' Ha Hb.
    apply Qle_bool_iff in Ha. apply Qle_bool_iff in Hb.
    apply double_mono. lra.
  - intros a b Ha Hb.
    apply Qle_bool_iff in Ha. apply Qle_bool_iff in Hb. rewrite value_zero in Ha, Hb.
    apply double_mono. lra.
  - intros a b Ha Hb.
    apply Qle_bool_iff in Ha. apply Qle_bool_iff in Hb. rewrite value_zero in Ha, Hb.
    apply double_mono. apply Qmult_le_0_compat; assumption.
  - intros a b Ha Hb.
    apply Qle_bool_iff in Ha. apply Qle_bool_iff in Hb.
    rewrite value_one in Ha. rewrite value_zero in Hb.
    apply Qle_bool_iff. rewrite double_value.
    apply Qle_trans with (roundNearestEven (value b)).
    + apply roundNearestEven_mono.
      apply Qle_trans with (1 * value b); [| rewrite Qmult_1_l; apply Qle_refl].
      apply Qmult_le_compat_r; assumption.
    + rewrite value_fixed. apply Qle_refl.
  - intros a c Ha Hc. apply value_positive in Hc.
    apply Qle_bool_iff in Ha. rewrite value_zero in Ha.
    apply double_mono. apply Qle_shift_div_l; [exact Hc | lra].
  - intros a c Ha Hc. apply value_positive in Hc.
    apply Qle_bool_iff in Ha.
    apply double_mono. apply Qle_shift_div_r; [exact Hc | lra].
  - intros x y H. apply Qle_bool_iff in H.
    apply double_mono. rewrite <- Zle_Qle. apply Qfloor_resp_le. lra.
  - reflexivity.
  - reflexivity.
Qed.

(** ** Integers *)

(** The integers up to [2 ^ 53], among them every count the validator
    reads as a number, are binary64 numbers. *)
Lemma roundPositive_integer (z : Z) :
  (0 < z <= 2 ^ 53)%Z -> roundPositive (inject_Z z) == inject_Z z.
Proof.
  intros [H0 H1].
  destruct (Z.eq_dec z (2 ^ 53)) as [-> | Hne].
  - assert (Heq : inject_Z (2 ^ 53) == inject_Z (2 ^ 52) * 2 ^ 1) by reflexivity.
    assert (Hpos : 0 < inject_Z (2 ^ 53)) by reflexivity.
    rewrite (roundPositive_comp Hpos Heq), Heq.
    apply roundPositive_normal. lia.
  - pose proof (Z.log2_spec z H0) as [Hl1 Hl2].
    pose proof (Z.log2_nonneg z) as Hl0.
    set (j := Z.log2 z) in *.
    assert (Hj : (j <= 52)%Z).
    { apply Z.lt_succ_r. apply (Z.pow_lt_mono_r_iff 2); lia. }
    assert (Hpos : 0 < inject_Z z) by (unfold Qlt, inject_Z; cbn [Qnum Qden]; lia).
    assert (Heq : inject_Z z == inject_Z (z * 2 ^ (52 - j)) * 2 ^ (j - 52)).
    { rewrite inject_Z_mult, inject_Z_pow2 by lia.
      rewrite <- Qmult_assoc, <- pow2_plus.
      replace (52 - j + (j - 52))%Z with 0%Z by lia. ring. }
    rewrite (roundPositive_comp Hpos Heq), Heq.
    apply roundPositive_normal.
    replace (2 ^ 52)%Z with (2 ^ j * 2 ^ (52 - j))%Z
      by (rewrite <- Z.pow_add_r by lia; f_equal; lia).
    replace (2 ^ 53)%Z with (2 ^ Z.succ j * 2 ^ (52 - j))%Z
      by (rewrite <- Z.pow_add_r by lia; f_equal; lia).
    assert (Hp : (0 < 2 ^ (52 - j))%Z) by (apply Z.pow_pos_nonneg; lia).
    split; [apply Z.mul_le_mono_nonneg_r | apply Z.mul_lt_mono_pos_r]; lia.
Qed.

Lemma double_integer (z : Z) :
  (0 <= z <= 2 ^ 53)%Z -> value (double (inject_Z z)) == inject_Z z.
Proof.
  intros [H0 H1]. rewrite double_value.
  destruct (Z.eq_dec z 0) as [-> | Hne]; [reflexivity |].
  assert (Hpos : 0 < inject_Z z) by (unfold Qlt, inject_Z; cbn [Qnum Qden]; lia).
  rewrite (roundNearestEven_pos Hpos). apply roundPositive_integer. lia.
Qed.

(** A count is read as the number it is. *)
Lemma ofNat_exact (n : nat) :
  (Z.of_nat n <= 2 ^ 53)%Z -> value (ofNat binary64 n) == inject_Z (Z.of_nat n).
Proof. intros H. apply double_integer. lia. Qed.

(** The sum of the five weights, taken in the order of the loop, is 1
    without a rounding error: the test [totalWeight > 0] of line 56 always
    succeeds, and the weighted sum is divided by 1. *)
Lemma totalWeight_one (contextContent query : string) :
  totalWeight
    (fold_left (@aggregate binary64)
       (validations binary64 contextContent (analyzeQuery query))
       {| totalScore := lit binary64 0; totalWeight := lit binary64 0;
          allMissing := []; allSuggestions := []; allWarnings := [];
          allStrengths := [] |})
  = lit binary64 1.
Proof.
  rewrite aggregate_weight, validations_weights. reflexivity.
Qed.

(** The validator divides by 5, by 100, by a count that is at least 1 and
    by the sum of the weights, which is 1: it never divides by zero. *)
Lemma divisors_positive (n : nat) :
  0 < value (lit binary64 5)
  /\ 0 < value (lit binary64 100)
  /\ 0 < value (ofNat binary64 (Nat.max n 1))
  /\ 0 < value (lit binary64 1).
Proof.
  split; [reflexivity | split; [reflexivity | split; [| reflexivity]]].
  unfold ofNat. cbn [lit binary64]. rewrite double_value.
  apply Qlt_le_trans with (roundNearestEven 1); [reflexivity |].
  apply roundNearestEven_mono.
  unfold Qle, inject_Z. cbn [Qnum Qden]. lia.
Qed.

End Binary64.

(** Comparing a binary64 number with a literal that is rounded upwards,
    as 0.8 is, is comparing it with the rational the literal denotes. *)
Lemma at_least_literal (q : Q) (v : Double) :
  (q <= value (double q))%Q ->
  leb binary64 (lit binary64 q) v = true <-> (q <= value v)%Q.
Proof.
  intros Hq. cbn [leb lit binary64]. rewrite Qle_bool_iff. split; intros H.
  - eapply Qle_trans; eassumption.
  - rewrite double_value. eapply Qle_trans.
    + apply roundNearestEven_mono. exact H.
    + rewrite value_fixed. apply Qle_refl.
Qed.

(** A number between the binary64 numbers 0 and 1 lies between the
    rationals. *)
Lemma unit_values (v : Double) :
  leb binary64 (lit binary64 0) v = true /\ leb binary64 v (lit binary64 1) = true ->
  (0 <= value v <= 1)%Q.
Proof.
  cbn [leb lit binary64]. rewrite !Qle_bool_iff, value_zero, value_one. tauto.
Qed.

(** C4. For every document and query the completeness score, a binary64
    number, lies between 0 and 1, none of the four returned lists has a
    repeated entry, and [isComplete] holds exactly when the score is at
    least 0.8 and the returned [missingElements] has fewer than 3
    entries. *)
Theorem validateCompleteness_sound (contextContent query : string) :
  let result := validateCompleteness binary64 contextContent query in
  (0 <= value (completenessScore result) <= 1)%Q
  /\ NoDup (missingElements result)
  /\ NoDup (suggestions result)
  /\ NoDup (warnings result)
  /\ NoDup (strengths result)
  /\ (isComplete result = true <->
      (0.8 <= value (completenessScore result))%Q
      /\ List.length (missingElements result) < 3).
Proof.
  cbv zeta.
  pose proof (validateCompleteness_lawful binary64_laws contextContent query) as H.
  cbv zeta in H. destruct H as [Hunit [Hm [Hs [Hw [Hst Hc]]]]].
  split; [apply unit_values; exact Hunit |].
  repeat (split; [assumption |]).
  rewrite Hc. rewrite at_least_literal by (apply Qle_bool_imp_le; reflexivity).
  reflexivity.
Qed.

Lemma validateCompleteness_sound_witness :
  (value (completenessScore
            (validateCompleteness binary64 Samples.borderline Samples.borderlineQuery))
   <= 1)%Q.
Proof.
  exact (proj2 (proj1 (validateCompleteness_sound
                         Samples.borderline Samples.borderlineQuery))).
Defined.

(** Sums are rounded as JavaScript rounds them: [0.1 + 0.2] is not
    [0.3]. *)
Example binary64_rounds :
  add binary64 (lit binary64 0.1) (lit binary64 0.2)
  = lit binary64 0.30000000000000004
  /\ leb binary64 (add binary64 (lit binary64 0.1) (lit binary64 0.2))
                  (lit binary64 0.3) = false
  /\ value (lit binary64 0.1) = (3602879701896397 # 36028797018963968)%Q.
Proof. vm_compute. repeat split. Qed.

(** On the sample report the validator finds nothing missing and reports
    completeness with the score 0.88. *)
Example validateCompleteness_report :
  let result :=
    validateCompleteness binary64 Samples.report Samples.reportQuery in
  isComplete result = true
  /\ completenessScore result = lit binary64 0.88
  /\ confidenceScore result = lit binary64 0.65
  /\ missingElements result = [].
Proof. vm_compute. repeat split. Qed.

(** On the borderline document the weighted sum is 0.7949999999999998 and
    its hundredfold 79.49999999999999: the score is 0.79, and the document
    is not complete. *)
Example validateCompleteness_borderline :
  let result :=
    validateCompleteness binary64 Samples.borderline Samples.borderlineQuery in
  isComplete result = false
  /\ completenessScore result = lit binary64 0.79
  /\ confidenceScore result = lit binary64 0.58
  /\ missingElements result
     = ["Missing import statements"; "Missing dependency information"].
Proof. vm_compute. repeat split. Qed.

Lemma analyzeFile_never_aborts_witness :
  readFails Samples.world "/project/src/gone.ts"
  /\ exists fileInfo st',
       analyzeFile Samples.world Samples.extractors "/project/src/gone.ts" initialState
       = (Ok fileInfo, st')
       /\ isEmptyRecord fileInfo.
Proof.
  assert (H : readFails Samples.world "/project/src/gone.ts").
  { left. eexists. reflexivity. }
  split; [exact H |].
  destruct (proj1 (analyzeFile_never_aborts Samples.world Samples.extractors
                     ["/project/src/app.ts"; "/project/src/gone.ts"] initialState)
                  "/project/src/gone.ts" H)
    as [fileInfo [st' [Hrun [_ [_ Hempty]]]]].
  exists fileInfo, st'. split; assumption.
Defined.

Lemma estimateTokenCount_is_ceiling_witness :
  (Z.of_nat (String.length "abcde") <= 4 * 2)%Z
  /\ (estimateTokenCount "abcde" <= 2)%Z.
Proof.
  assert (H : (Z.of_nat (String.length "abcde") <= 4 * 2)%Z) by (vm_compute; discriminate).
  split; [exact H |].
  exact (proj1 (proj2 (estimateTokenCount_is_ceiling "abcde")) 2%Z H).
Defined.

(* ================================================================== *)
(** * Further properties of the ranking                                *)
(* ================================================================== *)

Lemma toLowerCaseUnit_idempotent (c : ascii) :
  toLowerCaseUnit (toLowerCaseUnit c) = toLowerCaseUnit c.
Proof.
  destruct c as [[] [] [] [] [] [] [] []]; reflexivity.
Qed.

Lemma toLowerCase_idempotent (s : string) : toLowerCase (toLowerCase s) = toLowerCase s.
Proof.
  induction s as [| c s IH]; cbn; [reflexivity |].
  rewrite toLowerCaseUnit_idempotent, IH. reflexivity.
Qed.

Lemma stringForall_lower_fixed (s : string) :
  stringForall (fun c => Ascii.eqb (toLowerCaseUnit c) c) s = true -> toLowerCase s = s.
Proof.
  induction s as [| c s IH]; cbn; [reflexivity |].
  intros H. apply andb_true_iff in H. destruct H as [Hc Hs].
  apply Ascii.eqb_eq in Hc. rewrite Hc, (IH Hs). reflexivity.
Qed.

Lemma stringForall_toLowerCase (s : string) :
  stringForall (fun c => Ascii.eqb (toLowerCaseUnit c) c) (toLowerCase s) = true.
Proof.
  induction s as [| c s IH]; cbn; [reflexivity |].
  rewrite toLowerCaseUnit_idempotent, Ascii.eqb_refl. exact IH.
Qed.

(** The fields of a whitespace split consist of code units of the text and
    contain no blank. *)
Lemma splitWhitespaceFrom_fields (p : ascii -> bool) (inRun : bool) (s : string) :
  stringForall p s = true ->
  Forall (fun f => stringForall p f = true
                   /\ stringForall (fun c => negb (isWhiteSpace c)) f = true)
         (splitWhitespaceFrom inRun s).
Proof.
  revert inRun. induction s as [| c s IH]; intros inRun H; cbn [splitWhitespaceFrom].
  - constructor; [split; reflexivity | constructor].
  - cbn [stringForall] in H. apply andb_true_iff in H. destruct H as [Hc Hs].
    destruct (isWhiteSpace c) eqn:Hws.
    + destruct inRun; [apply IH; exact Hs |].
      constructor; [split; reflexivity | apply IH; exact Hs].
    + specialize (IH false Hs).
      destruct (splitWhitespaceFrom false s) as [| f fs]; cbn [consField].
      * constructor; [| constructor]. cbn. rewrite Hc, Hws. split; reflexivity.
      * inversion IH as [| ? ? [Hf1 Hf2] Hfs]; subst.
        constructor; [| exact Hfs]. cbn. rewrite Hc, Hws, Hf1, Hf2. split; reflexivity.
Qed.

(** X1. Every keyword derived from a query has at least three code units,
    contains no blank, and is in lower case. *)
Theorem keywordsOf_shape (query keyword : string) :
  In keyword (keywordsOf query) ->
  3 <= String.length keyword
  /\ stringForall (fun c => negb (isWhiteSpace c)) keyword = true
  /\ toLowerCase keyword = keyword.
Proof.
  unfold keywordsOf. intros H. apply filter_In in H. destruct H as [Hin Hlen].
  apply Nat.ltb_lt in Hlen.
  pose proof (splitWhitespaceFrom_fields _ false _ (stringForall_toLowerCase query)) as Hf.
  rewrite Forall_forall in Hf. destruct (Hf keyword Hin) as [Hlow Hws].
  split; [lia |]. split; [exact Hws |].
  apply stringForall_lower_fixed. exact Hlow.
Qed.

Lemma keywordsOf_shape_witness :
  In "ranker" (keywordsOf "Fix  the Ranker of it")
  /\ 3 <= String.length "ranker"
  /\ toLowerCase "ranker" = "ranker".
Proof.
  assert (H : In "ranker" (keywordsOf "Fix  the Ranker of it")).
  { cbn. right. right. left. reflexivity. }
  split; [exact H |].
  destruct (keywordsOf_shape "Fix  the Ranker of it" "ranker" H) as [Hlen [_ Hlow]].
  split; assumption.
Defined.

Section RankingOrder.

Variable E : RegExpEngine.

Lemma insertByScore_Permutation (x : Z * FileInfo) (l : list (Z * FileInfo)) :
  Permutation (insertByScore x l) (x :: l).
Proof.
  induction l as [| y l IH]; cbn; [apply Permutation_refl |].
  destruct (fst y <=? fst x)%Z; [apply Permutation_refl |].
  eapply Permutation_trans; [apply perm_skip; exact IH | apply perm_swap].
Qed.

Lemma sortByScore_Permutation (l : list (Z * FileInfo)) :
  Permutation (sortByScore l) l.
Proof.
  induction l as [| x l IH]; cbn; [constructor |].
  eapply Permutation_trans; [apply insertByScore_Permutation |].
  apply perm_skip. exact IH.
Qed.

Lemma insertByScore_sorted (x : Z * FileInfo) (l : list (Z * FileInfo)) :
  StronglySorted (fun a b => (fst b <= fst a)%Z) l ->
  StronglySorted (fun a b => (fst b <= fst a)%Z) (insertByScore x l).
Proof.
  induction 1 as [| y l Hl IH Hy]; cbn.
  - constructor; constructor.
  - destruct (fst y <=? fst x)%Z eqn:Hc.
    + apply Z.leb_le in Hc. constructor; [constructor; assumption |].
      constructor; [exact Hc |].
      eapply Forall_impl; [| exact Hy]. cbn. intros z Hz. lia.
    + apply Z.leb_gt in Hc. constructor; [exact IH |].
      eapply Permutation_Forall; [apply Permutation_sym, insertByScore_Permutation |].
      constructor; [lia | exact Hy].
Qed.

Lemma sortByScore_sorted (l : list (Z * FileInfo)) :
  StronglySorted (fun a b => (fst b <= fst a)%Z) (sortByScore l).
Proof.
  induction l as [| x l IH]; cbn; [constructor |].
  apply insertByScore_sorted. exact IH.
Qed.

(** Entries of one score keep the order they had. *)
Lemma insertByScore_stable (k : Z) (x : Z * FileInfo) (l : list (Z * FileInfo)) :
  filter (fun y => (fst y =? k)%Z) (insertByScore x l)
  = filter (fun y => (fst y =? k)%Z) (x :: l).
Proof.
  induction l as [| y l IH]; [reflexivity |].
  cbn [insertByScore].
  destruct (fst y <=? fst x)%Z eqn:Hc; [reflexivity |].
  apply Z.leb_gt in Hc.
  cbn [filter] in *. rewrite IH.
  destruct (fst x =? k)%Z eqn:Hx; destruct (fst y =? k)%Z eqn:Hy; try reflexivity.
  apply Z.eqb_eq in Hx. apply Z.eqb_eq in Hy. lia.
Qed.

Lemma sortByScore_stable (k : Z) (l : list (Z * FileInfo)) :
  filter (fun y => (fst y =? k)%Z) (sortByScore l)
  = filter (fun y => (fst y =? k)%Z) l.
Proof.
  induction l as [| x l IH]; [reflexivity |].
  cbn [sortByScore]. rewrite insertByScore_stable. cbn [filter]. rewrite IH. reflexivity.
Qed.

(** The scored list pairs every file with its score, in order. *)
Lemma mapM_scored (keywords : list string) (files : list FileInfo)
      (scored : list (Z * FileInfo)) :
  mapM (fun f => s <- calculateRelevanceScore E f keywords ;; Ok (s, f)) files = Ok scored ->
  map snd scored = files
  /\ Forall (fun x => calculateRelevanceScore E (snd x) keywords = Ok (fst x)) scored.
Proof.
  revert scored. induction files as [| f files IH]; cbn [mapM]; intros scored H.
  - injection H as <-. split; constructor.
  - destruct (calculateRelevanceScore E f keywords) as [s |] eqn:Hs; cbn [bind] in H;
      [| discriminate].
    destruct (mapM _ files) as [rest |]; cbn [bind] in H; [| discriminate].
    injection H as <-. destruct (IH rest eq_refl) as [Hmap Hall].
    split; [cbn; rewrite Hmap; reflexivity |].
    constructor; [exact Hs | exact Hall].
Qed.

Lemma StronglySorted_map_snd (keywords : list string) (l : list (Z * FileInfo)) :
  Forall (fun x => calculateRelevanceScore E (snd x) keywords = Ok (fst x)) l ->
  StronglySorted (fun a b => (fst b <= fst a)%Z) l ->
  StronglySorted (outranks E keywords) (map snd l).
Proof.
  intros Hall Hsorted. induction Hsorted as [| x l Hl IH Hx]; cbn; [constructor |].
  inversion Hall as [| ? ? Hxs Hls]; subst.
  constructor; [apply IH; exact Hls |].
  apply Forall_forall. intros f Hf. apply in_map_iff in Hf.
  destruct Hf as [y [<- Hy]].
  rewrite Forall_forall in Hx, Hls.
  exists (fst x), (fst y). split; [exact Hxs |]. split; [apply Hls; exact Hy |].
  apply Hx. exact Hy.
Qed.

Lemma filter_map_snd_scored (keywords : list string) (k : Z) (l : list (Z * FileInfo)) :
  Forall (fun x => calculateRelevanceScore E (snd x) keywords = Ok (fst x)) l ->
  filter (hasScore E keywords k) (map snd l)
  = map snd (filter (fun y => (fst y =? k)%Z) l).
Proof.
  induction 1 as [| x l Hx Hl IH]; [reflexivity |].
  cbn [map filter]. unfold hasScore at 1. rewrite Hx, IH.
  destruct (fst x =? k)%Z; reflexivity.
Qed.

(** What [sort] with the score comparator returns: the same files, highest
    score first, files of equal score in their previous order. *)
Lemma sortByRelevance_spec (files : list FileInfo) (keywords : list string)
      (sorted : list FileInfo) :
  sortByRelevance E files keywords = Ok sorted ->
  Permutation sorted files
  /\ StronglySorted (outranks E keywords) sorted
  /\ (forall k, filter (hasScore E keywords k) sorted
                = filter (hasScore E keywords k) files).
Proof.
  unfold sortByRelevance.
  destruct (List.length files <? 2)%nat eqn:Hlen.
  - intros H. injection H as <-. apply Nat.ltb_lt in Hlen.
    split; [apply Permutation_refl |]. split; [| reflexivity].
    destruct files as [| f [| g files]]; cbn [List.length] in Hlen;
      [constructor | repeat constructor | lia].
  - destruct (mapM _ files) as [scored |] eqn:Hs; cbn [bind]; [| discriminate].
    intros H. injection H as <-.
    destruct (mapM_scored _ _ Hs) as [Hmap Hall].
    assert (Hall' : Forall (fun x => calculateRelevanceScore E (snd x) keywords
                                     = Ok (fst x)) (sortByScore scored)).
    { eapply Permutation_Forall; [apply Permutation_sym, sortByScore_Permutation |].
      exact Hall. }
    split; [| split].
    + rewrite <- Hmap. apply Permutation_map. apply sortByScore_Permutation.
    + apply StronglySorted_map_snd; [exact Hall' |].
      apply sortByScore_sorted.
    + intros k. rewrite (@filter_map_snd_scored keywords k _ Hall').
      rewrite sortByScore_stable, <- (@filter_map_snd_scored keywords k _ Hall), Hmap.
      reflexivity.
Qed.

Lemma StronglySorted_firstn {A : Type} (R : A -> A -> Prop) (n : nat) (l : list A) :
  StronglySorted R l -> StronglySorted R (firstn n l).
Proof.
  intros H. revert n. induction H as [| x l Hl IH Hx]; intros [| n]; cbn;
    try constructor.
  - apply IH.
  - apply Forall_firstn. exact Hx.
Qed.

(** In a sorted list every entry of a prefix is related to every entry of
    the rest. *)
Lemma StronglySorted_prefix_suffix {A : Type} (R : A -> A -> Prop) (n : nat)
      (l : list A) :
  StronglySorted R l ->
  forall x y, In x (firstn n l) -> In y (skipn n l) -> R x y.
Proof.
  intros H. revert n. induction H as [| a l Hl IH Ha]; intros [| n] x y Hx Hy;
    cbn [firstn skipn] in *; try destruct Hx.
  - subst x. rewrite Forall_forall in Ha. apply Ha.
    rewrite <- (firstn_skipn n l). apply in_or_app. right. exact Hy.
  - apply (IH n); assumption.
Qed.

(** A returned ranking is a prefix of a rearrangement of the candidates. *)
Lemma findRelevantFiles_ranking (allFiles : list FileInfo) (query : string)
      (scope : option string) (ranked : list FileInfo) :
  findRelevantFiles E allFiles query scope = Ok ranked ->
  exists sorted,
    ranked = firstn 20 sorted
    /\ Permutation sorted (applyScope scope (candidateFiles allFiles (keywordsOf query))).
Proof.
  unfold findRelevantFiles.
  destruct (sortByRelevance E _ _) as [sorted |] eqn:Hs; cbn [bind]; [| discriminate].
  intros H. exists sorted.
  split; [unfold slice0 in H; congruence |].
  apply (sortByRelevance_spec _ _ Hs).
Qed.

(** C9, as the code has it.  The fallback criterion reads the lower-cased
    relative path.  When no file satisfies the relevance predicate, the
    candidate set is the fallback set: the first 10, in original order, of
    the primary-language files that have "index" or "main" in the lower-cased
    relative path or a function or a class.  A ranking that is returned then
    consists of exactly the fallback files that meet the scope, by
    decreasing score, files of equal score in their original order.  Whatever
    the input, a ranking that is returned has at most 20 entries, and one is
    returned whenever every keyword is accepted by the regular-expression
    constructor. *)
Theorem findRelevantFiles_fallback_and_cap
        (allFiles : list FileInfo) (query : string) (scope : option string) :
  let keywords := keywordsOf query in
  let fallback := firstn 10 (filter isMainFile allFiles) in
  (forall f, isMainFile f = true <-> isMainCandidate f)
  /\ ((forall f, In f allFiles -> isRelevant keywords f = false) ->
      Subsequence fallback allFiles
      /\ Forall isMainCandidate fallback
      /\ List.length fallback <= 10
      /\ forall ranked,
           findRelevantFiles E allFiles query scope = Ok ranked ->
           Permutation ranked (applyScope scope fallback)
           /\ StronglySorted (outranks E keywords) ranked
           /\ (forall k, filter (hasScore E keywords k) ranked
                         = filter (hasScore E keywords k) (applyScope scope fallback)))
  /\ (forall ranked,
        findRelevantFiles E allFiles query scope = Ok ranked ->
        List.length ranked <= 20)
  /\ ((forall k, In k keywords -> exists re, newRegExp E k = Ok re) ->
      exists ranked, findRelevantFiles E allFiles query scope = Ok ranked).
Proof.
  cbv zeta. split; [| split; [| split]].
  - intros f. split; [apply isMainFile_candidate | apply isMainCandidate_file].
  - intros Hnone.
    assert (Hcandidates : candidateFiles allFiles (keywordsOf query)
                          = firstn 10 (filter isMainFile allFiles)).
    { unfold candidateFiles. rewrite (filter_none _ _ Hnone). reflexivity. }
    destruct (fallbackFiles_spec allFiles) as [Hsub [Hmain Hlen]].
    unfold fallbackFiles, slice0 in Hsub, Hmain, Hlen.
    split; [exact Hsub |]. split; [exact Hmain |]. split; [exact Hlen |].
    intros ranked H. unfold findRelevantFiles in H. cbv zeta in H.
    rewrite Hcandidates in H.
    destruct (sortByRelevance E _ _) as [sorted |] eqn:Hs; cbn [bind] in H;
      [| discriminate].
    destruct (sortByRelevance_spec _ _ Hs) as [Hperm [Hsorted Hstable]].
    assert (Hr : ranked = sorted).
    { assert (Hall : firstn 20 sorted = sorted).
      { apply firstn_all2. rewrite (Permutation_length Hperm).
        pose proof (length_applyScope scope (firstn 10 (filter isMainFile allFiles))).
        lia. }
      unfold slice0 in H. congruence. }
    subst ranked. split; [exact Hperm |]. split; [exact Hsorted | exact Hstable].
  - intros ranked H.
    destruct (findRelevantFiles_ranking _ _ _ H) as [sorted [-> _]].
    apply firstn_le_length.
  - intros Hok. unfold findRelevantFiles.
    destruct (sortByRelevance_total E
                (applyScope scope (candidateFiles allFiles (keywordsOf query)))
                (keywordsOf query) Hok) as [sorted Hs].
    rewrite Hs. cbn [bind]. eexists. reflexivity.
Qed.

(** X2. A ranking that is returned lists the candidates (after scope
    filtering) by decreasing relevance score: all the candidates are
    rearranged so that no file is followed by one of higher score and files
    of equal score keep their original order, and the ranking is the first
    20 entries of that rearrangement.  So the ranking holds the files of
    highest score, and is itself in that order. *)
Theorem findRelevantFiles_ordered (allFiles : list FileInfo) (query : string)
        (scope : option string) (ranked : list FileInfo) :
  findRelevantFiles E allFiles query scope = Ok ranked ->
  let keywords := keywordsOf query in
  let candidates := applyScope scope (candidateFiles allFiles keywords) in
  exists sorted,
    ranked = firstn 20 sorted
    /\ Permutation sorted candidates
    /\ StronglySorted (outranks E keywords) sorted
    /\ (forall k, filter (hasScore E keywords k) sorted
                  = filter (hasScore E keywords k) candidates)
    /\ StronglySorted (outranks E keywords) ranked
    /\ (forall f g, In f ranked -> In g (skipn 20 sorted) ->
                    outranks E keywords f g).
Proof.
  unfold findRelevantFiles.
  destruct (sortByRelevance E _ _) as [sorted |] eqn:Hs; cbn [bind]; [| discriminate].
  intros H. cbv zeta.
  assert (Hr : ranked = firstn 20 sorted) by (unfold slice0 in H; congruence).
  destruct (sortByRelevance_spec _ _ Hs) as [Hperm [Hsorted Hstable]].
  exists sorted. split; [exact Hr |]. split; [exact Hperm |].
  split; [exact Hsorted |]. split; [exact Hstable |]. split.
  - rewrite Hr. apply StronglySorted_firstn. exact Hsorted.
  - rewrite Hr. apply StronglySorted_prefix_suffix. exact Hsorted.
Qed.

Lemma applyScope_spec (scope : option string) (files : list FileInfo) (f : FileInfo) :
  In f (applyScope scope files) -> In f files /\ withinScope scope f.
Proof.
  unfold applyScope, withinScope. destruct scope as [s |].
  - destruct (String.eqb s "function") eqn:Hf.
    + intros H. apply filter_In in H. destruct H as [Hin Hlen].
      apply String.eqb_eq in Hf. subst s.
      split; [exact Hin |]. split; [| discriminate].
      intros _ Hnil. rewrite Hnil in Hlen. discriminate.
    + destruct (String.eqb s "class") eqn:Hc.
      * intros H. apply filter_In in H. destruct H as [Hin Hlen].
        apply String.eqb_eq in Hc. subst s.
        split; [exact Hin |]. split; [discriminate |].
        intros _ Hnil. rewrite Hnil in Hlen. discriminate.
      * intros H. split; [exact H |].
        split; intros Heq; injection Heq as ->; discriminate.
  - intros H. split; [exact H |]. split; discriminate.
Qed.

Lemma candidateFiles_spec (allFiles : list FileInfo) (keywords : list string) (f : FileInfo) :
  In f (candidateFiles allFiles keywords) ->
  In f allFiles /\ isPrimaryLanguage f = true.
Proof.
  unfold candidateFiles.
  destruct (List.length (filter (isRelevant keywords) allFiles) =? 0)%nat.
  - unfold fallbackFiles, slice0. intros H.
    apply (@Subsequence_In _ _ _ f (Subsequence_firstn 10 _)) in H.
    apply filter_In in H. destruct H as [Hin Hmain].
    split; [exact Hin |]. unfold isMainFile in Hmain.
    apply andb_true_iff in Hmain. tauto.
  - intros H. apply filter_In in H. destruct H as [Hin Hrel].
    split; [exact Hin |]. unfold isRelevant in Hrel.
    destruct (isPrimaryLanguage f); [reflexivity | discriminate].
Qed.

(** X3. Every file of a returned ranking is one of the given files, is
    written in TypeScript or JavaScript, and meets the scope: with scope
    "function" it has a function, with scope "class" a class. *)
Theorem findRelevantFiles_members (allFiles : list FileInfo) (query : string)
        (scope : option string) (ranked : list FileInfo) :
  findRelevantFiles E allFiles query scope = Ok ranked ->
  Forall (fun f => In f allFiles
                   /\ (language f = typescript \/ language f = javascript)
                   /\ withinScope scope f)
         ranked.
Proof.
  intros H. destruct (findRelevantFiles_ranking _ _ _ H) as [sorted [Hr Hperm]].
  apply Forall_forall. intros f Hf.
  rewrite Hr in Hf. apply (@Subsequence_In _ _ _ f (Subsequence_firstn 20 _)) in Hf.
  apply (Permutation_in _ Hperm) in Hf.
  apply applyScope_spec in Hf. destruct Hf as [Hcand Hscope].
  apply candidateFiles_spec in Hcand. destruct Hcand as [Hin Hlang].
  split; [exact Hin |]. split; [| exact Hscope].
  unfold isPrimaryLanguage in Hlang.
  destruct (language f); try discriminate; auto.
Qed.

(** X4. As soon as one file satisfies the relevance predicate, the fallback
    set is not used: every file of a returned ranking satisfies the
    predicate. *)
Theorem findRelevantFiles_only_relevant (allFiles : list FileInfo) (query : string)
        (scope : option string) (ranked : list FileInfo) :
  (exists f, In f allFiles /\ isRelevant (keywordsOf query) f = true) ->
  findRelevantFiles E allFiles query scope = Ok ranked ->
  Forall (fun f => isRelevant (keywordsOf query) f = true) ranked.
Proof.
  intros [f0 [Hin0 Hrel0]] H.
  destruct (findRelevantFiles_ranking _ _ _ H) as [sorted [Hr Hperm]].
  apply Forall_forall. intros f Hf.
  rewrite Hr in Hf. apply (@Subsequence_In _ _ _ f (Subsequence_firstn 20 _)) in Hf.
  apply (Permutation_in _ Hperm) in Hf.
  apply applyScope_spec in Hf. destruct Hf as [Hcand _].
  unfold candidateFiles in Hcand.
  assert (Hne : In f0 (filter (isRelevant (keywordsOf query)) allFiles)).
  { apply filter_In. split; assumption. }
  destruct (filter (isRelevant (keywordsOf query)) allFiles) as [| g gs] eqn:Hfilter;
    [destruct Hne |].
  cbn [List.length Nat.eqb] in Hcand. rewrite <- Hfilter in Hcand.
  apply filter_In in Hcand. tauto.
Qed.

End RankingOrder.

Lemma findRelevantFiles_fallback_witness :
  (forall f, In f [Samples.appFile; Samples.utilFile] ->
             isRelevant (keywordsOf "zebra") f = false)
  /\ findRelevantFiles DotRegExp.engine [Samples.appFile; Samples.utilFile] "zebra" None
     = Ok [Samples.utilFile]
  /\ Permutation [Samples.utilFile]
                 (applyScope None
                    (firstn 10 (filter isMainFile [Samples.appFile; Samples.utilFile]))).
Proof.
  assert (Hnone : forall f, In f [Samples.appFile; Samples.utilFile] ->
                            isRelevant (keywordsOf "zebra") f = false).
  { intros f [<- | [<- | []]]; reflexivity. }
  assert (Hrun : findRelevantFiles DotRegExp.engine [Samples.appFile; Samples.utilFile]
                   "zebra" None = Ok [Samples.utilFile]) by reflexivity.
  split; [exact Hnone |]. split; [exact Hrun |].
  pose proof (findRelevantFiles_fallback_and_cap DotRegExp.engine
                [Samples.appFile; Samples.utilFile] "zebra" None) as [_ [Hfb _]].
  destruct (Hfb Hnone) as [_ [_ [_ Hranked]]].
  exact (proj1 (Hranked _ Hrun)).
Defined.

(** C9 as the specification words it fails for a file whose name is
    capitalised: [src/Main.ts] has neither "index" nor "main" in its path
    (relative or absolute) and neither a function nor a class, and yet it is
    in the fallback set, which reads the lower-cased relative path. *)
Lemma fallback_path_counterexample :
  let f := Samples.sourceFile "src/Main.ts" typescript "" in
  (forall g, In g [f] -> isRelevant (keywordsOf "zebra") g = false)
  /\ candidateFiles [f] (keywordsOf "zebra") = [f]
  /\ findRelevantFiles DotRegExp.engine [f] "zebra" None = Ok [f]
  /\ includes (relativePath f) "index" = false
  /\ includes (relativePath f) "main" = false
  /\ includes (path f) "index" = false
  /\ includes (path f) "main" = false
  /\ functions f = []
  /\ classes f = [].
Proof.
  cbv zeta. split; [intros g [<- | []]; reflexivity |]. repeat split.
Qed.

Lemma findRelevantFiles_ordered_witness :
  findRelevantFiles DotRegExp.engine [Samples.appFile; Samples.utilFile] "util src" None
  = Ok [Samples.utilFile; Samples.appFile]
  /\ StronglySorted (outranks DotRegExp.engine (keywordsOf "util src"))
                    [Samples.utilFile; Samples.appFile].
Proof.
  assert (H : findRelevantFiles DotRegExp.engine [Samples.appFile; Samples.utilFile]
                "util src" None
              = Ok [Samples.utilFile; Samples.appFile]) by reflexivity.
  split; [exact H |].
  destruct (findRelevantFiles_ordered DotRegExp.engine _ _ _ H)
    as [sorted [_ [_ [_ [_ [Hranked _]]]]]].
  exact Hranked.
Defined.

Lemma findRelevantFiles_members_witness :
  findRelevantFiles DotRegExp.engine [Samples.appFile; Samples.utilFile] "util src"
    (Some "function")
  = Ok [Samples.utilFile]
  /\ Forall (fun f => In f [Samples.appFile; Samples.utilFile]
                      /\ (language f = typescript \/ language f = javascript)
                      /\ withinScope (Some "function") f)
            [Samples.utilFile].
Proof.
  assert (H : findRelevantFiles DotRegExp.engine [Samples.appFile; Samples.utilFile]
                "util src" (Some "function")
              = Ok [Samples.utilFile]) by reflexivity.
  split; [exact H |].
  exact (findRelevantFiles_members DotRegExp.engine _ _ _ H).
Defined.

Lemma findRelevantFiles_only_relevant_witness :
  (exists f, In f [Samples.appFile; Samples.utilFile]
             /\ isRelevant (keywordsOf "helper") f = true)
  /\ findRelevantFiles DotRegExp.engine [Samples.appFile; Samples.utilFile] "helper" None
     = Ok [Samples.utilFile]
  /\ Forall (fun f => isRelevant (keywordsOf "helper") f = true) [Samples.utilFile].
Proof.
  assert (Hex : exists f, In f [Samples.appFile; Samples.utilFile]
                          /\ isRelevant (keywordsOf "helper") f = true).
  { exists Samples.utilFile. split; [right; left; reflexivity | reflexivity]. }
  assert (H : findRelevantFiles DotRegExp.engine [Samples.appFile; Samples.utilFile]
                "helper" None
              = Ok [Samples.utilFile]) by reflexivity.
  split; [exact Hex |]. split; [exact H |].
  exact (findRelevantFiles_only_relevant DotRegExp.engine _ _ _ Hex H).
Defined.

(* ================================================================== *)
(** * Further properties of the request pipeline                       *)
(* ================================================================== *)

Lemma detectPrimaryLanguage_empty :
  detectPrimaryLanguage []
  = Throw (TypeError "Reduce of empty array with no initial value").
Proof. reflexivity. Qed.

Lemma countLanguage_nonempty (l : Language) (counts : list (Language * Z)) :
  countLanguage l counts <> [].
Proof.
  destruct counts as [| [k n] rest]; cbn; [discriminate |].
  destruct (Language_eqb k l); discriminate.
Qed.

Lemma languageCount_nonempty (files : list FileInfo) (counts : list (Language * Z)) :
  counts <> [] ->
  fold_left (fun counts f => countLanguage (language f) counts) files counts <> [].
Proof.
  revert counts. induction files as [| f files IH]; intros counts H; cbn [fold_left].
  - exact H.
  - apply IH. apply countLanguage_nonempty.
Qed.

(** The majority vote throws exactly on an empty ranking. *)
Lemma detectPrimaryLanguage_returns (files : list FileInfo) :
  files <> [] -> exists name, detectPrimaryLanguage files = Ok name.
Proof.
  intros H. destruct files as [| f files]; [contradiction |].
  unfold detectPrimaryLanguage. cbn [fold_left].
  pose proof (@languageCount_nonempty files (countLanguage (language f) [])
                                      (@countLanguage_nonempty _ _)) as Hne.
  destruct (fold_left _ files _) as [| first rest]; [contradiction |].
  eexists. reflexivity.
Qed.

Section PipelineRuns.

Variable W : World.
Variable X : Extractors.
Variable E : RegExpEngine.
Variable P : Platform.
Variable R : Renderer.

(** X5. When the project root is accepted and the ranking selects no file,
    the request ends in the error response: the majority vote over the
    languages of an empty ranking throws, so the "no relevant files"
    document of the formatter is never what the caller receives. *)
Theorem buildCompleteContext_empty_ranking (options : Options) (st st1 : State)
        (v : Validation) :
  validateProjectRoot P (opt_projectRoot options) = Ok v ->
  valid v = true ->
  indexProject W X (normalizedPath v) st = (Ok tt, st1) ->
  findRelevantFiles E (cacheValues (cache st1)) (query options) (scope options) = Ok [] ->
  exists response,
    buildCompleteContext W X E P R options st = (Ok response, st1)
    /\ isErrorResponse response.
Proof.
  intros Hv Hvalid Hindex Hrank.
  unfold buildCompleteContext, tryCatchM, buildCompleteContextBody.
  unfold bindM at 1, lift at 1. rewrite Hv, Hvalid. cbn [negb].
  unfold bindM at 1. rewrite Hindex.
  unfold bindM at 1, getAllFiles at 1.
  unfold bindM at 1, lift at 1. rewrite Hrank.
  unfold bindM at 1, lift at 1.
  destruct (analyzeUsagePatterns R _ _) as [patterns | e].
  - unfold bindM at 1, lift at 1.
    destruct (formatContextForFiles R _ _ _ _ _) as [text | e].
    + unfold bindM at 1, lift at 1. rewrite detectPrimaryLanguage_empty.
      eexists. split; [reflexivity | apply errorResponse_isErrorResponse].
    + eexists. split; [reflexivity | apply errorResponse_isErrorResponse].
  - eexists. split; [reflexivity | apply errorResponse_isErrorResponse].
Qed.

Lemma findRelevantFiles_length (allFiles : list FileInfo) (query : string)
      (scope : option string) (ranked : list FileInfo) :
  findRelevantFiles E allFiles query scope = Ok ranked -> List.length ranked <= 20.
Proof.
  unfold findRelevantFiles.
  destruct (sortByRelevance E _ _) as [sorted |]; cbn [bind]; [| discriminate].
  intros H. replace ranked with (firstn 20 sorted) by (unfold slice0 in H; congruence).
  apply firstn_le_length.
Qed.

(** X6. A response built from an accepted project root is consistent with
    itself: it names between 1 and 20 files, [metadata.totalFiles] is their
    number and the number of graph nodes, and both token fields are the
    estimate of the returned document.  Compression is applied exactly when
    [maxTokens] is a number other than 0 that is smaller than the estimate
    of the formatted document: then the level is "compressed" and the
    document is the compressed one.  Otherwise, in particular without
    [maxTokens] or with [maxTokens = 0], the document is the formatted one
    and the level is the requested completeness (default "full"). *)
Theorem buildCompleteContext_success (options : Options) (st st' : State)
        (v : Validation) (response : Response) :
  validateProjectRoot P (opt_projectRoot options) = Ok v ->
  valid v = true ->
  buildCompleteContextBody W X E P R options st = (Ok response, st') ->
  let requested :=
    match completeness options with
    | Some c => if String.eqb c "" then "full" else c
    | None => "full"
    end in
  1 <= List.length (filesIncluded response) <= 20
  /\ totalFiles (metadata response) = Z.of_nat (List.length (filesIncluded response))
  /\ map node_id (nodes (dependencyGraph response)) = filesIncluded response
  /\ tokenCount response = estimateTokenCount (formattedContext response)
  /\ estimatedTokens (metadata response) = tokenCount response
  /\ resp_totalLines response = totalLines (metadata response)
  /\ exists text,
       (exists files patterns,
          formatContextForFiles R files (dependencyGraph response) patterns
            (query options) (folderTree response) = Ok text
          /\ filesIncluded response = map relativePath files)
       /\ (forall limit,
             maxTokens options = Some limit ->
             limit <> 0%Z -> (limit < estimateTokenCount text)%Z ->
             compressionLevel response = "compressed"
             /\ formattedContext response = intelligentCompression text limit)
       /\ (maxTokens options = None
           \/ maxTokens options = Some 0%Z
           \/ (exists limit, maxTokens options = Some limit
                             /\ (estimateTokenCount text <= limit)%Z) ->
           compressionLevel response = requested
           /\ formattedContext response = text).
Proof.
  intros Hv Hvalid.
  unfold buildCompleteContextBody.
  unfold bindM at 1, lift at 1. rewrite Hv, Hvalid. cbn [negb].
  unfold bindM at 1. destruct (indexProject W X _ st) as [[[] | e] st1]; [| discriminate].
  unfold bindM at 1, getAllFiles at 1.
  unfold bindM at 1, lift at 1.
  destruct (findRelevantFiles E _ _ _) as [relevantFiles | e] eqn:Hrank; [| discriminate].
  unfold bindM at 1, lift at 1.
  destruct (analyzeUsagePatterns R _ _) as [patterns | e]; [| discriminate].
  unfold bindM at 1, lift at 1.
  destruct (formatContextForFiles R _ _ _ _ _) as [text | e] eqn:Hformat; [| discriminate].
  unfold bindM at 1, lift at 1.
  destruct (detectPrimaryLanguage relevantFiles) as [primary | e] eqn:Hprimary;
    [| discriminate].
  unfold bindM at 1, lift at 1.
  destruct (generateContextSummary R _ _ _) as [summaryText | e]; [| discriminate].
  unfold ret. intros H. injection H as <- _. cbv zeta.
  cbn [filesIncluded metadata totalFiles dependencyGraph tokenCount formattedContext
       estimatedTokens resp_totalLines totalLines compressionLevel folderTree].
  rewrite length_map.
  split; [| split; [| split; [| split; [| split; [| split]]]]];
    try reflexivity.
  - split.
    + destruct relevantFiles; [discriminate | cbn; lia].
    + eapply findRelevantFiles_length. exact Hrank.
  - apply buildDependencyGraph_node_ids.
  - exists text. split; [| split].
    + exists relevantFiles, patterns. split; [exact Hformat | reflexivity].
    + intros limit Hlimit Hne Hlt. rewrite Hlimit.
      apply Z.eqb_neq in Hne. apply Z.ltb_lt in Hlt. rewrite Hne, Hlt.
      split; reflexivity.
    + intros [Hnone | [Hzero | [limit [Hlimit Hle]]]].
      * rewrite Hnone. split; reflexivity.
      * rewrite Hzero. split; reflexivity.
      * rewrite Hlimit. apply Z.ltb_ge in Hle. rewrite Hle, andb_false_r.
        split; reflexivity.
Qed.

End PipelineRuns.

Lemma buildCompleteContext_empty_ranking_witness :
  exists st1 response,
    indexProject Samples.world Samples.extractors "/project" initialState = (Ok tt, st1)
    /\ findRelevantFiles DotRegExp.engine (cacheValues (cache st1)) "ranking" None = Ok []
    /\ buildCompleteContext Samples.world Samples.extractors DotRegExp.engine
         Samples.acceptingPlatform Samples.renderer Samples.request initialState
       = (Ok response, st1)
    /\ isErrorResponse response.
Proof.
  eexists.
  assert (Hindex : indexProject Samples.world Samples.extractors "/project" initialState
                   = (Ok tt, _)) by reflexivity.
  assert (Hrank : findRelevantFiles DotRegExp.engine
                    (cacheValues (cache (snd (indexProject Samples.world
                                                Samples.extractors "/project"
                                                initialState))))
                    "ranking" None = Ok []) by reflexivity.
  destruct (@buildCompleteContext_empty_ranking Samples.world Samples.extractors
              DotRegExp.engine Samples.acceptingPlatform Samples.renderer
              Samples.request initialState _ _ eq_refl eq_refl Hindex Hrank)
    as [response [Hrun Herr]].
  exists response. split; [exact Hindex |]. split; [exact Hrank |].
  split; [exact Hrun | exact Herr].
Defined.

Lemma buildCompleteContext_success_witness :
  exists response st',
    buildCompleteContextBody Samples.world Samples.extractors DotRegExp.engine
      Samples.acceptingPlatform Samples.renderer Samples.appRequest initialState
    = (Ok response, st')
    /\ filesIncluded response = ["src/app.ts"]
    /\ compressionLevel response = "compressed"
    /\ tokenCount response = estimateTokenCount (formattedContext response).
Proof.
  destruct (buildCompleteContextBody Samples.world Samples.extractors DotRegExp.engine
              Samples.acceptingPlatform Samples.renderer Samples.appRequest initialState)
    as [[response | e] st'] eqn:Hrun.
  - exists response, st'. split; [reflexivity |].
    pose proof Hrun as Hvalue. vm_compute in Hvalue.
    split; [injection Hvalue as <- _; reflexivity |].
    split; [injection Hvalue as <- _; reflexivity |].
    exact (proj1 (proj2 (proj2 (proj2
             (@buildCompleteContext_success Samples.world Samples.extractors
                DotRegExp.engine Samples.acceptingPlatform Samples.renderer
                Samples.appRequest initialState st' _ response eq_refl eq_refl Hrun))))).
  - vm_compute in Hrun. discriminate.
Defined.

(* ================================================================== *)
(** * Further properties of the analyzer cache                         *)
(* ================================================================== *)

Lemma cacheSet_keys_present (k : string) (v : FileInfo) (c : Cache) :
  In k (map fst c) -> map fst (cacheSet k v c) = map fst c.
Proof.
  induction c as [| [k' v'] c IH]; cbn; [intros [] |].
  destruct (String.eqb k' k) eqn:Hk.
  - apply String.eqb_eq in Hk. subst k'. reflexivity.
  - intros [Heq | Hin].
    + apply String.eqb_neq in Hk. contradiction.
    + cbn. rewrite (IH Hin). reflexivity.
Qed.

Lemma cacheGet_None_keys (k : string) (c : Cache) :
  cacheGet k c = None <-> ~ In k (map fst c).
Proof.
  induction c as [| [k' v'] c IH]; cbn; [tauto |].
  destruct (String.eqb k' k) eqn:Hk.
  - apply String.eqb_eq in Hk. split; [discriminate | intros H; exfalso; auto].
  - apply String.eqb_neq in Hk. rewrite IH. tauto.
Qed.

Section CacheProperties.

Variable W : World.
Variable X : Extractors.

Lemma analyzeFile_state (filePath : string) (st : State) :
  exists fileInfo,
    analyzeFile W X filePath st
    = (Ok fileInfo,
       {| cache := cacheSet filePath fileInfo (cache st);
          projectRoot := projectRoot st |})
    /\ path fileInfo = filePath
    /\ relativePath fileInfo = path_relative W (projectRoot st) filePath.
Proof.
  unfold analyzeFile, tryCatchM, bindM, lift, getProjectRoot, cache_set, ret.
  destruct (fs_stat W filePath) as [stats | e1];
    [destruct (fs_readFile W filePath) as [text | e2] |];
    eexists; (split; [reflexivity | split; reflexivity]).
Qed.

(** A batch touches the entries of its own paths only, and keeps the cached
    paths in their order when all of its paths are cached already. *)
Lemma promiseAll_analyzeFile_cache (files : list string) (st : State) :
  exists infos st',
    promiseAll (analyzeFile W X) files st = (Ok infos, st')
    /\ projectRoot st' = projectRoot st
    /\ (forall p, ~ In p files -> cacheGet p (cache st') = cacheGet p (cache st))
    /\ (forall p, In p files ->
          exists fileInfo,
            cacheGet p (cache st') = Some fileInfo
            /\ path fileInfo = p
            /\ relativePath fileInfo = path_relative W (projectRoot st) p)
    /\ ((forall p, In p files -> In p (map fst (cache st))) ->
        map fst (cache st') = map fst (cache st)).
Proof.
  revert st. induction files as [| f files IH]; intros st.
  - exists [], st. cbn. repeat split; auto. intros p [].
  - destruct (analyzeFile_state f st) as [fi [Hrun [Hpath Hrel]]].
    set (st1 := {| cache := cacheSet f fi (cache st); projectRoot := projectRoot st |}) in *.
    destruct (IH st1) as [infos [st' [Hrest [Hroot [Hframe [Hall Hkeys]]]]]].
    exists (fi :: infos), st'.
    split; [| split; [| split; [| split]]].
    + cbn [promiseAll]. unfold bindM at 1. rewrite Hrun.
      unfold bindM at 1. rewrite Hrest. reflexivity.
    + rewrite Hroot. reflexivity.
    + intros p Hnot. rewrite Hframe by (intros Hin; apply Hnot; right; exact Hin).
      subst st1. cbn [cache]. apply cacheGet_cacheSet_neq.
      intros Heq. apply Hnot. left. symmetry. exact Heq.
    + intros p Hin.
      destruct (in_dec string_dec p files) as [Hlater | Hnot].
      * destruct (Hall p Hlater) as [v [Hget [Hv Hvrel]]].
        exists v. repeat split; assumption.
      * destruct Hin as [Heq | Hin]; [| contradiction]. subst p.
        exists fi. split; [| split; assumption].
        rewrite Hframe by exact Hnot.
        subst st1. cbn [cache]. apply cacheGet_cacheSet_eq.
    + intros Hcached.
      assert (Hf : In f (map fst (cache st))) by (apply Hcached; left; reflexivity).
      rewrite Hkeys.
      * subst st1. cbn [cache]. apply cacheSet_keys_present. exact Hf.
      * intros p Hp. subst st1. cbn [cache].
        rewrite cacheSet_keys_present by exact Hf.
        apply Hcached. right. exact Hp.
Qed.

(** X7. [indexProject] records the root it was given.  When the file lister
    throws, the same error is thrown and the cache is left as it was.
    Otherwise indexing succeeds, every listed path is cached with its record,
    whose relative path is taken against the new root, and every other entry
    of the cache is kept: paths indexed earlier are never evicted. *)
Theorem indexProject_outcome (root : string) (st : State) :
  (forall e, fastGlob W indexPatterns root = Throw e ->
     indexProject W X root st
     = (Throw e, {| cache := cache st; projectRoot := root |}))
  /\ (forall files, fastGlob W indexPatterns root = Ok files ->
        exists st',
          indexProject W X root st = (Ok tt, st')
          /\ projectRoot st' = root
          /\ (forall p, In p files ->
                exists fileInfo,
                  cacheGet p (cache st') = Some fileInfo
                  /\ path fileInfo = p
                  /\ relativePath fileInfo = path_relative W root p)
          /\ (forall p, ~ In p files -> cacheGet p (cache st') = cacheGet p (cache st))).
Proof.
  split.
  - intros e He. unfold indexProject, bindM at 1, setProjectRoot at 1.
    unfold tryCatchM, bindM at 1, lift at 1. rewrite He. reflexivity.
  - intros files Hfiles.
    destruct (promiseAll_analyzeFile_cache files
                {| cache := cache st; projectRoot := root |})
      as [infos [st' [Hrun [Hroot [Hframe [Hall _]]]]]].
    exists st'. split; [| split; [exact Hroot | split; [exact Hall | exact Hframe]]].
    unfold indexProject, bindM at 1, setProjectRoot at 1.
    unfold tryCatchM, bindM at 1, lift at 1. rewrite Hfiles.
    unfold bindM at 1. rewrite Hrun. reflexivity.
Qed.

(** X8. Re-indexing paths that are already cached replaces their records in
    place: the call succeeds and the cached paths, hence the order in which
    [getAllFiles] lists the files, stay the same. *)
Theorem reindexFiles_in_place (changedFiles : list string) (st : State) :
  (forall p, In p changedFiles -> In p (map fst (cache st))) ->
  exists st',
    reindexFiles W X changedFiles st = (Ok tt, st')
    /\ map fst (cache st') = map fst (cache st)
    /\ List.length (cacheValues (cache st')) = List.length (cacheValues (cache st))
    /\ forall p, In p changedFiles ->
         exists fileInfo, cacheGet p (cache st') = Some fileInfo /\ path fileInfo = p.
Proof.
  intros Hcached.
  destruct (promiseAll_analyzeFile_cache changedFiles st)
    as [infos [st' [Hrun [_ [_ [Hall Hkeys]]]]]].
  exists st'. split; [| split; [| split]].
  - unfold reindexFiles, bindM at 1. rewrite Hrun. reflexivity.
  - apply Hkeys. exact Hcached.
  - unfold cacheValues. rewrite !length_map.
    rewrite <- (length_map fst (cache st')), <- (length_map fst (cache st)).
    rewrite (Hkeys Hcached). reflexivity.
  - intros p Hp. destruct (Hall p Hp) as [fi [Hget [Hpath _]]].
    exists fi. split; assumption.
Qed.

End CacheProperties.

Lemma indexProject_outcome_witness :
  fastGlob Samples.world indexPatterns "/project"
  = Ok ["/project/src/app.ts"; "/project/src/gone.ts"]
  /\ exists st',
       indexProject Samples.world Samples.extractors "/project" initialState = (Ok tt, st')
       /\ projectRoot st' = "/project".
Proof.
  assert (H : fastGlob Samples.world indexPatterns "/project"
              = Ok ["/project/src/app.ts"; "/project/src/gone.ts"]) by reflexivity.
  split; [exact H |].
  destruct (proj2 (indexProject_outcome Samples.world Samples.extractors
                     "/project" initialState) _ H)
    as [st' [Hrun [Hroot _]]].
  exists st'. split; assumption.
Defined.

Lemma reindexFiles_in_place_witness :
  exists st1 st2,
    indexProject Samples.world Samples.extractors "/project" initialState = (Ok tt, st1)
    /\ reindexFiles Samples.world Samples.extractors ["/project/src/gone.ts"] st1
       = (Ok tt, st2)
    /\ map fst (cache st2) = map fst (cache st1).
Proof.
  eexists. 
  assert (Hindex : indexProject Samples.world Samples.extractors "/project" initialState
                   = (Ok tt, _)) by reflexivity.
  assert (Hcached : forall p, In p ["/project/src/gone.ts"] ->
                    In p (map fst (cache (snd (indexProject Samples.world
                                                 Samples.extractors "/project"
                                                 initialState))))).
  { intros p [<- | []]. cbn. right. left. reflexivity. }
  destruct (reindexFiles_in_place Samples.world Samples.extractors _ _ Hcached)
    as [st2 [Hrun [Hkeys _]]].
  exists st2. split; [exact Hindex |]. split; [exact Hrun |].
  exact Hkeys.
Defined.

(* ================================================================== *)
(** * Further properties of the compression                            *)
(* ================================================================== *)

Local Notation "'noLF' s" :=
  (stringForall (fun c => negb (Ascii.eqb (ascii_of_nat 10) c)) s = true)
  (at level 10, s at level 9).

Lemma split_LF_lines (s : string) : Forall (fun line => noLF line) (split s LF).
Proof.
  induction s as [| c rest IH]; [repeat constructor |].
  rewrite split_LF_cons.
  destruct (Ascii.eqb (ascii_of_nat 10) c) eqn:Hc.
  - constructor; [reflexivity | exact IH].
  - pose proof (split_LF_nonempty rest) as Hne.
    destruct (split rest LF) as [| f fs]; [contradiction |].
    inversion IH; subst. cbn [consField].
    constructor; [| assumption]. cbn [stringForall]. rewrite Hc. assumption.
Qed.

Lemma split_LF_line (line : string) : noLF line -> split line LF = [line].
Proof.
  induction line as [| c rest IH]; [reflexivity |].
  cbn [stringForall]. intros H. apply andb_true_iff in H. destruct H as [Hc Hrest].
  rewrite split_LF_cons. apply negb_true_iff in Hc. rewrite Hc.
  rewrite (IH Hrest). reflexivity.
Qed.

Lemma split_LF_append (line rest : string) :
  noLF line -> split (line ++ LF ++ rest) LF = line :: split rest LF.
Proof.
  induction line as [| c line IH].
  - intros _. change ("" ++ LF ++ rest) with (String (ascii_of_nat 10) rest).
    rewrite split_LF_cons, Ascii.eqb_refl. reflexivity.
  - cbn [stringForall]. intros H. apply andb_true_iff in H. destruct H as [Hc Hline].
    change (String c line ++ LF ++ rest) with (String c (line ++ LF ++ rest)).
    rewrite split_LF_cons. apply negb_true_iff in Hc. rewrite Hc.
    rewrite (IH Hline). reflexivity.
Qed.

(** Joining lines and splitting again gives the lines back. *)
Lemma split_join_LF (lines : list string) :
  lines <> [] -> Forall (fun line => noLF line) lines ->
  split (join lines LF) LF = lines.
Proof.
  induction lines as [| line lines IH]; [contradiction |].
  intros _ Hall. inversion Hall as [| ? ? Hline Hrest]; subst.
  destruct lines as [| next lines].
  - cbn [join String.concat]. apply split_LF_line. exact Hline.
  - rewrite (@join_cons line (next :: lines) LF) by discriminate.
    rewrite split_LF_append by exact Hline.
    rewrite IH by (discriminate || exact Hrest). reflexivity.
Qed.

Lemma Subsequence_Forall {A : Type} (P : A -> Prop) (xs ys : list A) :
  Subsequence xs ys -> Forall P ys -> Forall P xs.
Proof.
  induction 1 as [| y xs ys Hs IH | y xs ys Hs IH]; intros Hall.
  - constructor.
  - inversion Hall; subst. auto.
  - inversion Hall; subst. constructor; auto.
Qed.

(** Running the Tier 2 loop over the lines it kept keeps all of them and
    ends in the same fence state. *)
Lemma scan_kept (lines : list string) (fence : bool) :
  exists kept final,
    (forall pre cur, exists cur',
        fold_left scanLine lines
          {| importantLines := pre; inCodeBlock := fence; currentLanguage := cur |}
        = {| importantLines := (pre ++ kept)%list; inCodeBlock := final;
             currentLanguage := cur' |})
    /\ (forall pre cur, exists cur',
          fold_left scanLine kept
            {| importantLines := pre; inCodeBlock := fence; currentLanguage := cur |}
          = {| importantLines := (pre ++ kept)%list; inCodeBlock := final;
               currentLanguage := cur' |})
    /\ (forall line, In line lines ->
          startsWith line "```" = true \/ startsWith line "#" = true
          \/ String.eqb (trim line) "" = true ->
          In line kept).
Proof.
  revert fence. induction lines as [| line lines IH]; intros fence.
  - exists [], fence. split; [| split].
    + intros pre cur. exists cur. cbn. rewrite app_nil_r. reflexivity.
    + intros pre cur. exists cur. cbn. rewrite app_nil_r. reflexivity.
    + intros line [].
  - destruct (startsWith line "```") eqn:Hfence.
    + destruct (IH (negb fence)) as [kept [final [Hrun [Hagain Hkeep]]]].
      exists (line :: kept), final. split; [| split].
      * intros pre cur. cbn [fold_left]. unfold scanLine at 2.
        rewrite Hfence. cbn [inCodeBlock importantLines currentLanguage].
        destruct fence; cbn [negb] in *;
          [destruct (Hrun (pre ++ [line])%list cur) as [cur' Hr]
          | destruct (Hrun (pre ++ [line])%list
                        (String.substring 3 (String.length line - 3) line))
              as [cur' Hr]];
          exists cur'; rewrite Hr, <- app_assoc; reflexivity.
      * intros pre cur. cbn [fold_left]. unfold scanLine at 2.
        rewrite Hfence. cbn [inCodeBlock importantLines currentLanguage].
        destruct fence; cbn [negb] in *;
          [destruct (Hagain (pre ++ [line])%list cur) as [cur' Hr]
          | destruct (Hagain (pre ++ [line])%list
                        (String.substring 3 (String.length line - 3) line))
              as [cur' Hr]];
          exists cur'; rewrite Hr, <- app_assoc; reflexivity.
      * intros l [<- | Hin] Hl; [left; reflexivity | right; apply Hkeep; assumption].
    + destruct (IH fence) as [kept [final [Hrun [Hagain Hkeep]]]].
      destruct (if fence then keptInsideFence line else keptOutsideFence line) eqn:Hk.
      * exists (line :: kept), final. split; [| split].
        -- intros pre cur. cbn [fold_left]. unfold scanLine at 2.
           rewrite Hfence. cbn [inCodeBlock].
           destruct fence; rewrite Hk; unfold pushLine;
             cbn [inCodeBlock importantLines currentLanguage];
             destruct (Hrun (pre ++ [line])%list cur) as [cur' Hr];
             exists cur'; rewrite Hr, <- app_assoc; reflexivity.
        -- intros pre cur. cbn [fold_left]. unfold scanLine at 2.
           rewrite Hfence. cbn [inCodeBlock].
           destruct fence; rewrite Hk; unfold pushLine;
             cbn [inCodeBlock importantLines currentLanguage];
             destruct (Hagain (pre ++ [line])%list cur) as [cur' Hr];
             exists cur'; rewrite Hr, <- app_assoc; reflexivity.
        -- intros l [<- | Hin] Hl; [left; reflexivity | right; apply Hkeep; assumption].
      * exists kept, final. split; [| split].
        -- intros pre cur. cbn [fold_left]. unfold scanLine at 2.
           rewrite Hfence. cbn [inCodeBlock].
           destruct fence; rewrite Hk; apply Hrun.
        -- exact Hagain.
        -- intros l [<- | Hin] Hl; [| apply Hkeep; assumption].
           exfalso. destruct Hl as [Hl | [Hl | Hl]]; [congruence | |].
           ++ destruct fence; unfold keptInsideFence, keptOutsideFence in Hk;
                rewrite Hl in Hk; cbn in Hk;
                repeat rewrite orb_true_r in Hk; discriminate.
           ++ destruct fence; unfold keptInsideFence, keptOutsideFence in Hk;
                rewrite Hl in Hk; cbn in Hk;
                repeat rewrite orb_true_r in Hk; discriminate.
Qed.

(** The lines Tier 2 returns, as a list. *)
Lemma aggressiveCompression_lines (context : string) (maxTokens : Z) :
  exists kept final,
    aggressiveCompression context maxTokens = join kept LF
    /\ Subsequence kept (split context LF)
    /\ (forall pre cur, exists cur',
          fold_left scanLine kept
            {| importantLines := pre; inCodeBlock := false; currentLanguage := cur |}
          = {| importantLines := (pre ++ kept)%list; inCodeBlock := final;
               currentLanguage := cur' |})
    /\ (forall line, In line (split context LF) ->
          startsWith line "```" = true \/ startsWith line "#" = true
          \/ String.eqb (trim line) "" = true ->
          In line kept).
Proof.
  destruct (scan_kept (split context LF) false) as [kept [final [Hrun [Hagain Hkeep]]]].
  exists kept, final.
  destruct (Hrun [] "") as [cur' Hr]. cbn [app] in Hr.
  split; [| split; [| split; assumption]].
  - unfold aggressiveCompression. rewrite Hr. reflexivity.
  - pose proof (@fold_scanLine_Subsequence (split context LF) []
                  {| importantLines := []; inCodeBlock := false; currentLanguage := "" |}
                  (Subsequence_nil)) as Hsub.
    rewrite Hr in Hsub. exact Hsub.
Qed.

(** X9. Tier 2 is idempotent: compressing its output again, under any
    budget, returns that output unchanged. *)
Theorem aggressiveCompression_idempotent (context : string) (maxTokens maxTokens' : Z) :
  aggressiveCompression (aggressiveCompression context maxTokens) maxTokens'
  = aggressiveCompression context maxTokens.
Proof.
  destruct (aggressiveCompression_lines context maxTokens)
    as [kept [final [Hout [Hsub [Hagain _]]]]].
  rewrite Hout.
  destruct kept as [| line kept]; [reflexivity |].
  unfold aggressiveCompression at 1.
  rewrite split_join_LF.
  - destruct (Hagain [] "") as [cur' Hr]. rewrite Hr. reflexivity.
  - discriminate.
  - eapply Subsequence_Forall; [exact Hsub | apply split_LF_lines].
Qed.

(** X10. Tier 2 keeps the structure of the document: every line of the
    input that starts with a code fence or with "#", and every blank line,
    is a line of the output. *)
Theorem aggressiveCompression_keeps_structure (context : string) (maxTokens : Z)
        (line : string) :
  In line (split context LF) ->
  startsWith line "```" = true \/ startsWith line "#" = true
  \/ String.eqb (trim line) "" = true ->
  In line (split (aggressiveCompression context maxTokens) LF).
Proof.
  intros Hin Hline.
  destruct (aggressiveCompression_lines context maxTokens)
    as [kept [final [Hout [Hsub [_ Hkeep]]]]].
  pose proof (Hkeep line Hin Hline) as Hkept.
  rewrite Hout, split_join_LF; [exact Hkept | |].
  - intros ->. destruct Hkept.
  - eapply Subsequence_Forall; [exact Hsub | apply split_LF_lines].
Qed.

Lemma aggressiveCompression_keeps_structure_witness :
  In "## Usage" (split ("intro" ++ LF ++ "## Usage" ++ LF ++ "text") LF)
  /\ In "## Usage"
        (split (aggressiveCompression ("intro" ++ LF ++ "## Usage" ++ LF ++ "text") 0) LF).
Proof.
  assert (Hin : In "## Usage" (split ("intro" ++ LF ++ "## Usage" ++ LF ++ "text") LF)).
  { cbn. right. left. reflexivity. }
  split; [exact Hin |].
  apply (@aggressiveCompression_keeps_structure _ 0%Z "## Usage" Hin).
  right. left. reflexivity.
Defined.

(* ================================================================== *)
(** * Further properties of the validator                              *)
(* ================================================================== *)

Lemma includes_empty (s : string) : includes s "" = true.
Proof. destruct s; reflexivity. Qed.

Lemma prefix_weaken (p : string) (c : ascii) (s : string) :
  String.prefix (p ++ String c "") s = true -> String.prefix p s = true.
Proof.
  revert s. induction p as [| a p IH]; intros s H; [destruct s; reflexivity |].
  destruct s as [| b s]; [discriminate |].
  cbn [String.append String.prefix] in *.
  destruct (ascii_dec a b); [apply IH; exact H | discriminate].
Qed.

(** A text that contains a word with one more code unit contains the word. *)
Lemma includes_weaken (s p : string) (c : ascii) :
  includes s (p ++ String c "") = true -> includes s p = true.
Proof.
  induction s as [| a s IH]; cbn [includes]; intros H.
  - rewrite orb_false_r in *. eapply prefix_weaken. exact H.
  - apply orb_true_iff in H. apply orb_true_iff. destruct H as [H | H].
    + left. eapply prefix_weaken. exact H.
    + right. apply IH. exact H.
Qed.

Lemma Subsequence_length {A : Type} (xs ys : list A) :
  Subsequence xs ys -> List.length xs <= List.length ys.
Proof. induction 1; cbn; lia. Qed.

Section ValidationScores.

Variable A : Arithmetic.
Hypothesis L : ArithmeticLaws A.

Local Notation "x <== y" := (leb A x y = true) (at level 70, no associativity).
Local Notation "'zero'" := (lit A 0).
Local Notation "'one'" := (lit A 1).

Lemma completenessScore_unit (contextContent query : string) :
  zero <== completenessScore (validateCompleteness A contextContent query)
  /\ completenessScore (validateCompleteness A contextContent query) <== one.
Proof.
  unfold validateCompleteness. cbn [completenessScore].
  set (totals := fold_left _ _ _).
  assert (Hbounds : zero <== totalScore totals /\ totalScore totals <== totalWeight totals).
  { subst totals. apply (aggregate_bounds L).
    - apply (validations_finished L).
    - cbn [totalScore]. apply (leb_refl L).
    - cbn [totalScore totalWeight]. apply (leb_refl L). }
  destruct Hbounds as [H0 H1].
  destruct (leb A (totalWeight totals) zero) eqn:Hw; cbn [negb].
  - split; [apply (leb_refl L) | apply (zero_le_one L)].
  - apply (round2_unit L).
    + apply (div_nonneg L); assumption.
    + apply (div_le_1 L); assumption.
Qed.

Lemma calculateConfidenceScore_unit (score : num A) (context : string) :
  zero <== score -> score <== one ->
  zero <== calculateConfidenceScore A score context
  /\ calculateConfidenceScore A score context <== one.
Proof.
  intros H0 H1. unfold calculateConfidenceScore. cbv zeta.
  assert (Hlit : forall q, (0 <= q)%Q -> zero <== lit A q) by apply (lit_nonneg L).
  assert (Hmin : forall x, zero <== x -> zero <== min1 A x /\ min1 A x <== one).
  { intros x Hx. split; [apply (min1_nonneg L); exact Hx | apply (min1_le_1 L)]. }
  set (byLength :=
         if (Z.of_nat (String.length context) <? 1000)%Z then mul A score (lit A 0.7)
         else if (10000 <? Z.of_nat (String.length context))%Z
              then min1 A (mul A score (lit A 1.1))
              else score).
  assert (Hlen : zero <== byLength /\ byLength <== one).
  { subst byLength.
    destruct (Z.of_nat (String.length context) <? 1000)%Z.
    - split.
      + apply (mul_nonneg L); [exact H0 | apply Hlit; apply Qle_bool_imp_le; reflexivity].
      + apply (leb_trans L) with (y := lit A 0.7).
        * apply (mul_le_1 L); [exact H1 | apply Hlit; apply Qle_bool_imp_le; reflexivity].
        * apply (lit_mono L). apply Qle_bool_imp_le. reflexivity.
    - destruct (10000 <? Z.of_nat (String.length context))%Z; [| split; assumption].
      apply Hmin. apply (mul_nonneg L);
        [exact H0 | apply Hlit; apply Qle_bool_imp_le; reflexivity]. }
  destruct Hlen as [Hl0 Hl1].
  apply (round2_unit L);
    destruct (3 <=? countCodeBlocks context)%nat; try assumption;
    apply Hmin; apply (mul_nonneg L);
    solve [exact Hl0 | apply Hlit; apply Qle_bool_imp_le; reflexivity].
Qed.

Lemma confidenceScore_lawful (contextContent query : string) :
  zero <== confidenceScore (validateCompleteness A contextContent query)
  /\ confidenceScore (validateCompleteness A contextContent query) <== one.
Proof.
  pose proof (completenessScore_unit contextContent query) as [H0 H1].
  unfold validateCompleteness in *. cbn [confidenceScore completenessScore] in *.
  apply calculateConfidenceScore_unit; assumption.
Qed.

(** X12. The returned [missingElements] is a selection, in this order, of
    six fixed messages; so it never has more than six entries. *)
Theorem missingElements_catalogue (contextContent query : string) :
  Subsequence (missingElements (validateCompleteness A contextContent query))
    [ "No code implementations found"; "Missing import statements";
      "Missing dependency information"; "Missing project summary";
      "Missing test cases"; "Missing documentation" ]
  /\ List.length (missingElements (validateCompleteness A contextContent query)) <= 6.
Proof.
  assert (Hsub : Subsequence
                   (missingElements (validateCompleteness A contextContent query))
                   [ "No code implementations found"; "Missing import statements";
                     "Missing dependency information"; "Missing project summary";
                     "Missing test cases"; "Missing documentation" ]).
  { unfold validateCompleteness. cbn [missingElements].
    rewrite unique_id.
    - rewrite aggregate_missing. cbn [allMissing app].
      unfold validations. cbn [map concat].
      rewrite validateContextCoherence_missing, app_nil_r. cbn [app].
      change [ "No code implementations found"; "Missing import statements";
               "Missing dependency information"; "Missing project summary";
               "Missing test cases"; "Missing documentation" ]
        with ([ "No code implementations found"; "Missing import statements" ]
              ++ [ "Missing dependency information" ]
              ++ [ "Missing project summary" ]
              ++ [ "Missing test cases"; "Missing documentation" ])%list.
      repeat apply Subsequence_app.
      + apply validateCodeCompleteness_missing.
      + apply validateDependencyCompleteness_missing.
      + apply validateStructuralCompleteness_missing.
      + apply validateUsageExamples_missing.
    - rewrite aggregate_missing. cbn [allMissing app].
      apply validations_missing_NoDup. }
  split; [exact Hsub |].
  apply Subsequence_length in Hsub. exact Hsub.
Qed.

End ValidationScores.

Ltac settle_tests :=
  repeat (progress
            (repeat match goal with
                    | |- context [if ?b then _ else _] => destruct b
                    | |- context [match qa_type ?q with _ => _ end] =>
                        destruct (qa_type q)
                    end;
             cbv beta iota zeta)).

Ltac read_missing :=
  cbn [d_missingElements capScore setScore addScore pushMissing pushSuggestion
       pushWarning pushStrength newDetail app].

Section ValidationVerdict.

Variable A : Arithmetic.

Lemma validateCodeCompleteness_bare (context : string) (query : QueryAnalysis) :
  countCodeBlocks context = 0 ->
  includes context "import" = false ->
  includes context "from" = false ->
  d_missingElements (validateCodeCompleteness A context query)
  = [ "No code implementations found"; "Missing import statements" ].
Proof.
  intros Hblocks Himport Hfrom.
  cbv delta [validateCodeCompleteness] beta.
  rewrite Hblocks, Himport, Hfrom. cbn [orb Nat.eqb].
  settle_tests; read_missing; reflexivity.
Qed.

Lemma validateDependencyCompleteness_bare (context : string) (query : QueryAnalysis) :
  includes context "Dependencies" = false ->
  includes context "imports" = false ->
  d_missingElements (validateDependencyCompleteness A context query)
  = [ "Missing dependency information" ].
Proof.
  intros Hdeps Himports.
  cbv delta [validateDependencyCompleteness] beta.
  rewrite Hdeps, Himports. cbn [orb].
  settle_tests; read_missing; reflexivity.
Qed.

(** X13. A document without a fenced code block that contains neither
    "import" nor "from" nor "Dependencies" is never reported complete,
    whatever the query and whatever its score: three elements are missing. *)
Theorem validateCompleteness_bare_document (contextContent query : string) :
  countCodeBlocks contextContent = 0 ->
  includes contextContent "import" = false ->
  includes contextContent "from" = false ->
  includes contextContent "Dependencies" = false ->
  isComplete (validateCompleteness A contextContent query) = false
  /\ 3 <= List.length (missingElements (validateCompleteness A contextContent query)).
Proof.
  intros Hblocks Himport Hfrom Hdeps.
  assert (Himports : includes contextContent "imports" = false).
  { destruct (includes contextContent "imports") eqn:H; [| reflexivity].
    change "imports" with ("import" ++ String "s" "") in H.
    apply includes_weaken in H. congruence. }
  unfold validateCompleteness. cbn [isComplete missingElements].
  rewrite unique_id
    by (rewrite aggregate_missing; cbn [allMissing app]; apply validations_missing_NoDup).
  rewrite aggregate_missing. cbn [allMissing app].
  unfold validations. cbn [map concat].
  rewrite (@validateCodeCompleteness_bare _ _ Hblocks Himport Hfrom).
  rewrite (@validateDependencyCompleteness_bare _ _ Hdeps Himports).
  cbn [app List.length]. split; [| lia].
  apply andb_false_iff. right. reflexivity.
Qed.

End ValidationVerdict.

(** X11. For every document and query the confidence score, a binary64
    number, lies between 0 and 1. *)
Theorem confidenceScore_unit (contextContent query : string) :
  (0 <= value (confidenceScore (validateCompleteness binary64 contextContent query))
   <= 1)%Q.
Proof.
  apply unit_values. apply (confidenceScore_lawful binary64_laws).
Qed.

Lemma confidenceScore_unit_witness :
  (value (confidenceScore
            (validateCompleteness binary64 Samples.report Samples.reportQuery))
   <= 1)%Q.
Proof.
  exact (proj2 (confidenceScore_unit Samples.report Samples.reportQuery)).
Defined.

Lemma validateCompleteness_bare_document_witness :
  countCodeBlocks "hello world" = 0
  /\ isComplete (validateCompleteness binary64 "hello world" "world") = false.
Proof.
  split; [reflexivity |].
  exact (proj1 (@validateCompleteness_bare_document binary64
                  "hello world" "world" eq_refl eq_refl eq_refl eq_refl)).
Defined.

(* ================================================================== *)
(** * Further properties of the aggregation                            *)
(* ================================================================== *)

Lemma length_flat_map {A B : Type} (f : A -> list B) (xs : list A) :
  List.length (flat_map f xs) = fold_right Nat.add 0 (map (fun x => List.length (f x)) xs).
Proof.
  induction xs as [| x xs IH]; cbn; [reflexivity |].
  rewrite length_app, IH. reflexivity.
Qed.

Lemma edges_bound (all files : list FileInfo) :
  List.length
    (flat_map (fun file =>
       flat_map (fun imp =>
         match importTarget all imp with
         | Some targetFile =>
             [ {| source := relativePath file;
                  target := relativePath targetFile;
                  edge_type := "import" |} ]
         | None => []
         end) (imports file)) files)
  <= fold_right Nat.add 0 (map (fun f => List.length (imports f)) files).
Proof.
  induction files as [| f fs IH]; cbn [flat_map map fold_right]; [cbn; lia |].
  rewrite length_app.
  assert (Hf : forall imps,
             List.length
               (flat_map (fun imp =>
                  match importTarget all imp with
                  | Some targetFile =>
                      [ {| source := relativePath f;
                           target := relativePath targetFile;
                           edge_type := "import" |} ]
                  | None => []
                  end) imps)
             <= List.length imps).
  { induction imps as [| imp imps IHi]; cbn [flat_map]; [cbn; lia |].
    rewrite length_app. destruct (importTarget all imp); cbn; lia. }
  specialize (Hf (imports f)). lia.
Qed.

(** X14. Every import contributes at most one edge: the graph has no more
    edges than the ranked files have imports. *)
Theorem buildDependencyGraph_edge_bound (files : list FileInfo) :
  List.length (edges (buildDependencyGraph files))
  <= fold_right Nat.add 0 (map (fun f => List.length (imports f)) files).
Proof.
  unfold buildDependencyGraph. cbn [edges]. apply edges_bound.
Qed.

Lemma Language_eqb_eq (a b : Language) : Language_eqb a b = true <-> a = b.
Proof. destruct a, b; cbn; split; congruence. Qed.

Lemma languageShare_snoc (l : Language) (files : list FileInfo) (f : FileInfo) :
  languageShare l (files ++ [f])
  = languageShare l files + (if Language_eqb (language f) l then 1 else 0).
Proof.
  unfold languageShare. rewrite filter_app, length_app. cbn [filter].
  destruct (Language_eqb (language f) l); reflexivity.
Qed.

(** The counts kept while walking the files: one entry per language seen,
    holding its number of files. *)
Local Notation "'Counted' counts seen" :=
  (NoDup (map fst counts)
   /\ (forall k n, In (k, n) counts -> n = Z.of_nat (languageShare k seen))
   /\ (forall k, 1 <= languageShare k seen -> In k (map fst counts)))
  (at level 10, counts at level 9, seen at level 9).

Lemma countLanguage_keys (l : Language) (counts : list (Language * Z)) (k : Language) :
  In k (map fst (countLanguage l counts)) <-> k = l \/ In k (map fst counts).
Proof.
  induction counts as [| [k' n] counts IH]; cbn; [intuition congruence |].
  destruct (Language_eqb k' l) eqn:Hk; cbn.
  - apply Language_eqb_eq in Hk. subst k'. intuition congruence.
  - rewrite IH. intuition congruence.
Qed.

Lemma countLanguage_entries (l : Language) (counts : list (Language * Z))
      (k : Language) (n : Z) :
  NoDup (map fst counts) ->
  In (k, n) (countLanguage l counts) ->
  (k <> l /\ In (k, n) counts)
  \/ (k = l /\ ((exists m, In (l, m) counts /\ n = (m + 1)%Z)
                \/ (~ In l (map fst counts) /\ n = 1%Z))).
Proof.
  induction counts as [| [k' m] counts IH]; cbn; intros Hnd Hin.
  - destruct Hin as [Heq | []]. injection Heq as <- <-.
    right. split; [reflexivity |]. right. split; [tauto | reflexivity].
  - inversion Hnd as [| ? ? Hnot Hnd']; subst.
    destruct (Language_eqb k' l) eqn:Hk.
    + apply Language_eqb_eq in Hk. subst k'.
      destruct Hin as [Heq | Hin].
      * injection Heq as <- <-. right. split; [reflexivity |].
        left. exists m. split; [left; reflexivity | reflexivity].
      * left. split; [| right; exact Hin].
        intros ->. apply Hnot. apply in_map_iff. exists (l, n). split; [reflexivity | exact Hin].
    + assert (Hne : k' <> l).
      { intros ->. destruct l; discriminate. }
      destruct Hin as [Heq | Hin].
      * injection Heq as <- <-. left. split; [exact Hne | left; reflexivity].
      * destruct (IH Hnd' Hin) as [[Hkl Hc] | [-> [[m' [Hm ->]] | [Hnotin ->]]]].
        -- left. split; [exact Hkl | right; exact Hc].
        -- right. split; [reflexivity |]. left. exists m'. split; [right; exact Hm | reflexivity].
        -- right. split; [reflexivity |]. right. split; [| reflexivity].
           intros [Heq | Hin']; [congruence | contradiction].
Qed.

Lemma countLanguage_NoDup (l : Language) (counts : list (Language * Z)) :
  NoDup (map fst counts) -> NoDup (map fst (countLanguage l counts)).
Proof.
  induction counts as [| [k n] counts IH]; cbn; intros Hnd.
  - constructor; [intros [] | constructor].
  - inversion Hnd as [| ? ? Hnot Hnd']; subst.
    destruct (Language_eqb k l) eqn:Hk; cbn.
    + constructor; assumption.
    + constructor; [| apply IH; exact Hnd'].
      rewrite countLanguage_keys. intros [-> | Hin]; [| contradiction].
      destruct l; discriminate.
Qed.

Lemma countLanguage_Counted (counts : list (Language * Z)) (seen : list FileInfo)
      (f : FileInfo) :
  Counted counts seen ->
  Counted (countLanguage (language f) counts) (seen ++ [f])%list.
Proof.
  intros [Hnd [Hval Hkeys]]. split; [| split].
  - apply countLanguage_NoDup. exact Hnd.
  - intros k n Hin. rewrite languageShare_snoc.
    destruct (@countLanguage_entries _ _ _ _ Hnd Hin)
      as [[Hne Hc] | [-> [[m [Hm ->]] | [Hnotin ->]]]].
    + rewrite (Hval k n Hc).
      destruct (Language_eqb (language f) k) eqn:Hk; [| lia].
      apply Language_eqb_eq in Hk. congruence.
    + rewrite (Hval _ m Hm).
      rewrite (proj2 (Language_eqb_eq _ _) eq_refl). lia.
    + rewrite (proj2 (Language_eqb_eq _ _) eq_refl).
      assert (languageShare (language f) seen = 0); [| lia].
      destruct (languageShare (language f) seen) eqn:Hshare; [reflexivity |].
      exfalso. apply Hnotin. apply Hkeys. lia.
  - intros k Hk. rewrite languageShare_snoc in Hk.
    apply countLanguage_keys.
    destruct (Language_eqb (language f) k) eqn:Heq.
    + left. apply Language_eqb_eq in Heq. congruence.
    + right. apply Hkeys. lia.
Qed.

Lemma languageCount_Counted (files seen : list FileInfo) (counts : list (Language * Z)) :
  Counted counts seen ->
  Counted (fold_left (fun counts f => countLanguage (language f) counts) files counts)
          (seen ++ files)%list.
Proof.
  revert seen counts. induction files as [| f files IH]; intros seen counts H.
  - cbn [fold_left]. rewrite app_nil_r. exact H.
  - cbn [fold_left].
    replace (seen ++ f :: files)%list with ((seen ++ [f]) ++ files)%list
      by (rewrite <- app_assoc; reflexivity).
    apply IH. apply countLanguage_Counted. exact H.
Qed.

(** The [reduce] keeps an entry of largest count. *)
Lemma reduce_largest (rest : list (Language * Z)) (first : Language * Z) :
  let winner := fold_left (fun a b => if (snd b <? snd a)%Z then a else b) rest first in
  In winner (first :: rest)
  /\ forall x, In x (first :: rest) -> (snd x <= snd winner)%Z.
Proof.
  cbv zeta. revert first. induction rest as [| b rest IH]; intros first; cbn [fold_left].
  - split; [left; reflexivity |]. intros x [<- | []]. lia.
  - destruct (IH (if (snd b <? snd first)%Z then first else b)) as [Hin Hmax].
    split.
    + destruct Hin as [Heq | Hin]; [| right; right; exact Hin].
      destruct (snd b <? snd first)%Z; [left | right; left]; exact Heq.
    + intros x Hx.
      assert (Hpick : (snd first <= snd (if (snd b <? snd first)%Z then first else b))%Z
                      /\ (snd b <= snd (if (snd b <? snd first)%Z then first else b))%Z).
      { destruct (snd b <? snd first)%Z eqn:Hc;
          [apply Z.ltb_lt in Hc | apply Z.ltb_ge in Hc]; lia. }
      destruct Hpick as [Hf Hb].
      pose proof (Hmax _ (or_introl eq_refl)) as Hw.
      destruct Hx as [<- | [<- | Hx]]; [lia | lia |].
      apply Hmax. right. exact Hx.
Qed.

(** The vote over a non-empty ranking returns a language of largest share. *)
Lemma detectPrimaryLanguage_largest (relevantFiles : list FileInfo) :
  relevantFiles <> [] ->
  exists l,
    detectPrimaryLanguage relevantFiles = Ok (languageName l)
    /\ forall l', languageShare l' relevantFiles <= languageShare l relevantFiles.
Proof.
  intros Hne.
  assert (Hcounted : Counted
            (fold_left (fun counts f => countLanguage (language f) counts) relevantFiles [])
            relevantFiles).
  { apply (@languageCount_Counted relevantFiles [] []).
    split; [constructor | split].
    - intros k n [].
    - intros k Hk. cbn in Hk. lia. }
  destruct Hcounted as [Hnd [Hval Hkeys]].
  unfold detectPrimaryLanguage.
  destruct (fold_left _ relevantFiles []) as [| first rest] eqn:Hcounts.
  - exfalso. destruct relevantFiles as [| f fs]; [contradiction |].
    assert (H1 : 1 <= languageShare (language f) (f :: fs)).
    { unfold languageShare. cbn [filter].
      rewrite (proj2 (Language_eqb_eq _ _) eq_refl). cbn. lia. }
    destruct (Hkeys _ H1).
  - destruct (reduce_largest rest first) as [Hin Hmax].
    set (winner := fold_left _ rest first) in *.
    exists (fst winner). split; [reflexivity |].
    assert (Hw : snd winner = Z.of_nat (languageShare (fst winner) relevantFiles)).
    { apply Hval. destruct winner. exact Hin. }
    intros l'. destruct (languageShare l' relevantFiles) as [| n] eqn:Hshare; [lia |].
    assert (Hl : In l' (map fst (first :: rest))) by (apply Hkeys; lia).
    apply in_map_iff in Hl. destruct Hl as [[k m] [Hk Hx]]. cbn in Hk. subst k.
    pose proof (Hmax _ Hx) as Hle. cbn [snd] in Hle.
    rewrite (Hval _ _ Hx), Hw in Hle. lia.
Qed.

Lemma languageShare_head (f : FileInfo) (fs : list FileInfo) :
  1 <= languageShare (language f) (f :: fs).
Proof.
  unfold languageShare. cbn [filter].
  rewrite (proj2 (Language_eqb_eq _ _) eq_refl). cbn. lia.
Qed.

(** X15. For a non-empty ranking the primary language is returned, and it
    is a language with the largest number of ranked files; for an empty
    ranking the vote throws a [TypeError]. *)
Theorem detectPrimaryLanguage_majority (relevantFiles : list FileInfo) :
  (relevantFiles = [] ->
   detectPrimaryLanguage relevantFiles
   = Throw (TypeError "Reduce of empty array with no initial value"))
  /\ (relevantFiles <> [] ->
      exists l,
        detectPrimaryLanguage relevantFiles = Ok (languageName l)
        /\ 1 <= languageShare l relevantFiles
        /\ forall l', languageShare l' relevantFiles <= languageShare l relevantFiles).
Proof.
  split; [intros ->; reflexivity |].
  intros Hne.
  destruct (detectPrimaryLanguage_largest Hne) as [l [Hvote Hbound]].
  exists l. split; [exact Hvote |]. split; [| exact Hbound].
  destruct relevantFiles as [| f fs]; [contradiction |].
  pose proof (languageShare_head f fs) as H1.
  specialize (Hbound (language f)). lia.
Qed.

Lemma detectPrimaryLanguage_majority_witness :
  [Samples.appFile; Samples.utilFile] <> []
  /\ exists l, detectPrimaryLanguage [Samples.appFile; Samples.utilFile]
               = Ok (languageName l)
               /\ 1 <= languageShare l [Samples.appFile; Samples.utilFile].
Proof.
  assert (H : [Samples.appFile; Samples.utilFile] <> []) by discriminate.
  split; [exact H |].
  destruct (proj2 (detectPrimaryLanguage_majority [Samples.appFile; Samples.utilFile]) H)
    as [l [Hl [Hshare _]]].
  exists l. split; assumption.
Defined.

(* ================================================================== *)
(** * Queries over the cache                                           *)
(* ================================================================== *)

Lemma append_assoc (a b c : string) : (a ++ b) ++ c = a ++ (b ++ c).
Proof. induction a as [| x a IH]; cbn; [reflexivity | rewrite IH; reflexivity]. Qed.

Lemma append_empty_r (a : string) : a ++ "" = a.
Proof. induction a as [| x a IH]; cbn; [reflexivity | rewrite IH; reflexivity]. Qed.

Lemma prefix_iff (p s : string) :
  String.prefix p s = true <-> exists b, s = p ++ b.
Proof.
  revert s. induction p as [| x p IH]; intros s.
  - split; [intros _; exists s; reflexivity | intros _; destruct s; reflexivity].
  - destruct s as [| y s]; cbn [String.prefix String.append].
    + split; [discriminate | intros [b Hb]; discriminate].
    + destruct (ascii_dec x y) as [-> | Hne].
      * rewrite IH. split; intros [b Hb]; exists b; congruence.
      * split; [discriminate | intros [b Hb]; congruence].
Qed.

(** [s.includes(sub)] holds exactly when [sub] occurs in [s]. *)
Lemma includes_iff (s sub : string) :
  includes s sub = true <-> exists a b, s = a ++ sub ++ b.
Proof.
  induction s as [| x s IH]; cbn [includes].
  - rewrite orb_false_r, prefix_iff. split.
    + intros [b Hb]. exists "", b. exact Hb.
    + intros [a [b Hab]]. destruct a; [exists b; exact Hab | discriminate].
  - rewrite orb_true_iff, prefix_iff, IH. split.
    + intros [[b Hb] | [a [b Hab]]].
      * exists "", b. exact Hb.
      * exists (String x a), b. cbn. rewrite Hab. reflexivity.
    + intros [a [b Hab]]. destruct a as [| y a].
      * left. exists b. exact Hab.
      * right. exists a, b. cbn in Hab. congruence.
Qed.

Lemma includes_refl (s : string) : includes s s = true.
Proof. apply includes_iff. exists "", "". cbn. rewrite append_empty_r. reflexivity. Qed.

Lemma includes_trans (s m p : string) :
  includes s m = true -> includes m p = true -> includes s p = true.
Proof.
  rewrite !includes_iff. intros [a [b ->]] [c [d ->]].
  exists (a ++ c), (d ++ b). rewrite !append_assoc. reflexivity.
Qed.

Lemma includes_extended (p t : string) : includes (p ++ t) p = true.
Proof. apply includes_iff. exists "", t. reflexivity. Qed.

Lemma Subsequence_filter_weaker {A : Type} (p q : A -> bool) (xs : list A) :
  (forall x, In x xs -> p x = true -> q x = true) ->
  Subsequence (filter p xs) (filter q xs).
Proof.
  induction xs as [| x xs IH]; intros H; cbn [filter]; [constructor |].
  assert (IH' : Subsequence (filter p xs) (filter q xs))
    by (apply IH; intros y Hy; apply H; right; exact Hy).
  destruct (p x) eqn:Hp.
  - rewrite (H x (or_introl eq_refl) Hp). apply Subsequence_keep. exact IH'.
  - destruct (q x); [apply Subsequence_skip |]; exact IH'.
Qed.

Lemma some_weaker {A : Type} (p q : A -> bool) (xs : list A) :
  (forall x, p x = true -> q x = true) -> some p xs = true -> some q xs = true.
Proof.
  unfold some. intros H Hp. apply existsb_exists in Hp. destruct Hp as [x [Hin Hx]].
  apply existsb_exists. exists x. split; [exact Hin | apply H; exact Hx].
Qed.

Lemma some_always {A : Type} (p : A -> bool) (xs : list A) :
  (forall x, p x = true) -> xs <> [] -> some p xs = true.
Proof.
  unfold some. intros H Hne. destruct xs as [| x xs]; [congruence |].
  cbn. rewrite H. reflexivity.
Qed.

(** X16. [searchFiles] returns cached records in cache order; the empty
    query returns every record; and a query that is, ignoring case, a part
    of another query finds at least the files the longer query finds. *)
Theorem searchFiles_monotone (cache : Cache) (query part : string)
        (Hpart : includes (toLowerCase query) (toLowerCase part) = true) :
  Subsequence (searchFiles cache query) (searchFiles cache part)
  /\ Subsequence (searchFiles cache part) (cacheValues cache)
  /\ searchFiles cache "" = cacheValues cache.
Proof.
  split; [| split].
  - unfold searchFiles. apply Subsequence_filter_weaker. intros file _ H.
    apply orb_true_iff in H. destruct H as [H | H];
      [apply orb_true_iff in H; destruct H as [H | H] |].
    + rewrite (includes_trans _ _ _ H Hpart). reflexivity.
    + rewrite (some_weaker _ (fun fn => includes (toLowerCase (fn_name fn)) (toLowerCase part)) _
                 (fun fn Hfn => includes_trans _ _ _ Hfn Hpart) H).
      rewrite orb_true_r. reflexivity.
    + rewrite (some_weaker _ (fun cls => includes (toLowerCase (cls_name cls)) (toLowerCase part)) _
                 (fun cls Hcls => includes_trans _ _ _ Hcls Hpart) H).
      rewrite orb_true_r. reflexivity.
  - unfold searchFiles. apply Subsequence_filter.
  - unfold searchFiles. cbn [toLowerCase].
    induction (cacheValues cache) as [| file files IH]; [reflexivity |].
    cbn [filter]. rewrite includes_empty. cbn [orb]. rewrite IH. reflexivity.
Qed.

Lemma searchFiles_monotone_witness :
  Subsequence (searchFiles Samples.indexed "UTIL.ts") (searchFiles Samples.indexed "Util")
  /\ Subsequence (searchFiles Samples.indexed "Util") (cacheValues Samples.indexed)
  /\ searchFiles Samples.indexed "" = cacheValues Samples.indexed.
Proof. apply (searchFiles_monotone Samples.indexed "UTIL.ts" "Util"). reflexivity. Defined.

Lemma fileReferences_types (symbol : string) (file : FileInfo) (r : Reference) :
  In r (fileReferences symbol file) ->
  (ref_type r = "function_definition"
   /\ exists fn, In fn (functions file) /\ fn_name fn = symbol /\ ref_line r = fn_startLine fn)
  \/ (ref_type r = "class_definition"
      /\ exists cls, In cls (classes file) /\ cls_name cls = symbol
                     /\ ref_line r = cls_startLine cls)
  \/ (ref_type r = "import" /\ ref_line r = 0%Z
      /\ exists imp, In imp (imports file) /\ In symbol (imp_imports imp)).
Proof.
  unfold fileReferences. rewrite !in_app_iff, !in_flat_map.
  intros [[fn [Hin Hr]] | [[cls [Hin Hr]] | [imp [Hin Hr]]]].
  - destruct (String.eqb (fn_name fn) symbol) eqn:He; [| destruct Hr].
    destruct Hr as [<- | []]. apply String.eqb_eq in He.
    left. split; [reflexivity |]. exists fn. auto.
  - destruct (String.eqb (cls_name cls) symbol) eqn:He; [| destruct Hr].
    destruct Hr as [<- | []]. apply String.eqb_eq in He.
    right. left. split; [reflexivity |]. exists cls. auto.
  - destruct (existsb (String.eqb symbol) (imp_imports imp)) eqn:He; [| destruct Hr].
    destruct Hr as [<- | []]. apply existsb_exists in He. destruct He as [name [Hname He]].
    apply String.eqb_eq in He. subst name.
    right. right. split; [reflexivity |]. split; [reflexivity |]. exists imp. auto.
Qed.

Lemma fileReferences_complete (symbol : string) (file : FileInfo) :
  (exists fn, In fn (functions file) /\ fn_name fn = symbol)
  \/ (exists cls, In cls (classes file) /\ cls_name cls = symbol)
  \/ (exists imp, In imp (imports file) /\ In symbol (imp_imports imp)) ->
  fileReferences symbol file <> [].
Proof.
  intros H Hempty.
  assert (Hnone : forall r, ~ In r (fileReferences symbol file))
    by (intros r Hr; rewrite Hempty in Hr; destruct Hr).
  unfold fileReferences in Hnone.
  destruct H as [[fn [Hin He]] | [[cls [Hin He]] | [imp [Hin He]]]].
  - apply (Hnone {| ref_line := fn_startLine fn; ref_type := "function_definition" |}).
    apply in_or_app. left. apply in_flat_map. exists fn. split; [exact Hin |].
    apply String.eqb_eq in He. rewrite He. left. reflexivity.
  - apply (Hnone {| ref_line := cls_startLine cls; ref_type := "class_definition" |}).
    apply in_or_app. right. apply in_or_app. left.
    apply in_flat_map. exists cls. split; [exact Hin |].
    apply String.eqb_eq in He. rewrite He. left. reflexivity.
  - apply (Hnone {| ref_line := 0; ref_type := "import" |}).
    apply in_or_app. right. apply in_or_app. right.
    apply in_flat_map. exists imp. split; [exact Hin |].
    assert (Hex : existsb (String.eqb symbol) (imp_imports imp) = true)
      by (apply existsb_exists; exists symbol; split; [exact He | apply String.eqb_refl]).
    rewrite Hex. left. reflexivity.
Qed.

Lemma findReferences_files (cache : Cache) (symbol : string) :
  map fst (findReferences cache symbol)
  = filter (fun file => negb (Nat.eqb (List.length (fileReferences symbol file)) 0))
           (cacheValues cache).
Proof.
  unfold findReferences.
  induction (cacheValues cache) as [| file files IH]; [reflexivity |].
  cbn [flat_map filter]. rewrite map_app, IH.
  destruct (fileReferences symbol file) as [| r refs]; reflexivity.
Qed.

(** X17. [findReferences] lists cached files in cache order, each at most
    once per cache entry and only with a non-empty list of references.  A
    reference is a function or class of that file named exactly [symbol],
    at its start line, or an import of the file that names [symbol], at
    line 0.  A cached file that defines or imports [symbol] is listed. *)
Theorem findReferences_sound_complete (cache : Cache) (symbol : string) :
  Subsequence (map fst (findReferences cache symbol)) (cacheValues cache)
  /\ (forall file refs, In (file, refs) (findReferences cache symbol) ->
        refs = fileReferences symbol file /\ refs <> []
        /\ forall r, In r refs ->
             (ref_type r = "function_definition"
              /\ exists fn, In fn (functions file) /\ fn_name fn = symbol
                            /\ ref_line r = fn_startLine fn)
             \/ (ref_type r = "class_definition"
                 /\ exists cls, In cls (classes file) /\ cls_name cls = symbol
                                /\ ref_line r = cls_startLine cls)
             \/ (ref_type r = "import" /\ ref_line r = 0%Z
                 /\ exists imp, In imp (imports file) /\ In symbol (imp_imports imp)))
  /\ (forall file, In file (cacheValues cache) ->
        (exists fn, In fn (functions file) /\ fn_name fn = symbol)
        \/ (exists cls, In cls (classes file) /\ cls_name cls = symbol)
        \/ (exists imp, In imp (imports file) /\ In symbol (imp_imports imp)) ->
        In file (map fst (findReferences cache symbol))).
Proof.
  split; [| split].
  - rewrite findReferences_files. apply Subsequence_filter.
  - intros file refs Hin. unfold findReferences in Hin. apply in_flat_map in Hin. destruct Hin as [file' [_ Hin]].
    cbv zeta in Hin.
    destruct (fileReferences symbol file') as [| r0 rest] eqn:Hrefs; [destruct Hin |].
    destruct Hin as [Heq | []]. inversion Heq; subst file' refs.
    split; [symmetry; exact Hrefs |]. split; [discriminate |].
    intros r Hr. apply fileReferences_types. rewrite Hrefs. exact Hr.
  - intros file Hin Hdef. rewrite findReferences_files. apply filter_In.
    split; [exact Hin |].
    pose proof (@fileReferences_complete symbol file Hdef) as Hne.
    destruct (fileReferences symbol file); [congruence | reflexivity].
Qed.

Lemma findReferences_sound_complete_witness :
  In Samples.clientFile (map fst (findReferences Samples.indexed "helper"))
  /\ In Samples.utilFile (map fst (findReferences Samples.indexed "helper")).
Proof.
  split.
  - apply (proj2 (proj2 (findReferences_sound_complete Samples.indexed "helper"))).
    + vm_compute. tauto.
    + right. right. eexists. split; [left; reflexivity | left; reflexivity].
  - apply (proj2 (proj2 (findReferences_sound_complete Samples.indexed "helper"))).
    + vm_compute. tauto.
    + left. eexists. split; [left; reflexivity | reflexivity].
Defined.

Lemma findWithExtensions_found (files : list FileInfo) (importPath : string)
      (extensions : list string) (found : FileInfo) :
  findWithExtensions files importPath extensions = Some found ->
  In found files /\ includes (relativePath found) importPath = true.
Proof.
  induction extensions as [| ext rest IH]; cbn [findWithExtensions]; [discriminate |].
  destruct (find _ files) as [f |] eqn:Hfind; [| exact IH].
  intros Heq. inversion Heq; subst f. apply find_some in Hfind.
  destruct Hfind as [Hin Htest]. split; [exact Hin |].
  apply orb_true_iff in Htest. destruct Htest as [He | He];
    apply String.eqb_eq in He; rewrite He; apply includes_extended.
Qed.

Lemma findFile_found (cache : Cache) (importPath : string) (found : FileInfo) :
  findFile cache importPath = Some found ->
  In found (cacheValues cache)
  /\ (includes (relativePath found) importPath = true
      \/ includes (path found) importPath = true).
Proof.
  unfold findFile. cbv zeta.
  destruct (find _ (cacheValues cache)) as [f |] eqn:Hexact.
  - intros Heq. inversion Heq; subst f. apply find_some in Hexact.
    destruct Hexact as [Hin Htest]. split; [exact Hin |].
    apply orb_true_iff in Htest. destruct Htest as [He | He];
      apply String.eqb_eq in He; rewrite He; [left | right]; apply includes_refl.
  - destruct (findWithExtensions _ _ _) as [f |] eqn:Hext.
    + intros Heq. inversion Heq; subst f.
      destruct (findWithExtensions_found _ _ _ Hext) as [Hin Hinc]. auto.
    + intros Hlast. apply find_some in Hlast. destruct Hlast as [Hin Htest].
      split; [exact Hin |]. apply orb_true_iff in Htest. exact Htest.
Qed.

Lemma findFile_none (cache : Cache) (importPath : string) :
  findFile cache importPath = None <->
  forall f, In f (cacheValues cache) ->
            includes (relativePath f) importPath = false
            /\ includes (path f) importPath = false.
Proof.
  split.
  - intros Hnone f Hin.
    assert (Hlast : find (fun f => includes (relativePath f) importPath
                                   || includes (path f) importPath)
                         (cacheValues cache) = None).
    { revert Hnone. unfold findFile. cbv zeta.
      destruct (find _ (cacheValues cache)); [discriminate |].
      destruct (findWithExtensions _ _ _); [discriminate | trivial]. }
    pose proof (find_none _ _ Hlast f Hin) as Hf. cbv beta in Hf.
    apply orb_false_iff in Hf. exact Hf.
  - intros Hall. destruct (findFile cache importPath) as [found |] eqn:Hfound;
      [| reflexivity].
    destruct (findFile_found _ _ Hfound) as [Hin Hinc].
    destruct (Hall found Hin) as [Hr Hp]. destruct Hinc; congruence.
Qed.

(** X18. [findFile] resolves an import path to a cached record whose
    relative or absolute path contains the import path, and fails only when
    no cached path contains it.  A record whose relative or absolute path
    equals the import path is preferred to every other candidate. *)
Theorem findFile_resolution (cache : Cache) (importPath : string) :
  (forall found, findFile cache importPath = Some found ->
     In found (cacheValues cache)
     /\ (includes (relativePath found) importPath = true
         \/ includes (path found) importPath = true))
  /\ (findFile cache importPath = None <->
      forall f, In f (cacheValues cache) ->
                includes (relativePath f) importPath = false
                /\ includes (path f) importPath = false)
  /\ (forall f, In f (cacheValues cache) ->
        relativePath f = importPath \/ path f = importPath ->
        exists found, findFile cache importPath = Some found
                      /\ (relativePath found = importPath \/ path found = importPath)).
Proof.
  split; [| split].
  - intros found. apply findFile_found.
  - apply findFile_none.
  - intros f Hin Hf. unfold findFile. cbv zeta.
    destruct (find _ (cacheValues cache)) as [found |] eqn:Hexact.
    + exists found. split; [reflexivity |]. apply find_some in Hexact.
      destruct Hexact as [_ Htest]. apply orb_true_iff in Htest.
      destruct Htest as [He | He]; apply String.eqb_eq in He; auto.
    + pose proof (find_none _ _ Hexact f Hin) as Hnot. cbv beta in Hnot.
      apply orb_false_iff in Hnot. destruct Hnot as [Hr Hp].
      apply String.eqb_neq in Hr. apply String.eqb_neq in Hp. destruct Hf; contradiction.
Qed.

Lemma findFile_resolution_witness :
  (In Samples.utilFile (cacheValues Samples.indexed)
   /\ (includes (relativePath Samples.utilFile) "src/util" = true
       \/ includes (path Samples.utilFile) "src/util" = true))
  /\ findFile Samples.indexed "lodash" = None.
Proof.
  split.
  - apply (proj1 (findFile_resolution Samples.indexed "src/util")). reflexivity.
  - apply (proj1 (proj2 (findFile_resolution Samples.indexed "lodash"))).
    intros f Hin. vm_compute in Hin.
    destruct Hin as [<- | [<- | [<- | [<- | []]]]]; split; reflexivity.
Defined.

(** X19. Every edge of the analyzer's dependency graph is an import edge
    from one of the given files to a cached file that [findFile] resolves
    one of its dependencies to; a dependency that resolves to nothing adds
    no edge, so there are at most as many edges as dependencies.  Over the
    cached files themselves, as [getDependencyGraph] calls it, both ends of
    every edge are node ids. *)
Theorem buildDependencyEdges_closed (cache : Cache) (files : list FileInfo) :
  (forall edge, In edge (buildDependencyEdges cache files) ->
     edge_type edge = "import"
     /\ exists file dep targetFile,
          In file files /\ In dep (dependencies file)
          /\ findFile cache dep = Some targetFile
          /\ In targetFile (cacheValues cache)
          /\ source edge = relativePath file
          /\ target edge = relativePath targetFile)
  /\ List.length (buildDependencyEdges cache files)
     <= List.length (flat_map dependencies files)
  /\ (forall edge, In edge (buildDependencyEdges cache (cacheValues cache)) ->
        In (source edge) (map relativePath (cacheValues cache))
        /\ In (target edge) (map relativePath (cacheValues cache))).
Proof.
  assert (Hedges : forall fs edge, In edge (buildDependencyEdges cache fs) ->
     edge_type edge = "import"
     /\ exists file dep targetFile,
          In file fs /\ In dep (dependencies file)
          /\ findFile cache dep = Some targetFile
          /\ In targetFile (cacheValues cache)
          /\ source edge = relativePath file
          /\ target edge = relativePath targetFile).
  { intros fs edge Hin. unfold buildDependencyEdges in Hin.
    apply in_flat_map in Hin. destruct Hin as [file [Hfile Hin]].
    apply in_flat_map in Hin. destruct Hin as [dep [Hdep Hin]].
    destruct (findFile cache dep) as [targetFile |] eqn:Hfind; [| destruct Hin].
    destruct Hin as [<- | []]. split; [reflexivity |].
    exists file, dep, targetFile. cbn.
    destruct (findFile_found _ _ Hfind) as [Hcached _]. auto 10. }
  split; [apply Hedges | split].
  - unfold buildDependencyEdges.
    induction files as [| file files IH]; [apply Nat.le_refl |].
    cbn [flat_map]. rewrite !length_app.
    apply Nat.add_le_mono; [| exact IH].
    induction (dependencies file) as [| dep deps IHd]; [apply Nat.le_refl |].
    cbn [flat_map]. rewrite length_app.
    destruct (findFile cache dep); cbn [List.length]; lia.
  - intros edge Hin. destruct (Hedges _ _ Hin) as [_ [file [dep [targetFile H]]]].
    destruct H as [Hfile [_ [_ [Htarget [Hs Ht]]]]]. rewrite Hs, Ht.
    split; apply in_map; assumption.
Qed.

Lemma buildDependencyEdges_closed_witness :
  buildDependencyEdges Samples.indexed (cacheValues Samples.indexed)
  = [ {| source := "src/main.ts"; target := "src/util.ts"; edge_type := "import" |} ]
  /\ In "src/util.ts" (map relativePath (cacheValues Samples.indexed)).
Proof.
  split; [reflexivity |].
  apply (proj2 (proj2 (buildDependencyEdges_closed Samples.indexed
                         (cacheValues Samples.indexed)))
           {| source := "src/main.ts"; target := "src/util.ts"; edge_type := "import" |}).
  left. reflexivity.
Defined.

(* ================================================================== *)
(** * The file watcher                                                 *)
(* ================================================================== *)

Lemma uniqueFrom_seen (seen seen' xs : list string) :
  (forall x, In x seen <-> In x seen') -> uniqueFrom seen xs = uniqueFrom seen' xs.
Proof.
  revert seen seen'. induction xs as [| x xs IH]; intros seen seen' H; [reflexivity |].
  cbn [uniqueFrom].
  assert (He : existsb (String.eqb x) seen = existsb (String.eqb x) seen').
  { apply eq_true_iff_eq. rewrite !existsb_exists.
    split; intros [y [Hy Hxy]]; exists y; (split; [apply H; exact Hy | exact Hxy]). }
  rewrite He. destruct (existsb (String.eqb x) seen').
  - apply IH. exact H.
  - f_equal. apply IH. intros y. cbn [In]. rewrite H. reflexivity.
Qed.

(** Queueing a burst of paths appends their first occurrences that are not
    queued yet. *)
Lemma run_file_events (paths : list string) (st : FileWatcher.Debounce) :
  FileWatcher.run (map FileWatcher.FileEvent paths) st
  = match paths with
    | [] => st
    | _ :: _ =>
        {| FileWatcher.changeQueue :=
             (FileWatcher.changeQueue st
              ++ uniqueFrom (FileWatcher.changeQueue st) paths)%list;
           FileWatcher.changeTimeout := true;
           FileWatcher.delivered := FileWatcher.delivered st |}
    end.
Proof.
  revert st. induction paths as [| p paths IH]; intros st; [reflexivity |].
  unfold FileWatcher.run in *. cbn [map fold_left FileWatcher.step]. rewrite IH.
  cbn [uniqueFrom]. unfold FileWatcher.queueChange.
  destruct (existsb (String.eqb p) (FileWatcher.changeQueue st)) eqn:Hp;
    cbn [FileWatcher.changeQueue FileWatcher.changeTimeout FileWatcher.delivered].
  - destruct paths as [| q paths]; [cbn [uniqueFrom]; rewrite app_nil_r; reflexivity |].
    reflexivity.
  - destruct paths as [| q paths]; [reflexivity |].
    rewrite <- app_assoc. cbn [app]. do 3 f_equal.
    apply uniqueFrom_seen. intros x. rewrite in_app_iff. cbn [In]. tauto.
Qed.

(** X20. A burst of file events followed by the timer delivers one batch:
    the reported paths without repetition, in the order of their first
    report; the queue is empty and no timer is pending afterwards. *)
Theorem debounce_burst (st : FileWatcher.Debounce) (filePath : string)
        (paths : list string) (Hempty : FileWatcher.changeQueue st = []) :
  FileWatcher.run (map FileWatcher.FileEvent (filePath :: paths)
                   ++ [FileWatcher.TimerFired])%list st
  = {| FileWatcher.changeQueue := [];
       FileWatcher.changeTimeout := false;
       FileWatcher.delivered :=
         (FileWatcher.delivered st ++ [unique (filePath :: paths)])%list |}.
Proof.
  unfold FileWatcher.run. rewrite fold_left_app.
  change (fold_left FileWatcher.step (map FileWatcher.FileEvent (filePath :: paths)) st)
    with (FileWatcher.run (map FileWatcher.FileEvent (filePath :: paths)) st).
  rewrite run_file_events, Hempty. cbn [app fold_left FileWatcher.step
    FileWatcher.changeTimeout]. unfold FileWatcher.processChanges.
  cbn [FileWatcher.changeQueue FileWatcher.delivered uniqueFrom existsb List.length Nat.ltb
       Nat.leb]. reflexivity.
Qed.

Lemma debounce_burst_witness :
  FileWatcher.delivered
    (FileWatcher.run (map FileWatcher.FileEvent ["a.ts"; "b.ts"; "a.ts"]
                      ++ [FileWatcher.TimerFired])%list FileWatcher.idle)
  = [["a.ts"; "b.ts"]].
Proof.
  rewrite (debounce_burst FileWatcher.idle "a.ts" ["b.ts"; "a.ts"] eq_refl).
  reflexivity.
Defined.

Lemma NoDup_snoc (x : string) (xs : list string) :
  NoDup xs -> ~ In x xs -> NoDup (xs ++ [x]).
Proof.
  intros Hnd Hx. induction Hnd as [| y ys Hy Hnd IH]; cbn [app].
  - constructor; [intros [] | constructor].
  - constructor.
    + rewrite in_app_iff. cbn [In]. intros [H | [H | []]]; [contradiction |].
      apply Hx. left. symmetry. exact H.
    + apply IH. intros H. apply Hx. right. exact H.
Qed.

Lemma existsb_eqb_In (x : string) (xs : list string) :
  existsb (String.eqb x) xs = true <-> In x xs.
Proof.
  rewrite existsb_exists. split.
  - intros [y [Hy He]]. apply String.eqb_eq in He. subst y. exact Hy.
  - intros H. exists x. split; [exact H | apply String.eqb_refl].
Qed.

(** X21. In every run of a watcher from its initial state: the queue holds
    no path twice; a timer is pending exactly when the queue is not empty;
    every delivered batch is non-empty and without repetition; every path
    the file system reported is queued or was delivered; and nothing else
    is. *)
Theorem watcher_run_invariant (events : list FileWatcher.Event) :
  let st := FileWatcher.run events FileWatcher.idle in
  NoDup (FileWatcher.changeQueue st)
  /\ (FileWatcher.changeTimeout st = true <-> FileWatcher.changeQueue st <> [])
  /\ (forall batch, In batch (FileWatcher.delivered st) -> batch <> [] /\ NoDup batch)
  /\ (forall filePath,
        In filePath (reported events)
        <-> In filePath (FileWatcher.changeQueue st)
            \/ exists batch, In batch (FileWatcher.delivered st) /\ In filePath batch).
Proof.
  cbv zeta. unfold FileWatcher.run. rewrite <- (rev_involutive events).
  induction (rev events) as [| ev evs IH]; cbn [rev].
  - cbn. split; [constructor |]. split; [split; [discriminate | congruence] |].
    split; [intros batch [] |]. intros filePath. split; [intros [] |].
    intros [[] | [batch [[] _]]].
  - rewrite fold_left_app. cbn [fold_left].
    set (st := fold_left FileWatcher.step (rev evs) FileWatcher.idle) in *.
    destruct IH as [Hnd [Htimer [Hbatches Hpaths]]].
    assert (Hrep : forall filePath,
               In filePath (reported (rev evs ++ [ev]))
               <-> In filePath (reported (rev evs))
                   \/ ev = FileWatcher.FileEvent filePath).
    { intros filePath. unfold reported. rewrite flat_map_app, in_app_iff.
      cbn [flat_map]. rewrite app_nil_r.
      destruct ev as [p |]; cbn [In]; split; intros [H | H]; auto.
      - destruct H as [-> | []]. right. reflexivity.
      - inversion H. right. left. reflexivity.
      - destruct H.
      - discriminate. }
    destruct ev as [p |]; cbn [FileWatcher.step].
    + unfold FileWatcher.queueChange.
      cbn [FileWatcher.changeQueue FileWatcher.changeTimeout FileWatcher.delivered].
      destruct (existsb (String.eqb p) (FileWatcher.changeQueue st)) eqn:Hp.
      * apply existsb_eqb_In in Hp.
        split; [exact Hnd |]. split.
        { split; [intros _ Hq; rewrite Hq in Hp; destruct Hp | reflexivity]. }
        split; [exact Hbatches |].
        intros filePath. rewrite Hrep, Hpaths. split; [| tauto].
        intros [H | H]; [exact H |]. inversion H; subst. left. exact Hp.
      * assert (Hnot : ~ In p (FileWatcher.changeQueue st))
          by (rewrite <- existsb_eqb_In, Hp; discriminate).
        split; [apply NoDup_snoc; assumption |]. split.
        { split; [intros _ Hq; apply app_eq_nil in Hq; destruct Hq; discriminate
                 | reflexivity]. }
        split; [exact Hbatches |].
        intros filePath. rewrite Hrep, Hpaths, in_app_iff. cbn [In]. split.
        -- intros [[H | H] | H]; auto. inversion H. auto.
        -- intros [[H | [H | []]] | H]; auto. subst. right. reflexivity.
    + destruct (FileWatcher.changeTimeout st) eqn:Ht.
      * assert (Hq : FileWatcher.changeQueue st <> []) by (apply Htimer; reflexivity).
        unfold FileWatcher.processChanges.
        destruct (FileWatcher.changeQueue st) as [| q queue] eqn:Hqueue; [congruence |].
        cbn [List.length Nat.ltb Nat.leb FileWatcher.changeQueue
             FileWatcher.changeTimeout FileWatcher.delivered].
        split; [constructor |]. split; [split; [discriminate | congruence] |].
        split.
        { intros batch Hin. apply in_app_or in Hin. destruct Hin as [Hin | [<- | []]].
          - apply Hbatches. exact Hin.
          - split; [discriminate | exact Hnd]. }
        intros filePath. rewrite Hrep, Hpaths. split.
        -- intros [[H | [batch [Hb Hin]]] | H]; [| | discriminate].
           ++ right. exists (q :: queue). split; [| exact H].
              apply in_or_app. right. left. reflexivity.
           ++ right. exists batch. split; [apply in_or_app; left |]; assumption.
        -- intros [[] | [batch [Hb Hin]]]. left.
           apply in_app_or in Hb. destruct Hb as [Hb | [<- | []]].
           ++ right. exists batch. auto.
           ++ left. exact Hin.
      * split; [exact Hnd |]. split; [rewrite Ht; exact Htimer |].
        split; [exact Hbatches |].
        intros filePath. rewrite Hrep, Hpaths. split; [| tauto].
        intros [H | H]; [exact H | discriminate].
Qed.

Lemma watcher_run_invariant_witness :
  NoDup (FileWatcher.changeQueue
           (FileWatcher.run [FileWatcher.FileEvent "a.ts"; FileWatcher.TimerFired;
                             FileWatcher.FileEvent "b.ts"; FileWatcher.FileEvent "b.ts"]
                            FileWatcher.idle))
  /\ (In "a.ts" ["a.ts"] /\ ~ In "a.ts" ["b.ts"]).
Proof.
  split.
  - apply (proj1 (watcher_run_invariant
                    [FileWatcher.FileEvent "a.ts"; FileWatcher.TimerFired;
                     FileWatcher.FileEvent "b.ts"; FileWatcher.FileEvent "b.ts"])).
  - split; [left; reflexivity | intros [H | []]; discriminate].
Defined.

Lemma uniqueFrom_complete (seen xs : list string) (x : string) :
  In x xs -> ~ In x seen -> In x (uniqueFrom seen xs).
Proof.
  revert seen. induction xs as [| y xs IH]; intros seen Hin Hseen; [destruct Hin |].
  cbn [uniqueFrom]. destruct (existsb (String.eqb y) seen) eqn:Hy.
  - apply IH; [| exact Hseen]. destruct Hin as [-> | Hin]; [| exact Hin].
    apply existsb_eqb_In in Hy. contradiction.
  - destruct (string_dec y x) as [-> | Hne]; [left; reflexivity |].
    right. apply IH.
    + destruct Hin as [Heq | Hin]; [contradiction | exact Hin].
    + intros [Heq | H]; [contradiction | apply Hseen; exact H].
Qed.

Lemma unique_In (xs : list string) (x : string) : In x (unique xs) <-> In x xs.
Proof.
  split.
  - intros H. apply (proj2 (uniqueFrom_spec [] xs) x H).
  - intros H. apply uniqueFrom_complete; [exact H | intros []].
Qed.

Lemma uniqueFrom_snoc (seen xs : list string) (x : string) :
  uniqueFrom seen (xs ++ [x])
  = (uniqueFrom seen xs
     ++ if existsb (String.eqb x) seen || existsb (String.eqb x) xs then [] else [x])%list.
Proof.
  revert seen. induction xs as [| y xs IH]; intros seen.
  - cbn [app uniqueFrom existsb]. rewrite orb_false_r.
    destruct (existsb (String.eqb x) seen); reflexivity.
  - cbn [app uniqueFrom existsb]. destruct (existsb (String.eqb y) seen) eqn:Hy.
    + rewrite IH. f_equal. destruct (String.eqb x y) eqn:Hxy; [| reflexivity].
      apply String.eqb_eq in Hxy. subst y. rewrite Hy. reflexivity.
    + rewrite IH. cbn [app existsb]. do 2 f_equal.
      destruct (String.eqb x y), (existsb (String.eqb x) seen),
               (existsb (String.eqb x) xs); reflexivity.
Qed.

Lemma rootsSinceStop_snoc (calls : list WatcherCall) (c : WatcherCall) :
  rootsSinceStop (calls ++ [c])
  = match c with
    | CallWatch projectRoot => (rootsSinceStop calls ++ [projectRoot])%list
    | CallStopWatching => []
    end.
Proof. unfold rootsSinceStop. rewrite fold_left_app. reflexivity. Qed.

(** X22. After any sequence of [watch] and [stopWatching] calls on a new
    watcher object, the watched paths are the roots passed to [watch] since
    the last [stopWatching], each once, in the order of their first call,
    and [isWatching] answers membership in them; the one active watcher is
    the watcher of the last of these roots only. *)
Theorem watcher_calls (path_join : string -> string -> string)
        (calls : list WatcherCall) :
  let st := fold_left (watcherCall path_join) calls FileWatcher.initial in
  FileWatcher.getWatchedPaths st = unique (rootsSinceStop calls)
  /\ (forall projectRoot,
        FileWatcher.isWatching st projectRoot = true
        <-> In projectRoot (rootsSinceStop calls))
  /\ FileWatcher.watcher st
     = match rev (rootsSinceStop calls) with
       | [] => None
       | projectRoot :: _ =>
           FileWatcher.watcher
             (FileWatcher.watch path_join FileWatcher.initial projectRoot)
       end.
Proof.
  cbv zeta.
  assert (Hstate : FileWatcher.watchedPaths
                     (fold_left (watcherCall path_join) calls FileWatcher.initial)
                   = unique (rootsSinceStop calls)
                   /\ FileWatcher.watcher
                        (fold_left (watcherCall path_join) calls FileWatcher.initial)
                      = match rev (rootsSinceStop calls) with
                        | [] => None
                        | projectRoot :: _ =>
                            FileWatcher.watcher
                              (FileWatcher.watch path_join FileWatcher.initial projectRoot)
                        end).
  { rewrite <- (rev_involutive calls).
    induction (rev calls) as [| c cs IH]; cbn [rev]; [split; reflexivity |].
    rewrite fold_left_app, rootsSinceStop_snoc. cbn [fold_left].
    set (st := fold_left (watcherCall path_join) (rev cs) FileWatcher.initial) in *.
    destruct IH as [Hpaths Hwatcher].
    destruct c as [projectRoot |]; cbn [watcherCall].
    - unfold FileWatcher.watch.
      cbn [FileWatcher.watchedPaths FileWatcher.watcher]. split.
      + rewrite Hpaths. unfold unique. rewrite uniqueFrom_snoc.
        cbn [existsb orb].
        assert (He : existsb (String.eqb projectRoot)
                             (uniqueFrom [] (rootsSinceStop (rev cs)))
                     = existsb (String.eqb projectRoot) (rootsSinceStop (rev cs))).
        { apply eq_true_iff_eq. rewrite !existsb_eqb_In.
          apply (unique_In (rootsSinceStop (rev cs)) projectRoot). }
        rewrite He. destruct (existsb _ (rootsSinceStop (rev cs)));
          [rewrite app_nil_r |]; reflexivity.
      + rewrite rev_app_distr. reflexivity.
    - unfold FileWatcher.stopWatching.
      destruct (FileWatcher.watcher st) eqn:Hw; [split; reflexivity |].
      cbn [rev]. split; [| exact Hw].
      rewrite Hpaths.
      destruct (rev (rootsSinceStop (rev cs))) as [| r rs] eqn:Hrev.
      + apply (f_equal (@rev string)) in Hrev. rewrite rev_involutive in Hrev.
        rewrite Hrev. reflexivity.
      + discriminate. }
  destruct Hstate as [Hpaths Hwatcher].
  split; [exact Hpaths |]. split; [| exact Hwatcher].
  intros projectRoot. unfold FileWatcher.isWatching. rewrite Hpaths.
  rewrite existsb_eqb_In. apply unique_In.
Qed.

Lemma watcher_calls_witness :
  FileWatcher.isWatching
    (fold_left (watcherCall String.append)
               [CallWatch "/a"; CallWatch "/b"] FileWatcher.initial) "/a" = true.
Proof.
  apply (proj1 (proj2 (watcher_calls String.append [CallWatch "/a"; CallWatch "/b"]))).
  left. reflexivity.
Defined.

(* ================================================================== *)
(** * The dependency graph of one target                               *)
(* ================================================================== *)

Lemma fold_left_invariant {A B : Type} (P : A -> Prop) (f : A -> B -> A)
      (xs : list B) (a : A) :
  (forall a x, P a -> P (f a x)) -> P a -> P (fold_left f xs a).
Proof.
  intros Hstep. revert a. induction xs as [| x xs IH]; intros a Ha; [exact Ha |].
  cbn [fold_left]. apply IH. apply Hstep. exact Ha.
Qed.

Lemma collectDependencies_collectedFrom (cache : Cache) (budget : nat)
      (file : FileInfo) (st : ProjectAnalyzer.Collected) :
  collectedFrom cache st ->
  collectedFrom cache (ProjectAnalyzer.collectDependencies cache budget file st).
Proof.
  revert file st. induction budget as [| budget IH]; intros file st Hst; [exact Hst |].
  cbn [ProjectAnalyzer.collectDependencies].
  destruct (existsb (String.eqb (path file)) (ProjectAnalyzer.visited st)); [exact Hst |].
  apply fold_left_invariant; [| exact Hst].
  intros st' dep Hst'.
  destruct (findFile cache dep) as [depFile |] eqn:Hfind; [| exact Hst'].
  destruct (existsb (String.eqb (relativePath depFile)) (ProjectAnalyzer.collected st'))
    eqn:Hseen; [exact Hst' |].
  apply IH. destruct Hst' as [Hnd Hcached]. split; cbn [ProjectAnalyzer.collected].
  - apply NoDup_snoc; [exact Hnd |]. rewrite <- existsb_eqb_In, Hseen. discriminate.
  - intros d Hd. apply in_app_or in Hd. destruct Hd as [Hd | [<- | []]].
    + apply Hcached. exact Hd.
    + apply in_map. apply (findFile_found _ _ Hfind).
Qed.

Lemma find_all_false {A : Type} (p : A -> bool) (xs : list A) :
  (forall x, In x xs -> p x = false) -> List.find p xs = None.
Proof.
  induction xs as [| x xs IH]; intros H; [reflexivity |].
  cbn [List.find]. rewrite (H x (or_introl eq_refl)).
  apply IH. intros y Hy. apply H. right. exact Hy.
Qed.

Lemma Subsequence_map {A B : Type} (f : A -> B) (xs ys : list A) :
  Subsequence xs ys -> Subsequence (map f xs) (map f ys).
Proof. induction 1; cbn [map]; constructor; assumption. Qed.

Lemma dependentsOf_filter (target : string) (files : list FileInfo) :
  ProjectAnalyzer.dependentsOf target files
  = map relativePath
        (filter (fun file =>
                   existsb (String.eqb target) (dependencies file)
                   || some (fun imp => String.eqb (imp_path imp) target) (imports file))
                files).
Proof.
  unfold ProjectAnalyzer.dependentsOf.
  induction files as [| file files IH]; [reflexivity |].
  cbn [flat_map filter]. rewrite IH.
  destruct (existsb (String.eqb target) (dependencies file)
            || some (fun imp => String.eqb (imp_path imp) target) (imports file));
    reflexivity.
Qed.

(** X23. The analyzer's graph of one target.  The target is the record
    [findFile] resolves it to: when [findFile] finds nothing, the second
    lookup finds nothing either and the answer is the empty graph, with or
    without test files.  Otherwise the dependencies are pairwise different
    relative paths of cached files, the dependents are relative paths of
    cached files in cache order, there is one edge per dependency and per
    dependent, and both ends of every edge are nodes. *)
Theorem analyzer_buildDependencyGraph_shape (cache : Cache) (target : string)
        (includeTests : bool) :
  let graph := ProjectAnalyzer.buildDependencyGraph cache target includeTests in
  (findFile cache target = None ->
   graph = {| ProjectAnalyzer.tg_target := target;
              ProjectAnalyzer.tg_dependencies := [];
              ProjectAnalyzer.tg_dependents := [];
              ProjectAnalyzer.tg_nodes := [];
              ProjectAnalyzer.tg_edges := [] |})
  /\ (forall targetFile, findFile cache target = Some targetFile ->
        ProjectAnalyzer.tg_target graph = relativePath targetFile
        /\ NoDup (ProjectAnalyzer.tg_dependencies graph)
        /\ (forall d, In d (ProjectAnalyzer.tg_dependencies graph) ->
                      In d (map relativePath (cacheValues cache)))
        /\ Subsequence (ProjectAnalyzer.tg_dependents graph)
                       (map relativePath (cacheValues cache))
        /\ List.length (ProjectAnalyzer.tg_edges graph)
           = List.length (ProjectAnalyzer.tg_dependencies graph)
             + List.length (ProjectAnalyzer.tg_dependents graph)
        /\ (forall e, In e (ProjectAnalyzer.tg_edges graph) ->
              In (ProjectAnalyzer.link_source e) (ProjectAnalyzer.tg_nodes graph)
              /\ In (ProjectAnalyzer.link_target e) (ProjectAnalyzer.tg_nodes graph))).
Proof.
  cbv zeta. unfold ProjectAnalyzer.buildDependencyGraph. cbv zeta.
  set (filteredFiles :=
         if includeTests then cacheValues cache
         else filter (fun f => negb (includes (path f) "test")
                               && negb (includes (path f) "spec")) (cacheValues cache)).
  assert (Hfiltered : Subsequence filteredFiles (cacheValues cache)).
  { unfold filteredFiles. destruct includeTests;
      [apply Subsequence_refl | apply Subsequence_filter]. }
  split.
  - intros Hnone. rewrite Hnone.
    rewrite find_all_false; [reflexivity |].
    intros f Hf.
    apply (proj1 (proj1 (findFile_none cache target) Hnone f
                    (@Subsequence_In _ _ _ f Hfiltered Hf))).
  - intros targetFile Hfound. rewrite Hfound.
    cbn [ProjectAnalyzer.tg_target ProjectAnalyzer.tg_dependencies
         ProjectAnalyzer.tg_dependents ProjectAnalyzer.tg_nodes ProjectAnalyzer.tg_edges].
    set (st := ProjectAnalyzer.collectDependencies cache 6 targetFile
                 {| ProjectAnalyzer.visited := []; ProjectAnalyzer.collected := [] |}).
    assert (Hst : collectedFrom cache st).
    { apply collectDependencies_collectedFrom. split; [constructor | intros d []]. }
    destruct Hst as [Hnd Hcached].
    split; [reflexivity |]. split; [exact Hnd |]. split; [exact Hcached |].
    split; [| split].
    + rewrite dependentsOf_filter. apply Subsequence_map.
      eapply Subsequence_trans; [apply Subsequence_filter | exact Hfiltered].
    + rewrite length_app, !length_map. reflexivity.
    + intros e He. apply in_app_or in He.
      destruct He as [He | He]; apply in_map_iff in He; destruct He as [d [<- Hd]];
        cbn [ProjectAnalyzer.link_source ProjectAnalyzer.link_target].
      * split; [left; reflexivity | right; apply in_or_app; left; exact Hd].
      * split; [right; apply in_or_app; right; exact Hd | left; reflexivity].
Qed.

Lemma analyzer_buildDependencyGraph_shape_witness :
  ProjectAnalyzer.buildDependencyGraph Samples.indexed "lodash" false
  = {| ProjectAnalyzer.tg_target := "lodash";
       ProjectAnalyzer.tg_dependencies := [];
       ProjectAnalyzer.tg_dependents := [];
       ProjectAnalyzer.tg_nodes := [];
       ProjectAnalyzer.tg_edges := [] |}
  /\ ProjectAnalyzer.tg_dependencies
       (ProjectAnalyzer.buildDependencyGraph Samples.indexed "src/main.ts" true)
     = ["src/util.ts"]
  /\ NoDup (ProjectAnalyzer.tg_dependencies
              (ProjectAnalyzer.buildDependencyGraph Samples.indexed "src/main.ts" true)).
Proof.
  split; [| split].
  - apply (proj1 (analyzer_buildDependencyGraph_shape Samples.indexed "lodash" false)).
    reflexivity.
  - reflexivity.
  - apply (proj2 (analyzer_buildDependencyGraph_shape Samples.indexed "src/main.ts" true)
             Samples.mainFile).
    reflexivity.
Defined.

(* ================================================================== *)
(** * Tier 1 on a document without file contents                       *)
(* ================================================================== *)

Lemma splitFrom_skip (sep pre rest : string) :
  splitFrom sep (String.length pre) (pre ++ rest) = splitFrom sep 0 rest.
Proof.
  induction pre as [| c pre IH]; [reflexivity |].
  cbn [String.length String.append splitFrom]. exact IH.
Qed.

Lemma splitFrom_nonempty (sep : string) (skip : nat) (s : string) :
  splitFrom sep skip s <> [].
Proof.
  revert skip. induction s as [| c s IH]; intros skip; cbn [splitFrom]; [discriminate |].
  destruct skip as [| k]; [| apply IH].
  destruct (String.prefix sep (String c s)); [discriminate |].
  unfold consField. destruct (splitFrom sep 0 s); discriminate.
Qed.

Lemma split_separator (c : ascii) (sep rest : string) :
  split (String c sep ++ rest) (String c sep) = "" :: split rest (String c sep).
Proof.
  unfold split. cbn [String.append splitFrom].
  assert (Hp : String.prefix (String c sep) (String c (sep ++ rest)) = true)
    by (apply prefix_iff; exists rest; reflexivity).
  rewrite Hp. cbn [String.length Nat.sub]. rewrite Nat.sub_0_r, splitFrom_skip.
  reflexivity.
Qed.

Lemma join_consField (c : ascii) (fields : list string) (sep : string) :
  fields <> [] -> join (consField c fields) sep = String c (join fields sep).
Proof.
  destruct fields as [| f fs]; [contradiction |]. intros _.
  unfold consField. destruct fs; reflexivity.
Qed.

(** Splitting at a separator and joining with it gives the text back. *)
Lemma join_split (c : ascii) (sep s : string) :
  join (split s (String c sep)) (String c sep) = s.
Proof.
  remember (String.length s) as n eqn:Hn. revert s Hn.
  induction n as [n IH] using lt_wf_ind. intros s Hn.
  destruct s as [| a s]; [reflexivity |].
  destruct (String.prefix (String c sep) (String a s)) eqn:Hp.
  - apply prefix_iff in Hp. destruct Hp as [rest Hrest]. rewrite Hrest.
    rewrite split_separator, join_cons by apply splitFrom_nonempty.
    rewrite (IH (String.length rest)); [reflexivity | | reflexivity].
    rewrite Hn, Hrest, length_append. cbn [String.length]. lia.
  - unfold split. cbn [splitFrom]. rewrite Hp.
    rewrite join_consField by apply splitFrom_nonempty.
    f_equal. apply (IH (String.length s)); [| reflexivity].
    rewrite Hn. cbn [String.length]. lia.
Qed.

Lemma includes_join_member (xs : list string) (sep x : string) :
  In x xs -> includes (join xs sep) x = true.
Proof.
  induction xs as [| y xs IH]; intros Hin; [destruct Hin |].
  destruct xs as [| z xs].
  - destruct Hin as [<- | []]. apply includes_refl.
  - rewrite join_cons by discriminate. destruct Hin as [<- | Hin].
    + apply includes_extended.
    + apply includes_iff. apply IH in Hin. apply includes_iff in Hin.
      destruct Hin as [a [b Hab]]. exists (y ++ sep ++ a), b.
      rewrite Hab, !append_assoc. reflexivity.
Qed.

Lemma mapiFrom_compressSection (i : nat) (sections : list string) :
  (forall section, In section sections ->
                   includes section "Complete File Contents" = false) ->
  mapiFrom (S i) compressSection sections = map (String.append "## ") sections.
Proof.
  revert i. induction sections as [| section sections IH]; intros i H; [reflexivity |].
  cbn [mapiFrom map]. rewrite IH by (intros x Hx; apply H; right; exact Hx).
  unfold compressSection at 1. rewrite (H section (or_introl eq_refl)).
  reflexivity.
Qed.

Lemma join_head (pre x : string) (xs : list string) (sep : string) :
  join ((pre ++ x) :: xs) sep = pre ++ join (x :: xs) sep.
Proof.
  destruct xs as [| y xs]; [reflexivity |].
  rewrite !join_cons by discriminate. apply append_assoc.
Qed.

Lemma join_prefixed (x : string) (xs : list string) (sep pre : string) :
  join (x :: map (String.append pre) xs) sep = join (x :: xs) (sep ++ pre).
Proof.
  revert x. induction xs as [| y xs IH]; intros x; [reflexivity |].
  cbn [map]. rewrite (@join_cons x (y :: xs)) by discriminate.
  rewrite (@join_cons x ((pre ++ y) :: map (String.append pre) xs)) by discriminate.
  rewrite IH, join_head, append_assoc. reflexivity.
Qed.

Lemma length_join_longer (xs : list string) (sep : string) (c : ascii) :
  String.length (join xs (String c sep))
  = String.length (join xs sep) + (List.length xs - 1).
Proof.
  induction xs as [| x xs IH]; [reflexivity |].
  destruct xs as [| y xs]; [cbn; lia |].
  rewrite (@join_cons x (y :: xs) (String c sep)) by discriminate.
  rewrite (@join_cons x (y :: xs) sep) by discriminate.
  rewrite !length_append, IH. cbn [String.length List.length]. lia.
Qed.

(** X24. On a document in which "Complete File Contents" does not occur,
    Tier 1 removes nothing: it only puts a second line feed before every
    "## " heading that follows a line feed, so its output is longer than the
    document by one code unit per such heading. *)
Theorem moderateCompression_without_contents (context : string)
        (Hnone : includes context "Complete File Contents" = false) :
  moderateCompression context
  = join (split context (LF ++ "## ")) (LF ++ LF ++ "## ")
  /\ String.length (moderateCompression context)
     = String.length context + (List.length (split context (LF ++ "## ")) - 1).
Proof.
  assert (Hjoin : join (split context (LF ++ "## ")) (LF ++ "## ") = context)
    by apply join_split.
  assert (Hsections : forall section, In section (split context (LF ++ "## ")) ->
                        includes section "Complete File Contents" = false).
  { intros section Hin.
    destruct (includes section "Complete File Contents") eqn:Hinc; [| reflexivity].
    pose proof (includes_join_member _ (LF ++ "## ") _ Hin) as Hpart.
    rewrite Hjoin in Hpart.
    rewrite (includes_trans _ _ _ Hpart Hinc) in Hnone. discriminate. }
  assert (Hfirst : moderateCompression context
                   = join (split context (LF ++ "## ")) (LF ++ LF ++ "## ")).
  { unfold moderateCompression. cbv zeta. unfold mapi.
    destruct (split context (LF ++ "## ")) as [| section sections] eqn:Hsplit;
      [reflexivity |].
    cbn [mapiFrom].
    rewrite mapiFrom_compressSection by (intros x Hx; apply Hsections; right; exact Hx).
    unfold compressSection. rewrite (Hsections section (or_introl eq_refl)).
    cbn [Nat.eqb]. rewrite join_prefixed. reflexivity. }
  split; [exact Hfirst |].
  rewrite Hfirst. change (LF ++ LF ++ "## ") with (String (ascii_of_nat 10) (LF ++ "## ")).
  rewrite length_join_longer, Hjoin. reflexivity.
Qed.

Lemma moderateCompression_without_contents_witness :
  String.length (moderateCompression Samples.headings)
  = String.length Samples.headings
    + (List.length (split Samples.headings (LF ++ "## ")) - 1).
Proof.
  apply (proj2 (moderateCompression_without_contents Samples.headings eq_refl)).
Defined.

(* ================================================================== *)
(** * The scanners                                                     *)
(* ================================================================== *)

Lemma StronglySorted_app {A : Type} (R : A -> A -> Prop) (xs ys : list A) :
  StronglySorted R xs -> StronglySorted R ys ->
  (forall x y, In x xs -> In y ys -> R x y) ->
  StronglySorted R (xs ++ ys).
Proof.
  induction 1 as [| x xs Hs IH Hx]; intros Hys Hcross; [exact Hys |].
  cbn [app]. constructor.
  - apply IH; [exact Hys |]. intros a b Ha Hb. apply Hcross; [right |]; assumption.
  - apply Forall_app. split; [exact Hx |].
    apply Forall_forall. intros y Hy. apply Hcross; [left; reflexivity | exact Hy].
Qed.

Lemma StronglySorted_same_key {A : Type} (key : A -> Z) (k : Z) (xs : list A) :
  (forall x, In x xs -> key x = k) ->
  StronglySorted (fun a b => (key a <= key b)%Z) xs.
Proof.
  induction xs as [| x xs IH]; intros H; constructor.
  - apply IH. intros y Hy. apply H. right. exact Hy.
  - apply Forall_forall. intros y Hy.
    rewrite (H x (or_introl eq_refl)), (H y (or_intror Hy)). apply Z.le_refl.
Qed.

(** The records a loop over the lines pushes, when every record pushed for
    the line at [index] carries the number [index + 1]: the numbers never
    decrease, they increase when every line pushes at most one record, and
    they are numbers of lines. *)
Lemma lines_numbered {R : Type} (body : nat -> string -> list R) (key : R -> Z)
      (from : nat) (lines : list string) :
  (forall index line r, In r (body index line) -> key r = Scanners.lineNumber index) ->
  let records := concat (mapiFrom from body lines) in
  Forall (fun r => (Z.of_nat from + 1 <= key r
                    <= Z.of_nat from + Z.of_nat (List.length lines))%Z) records
  /\ StronglySorted (fun a b => (key a <= key b)%Z) records
  /\ ((forall index line, List.length (body index line) <= 1) ->
      StronglySorted (fun a b => (key a < key b)%Z) records).
Proof.
  intros Hkey. cbv zeta. revert from.
  induction lines as [| line lines IH]; intros from.
  - cbn. split; [constructor |]. split; [constructor | intros _; constructor].
  - cbn [mapiFrom concat List.length].
    destruct (IH (S from)) as [Hrange [Hle Hlt]].
    assert (Hhere : forall r, In r (body from line) -> key r = (Z.of_nat from + 1)%Z)
      by (intros r Hr; apply (Hkey _ _ _ Hr)).
    assert (Hlater : forall r, In r (concat (mapiFrom (S from) body lines)) ->
                       (Z.of_nat from + 2 <= key r
                        <= Z.of_nat from + Z.of_nat (S (List.length lines)))%Z).
    { intros r Hr. rewrite Forall_forall in Hrange. specialize (Hrange r Hr). lia. }
    split; [| split].
    + apply Forall_app. split; apply Forall_forall; intros r Hr.
      * rewrite (Hhere r Hr). lia.
      * specialize (Hlater r Hr). lia.
    + apply StronglySorted_app; [eapply StronglySorted_same_key; exact Hhere | exact Hle |].
      intros a b Ha Hb. rewrite (Hhere a Ha). specialize (Hlater b Hb). lia.
    + intros Hone. apply StronglySorted_app; [| apply Hlt; exact Hone |].
      * specialize (Hone from line).
        destruct (body from line) as [| r [| r' rs]]; cbn [List.length] in Hone;
          [constructor | repeat constructor | lia].
      * intros a b Ha Hb. rewrite (Hhere a Ha). specialize (Hlater b Hb). lia.
Qed.

Lemma forEachLine_numbered {R : Type} (body : nat -> string -> list R) (key : R -> Z)
      (content : string) :
  (forall index line r, In r (body index line) -> key r = Scanners.lineNumber index) ->
  let records := Scanners.forEachLine body content in
  Forall (fun r => (1 <= key r <= Z.of_nat (List.length (split content LF)))%Z) records
  /\ StronglySorted (fun a b => (key a <= key b)%Z) records
  /\ ((forall index line, List.length (body index line) <= 1) ->
      StronglySorted (fun a b => (key a < key b)%Z) records).
Proof.
  intros Hkey. exact (lines_numbered body key 0 (split content LF) Hkey).
Qed.

Lemma exported_line (kind : ExportKind) (index : nat) (m : option string)
      (r : ExportRecord) :
  In r (Scanners.exported kind index m) -> exp_line r = Scanners.lineNumber index.
Proof. destruct m; [intros [<- | []]; reflexivity | intros []]. Qed.

Lemma exported_length (kind : ExportKind) (index : nat) (m : option string) :
  List.length (Scanners.exported kind index m) <= 1.
Proof. destruct m; cbn; lia. Qed.

Lemma exportOfLine_line (P : Scanners.Patterns) (index : nat) (line : string)
      (r : ExportRecord) :
  In r (Scanners.exportOfLine P index line) -> exp_line r = Scanners.lineNumber index.
Proof.
  unfold Scanners.exportOfLine. cbv zeta.
  repeat match goal with
         | |- In _ (if ?c then _ else _) -> _ => destruct c
         end;
    try apply exported_line; try (intros [<- | []]; reflexivity); intros [].
Qed.

Lemma exportOfLine_length (P : Scanners.Patterns) (index : nat) (line : string) :
  List.length (Scanners.exportOfLine P index line) <= 1.
Proof.
  unfold Scanners.exportOfLine. cbv zeta.
  repeat match goal with
         | |- List.length (if ?c then _ else _) <= 1 => destruct c
         end;
    try apply exported_length; cbn; lia.
Qed.

(** X25. Whatever the regular expressions match, the scanners number what
    they find by the lines of the text: the line of every export, function,
    class, interface and type lies between 1 and the number of lines; exports,
    classes, interfaces and types come with strictly increasing lines (at
    most one per line), functions with lines that never decrease; and every
    function, class and interface ends on the line on which it starts. *)
Theorem scanners_line_numbers (P : Scanners.Patterns) (content : string)
        (language : Language) :
  let lines := Z.of_nat (List.length (split content LF)) in
  (StronglySorted (fun a b => (exp_line a < exp_line b)%Z)
                  (Scanners.extractExports P content language)
   /\ Forall (fun r => (1 <= exp_line r <= lines)%Z)
             (Scanners.extractExports P content language))
  /\ (StronglySorted (fun a b => (fn_startLine a <= fn_startLine b)%Z)
                     (Scanners.extractFunctions P content language)
      /\ Forall (fun r => (1 <= fn_startLine r <= lines)%Z
                          /\ fn_endLine r = fn_startLine r)
                (Scanners.extractFunctions P content language))
  /\ (StronglySorted (fun a b => (cls_startLine a < cls_startLine b)%Z)
                     (Scanners.extractClasses P content language)
      /\ Forall (fun r => (1 <= cls_startLine r <= lines)%Z
                          /\ cls_endLine r = cls_startLine r)
                (Scanners.extractClasses P content language))
  /\ (StronglySorted (fun a b => (itf_startLine a < itf_startLine b)%Z)
                     (Scanners.extractInterfaces P content language)
      /\ Forall (fun r => (1 <= itf_startLine r <= lines)%Z
                          /\ itf_endLine r = itf_startLine r)
                (Scanners.extractInterfaces P content language))
  /\ (StronglySorted (fun a b => (ty_startLine a < ty_startLine b)%Z)
                     (Scanners.extractTypes P content language)
      /\ Forall (fun r => (1 <= ty_startLine r <= lines)%Z)
                (Scanners.extractTypes P content language)).
Proof.
  cbv zeta.
  assert (Hfn : forall index line r,
             In r (Scanners.functionsOfLine P index line) ->
             fn_startLine r = Scanners.lineNumber index
             /\ fn_endLine r = fn_startLine r).
  { intros index line r. unfold Scanners.functionsOfLine. cbv zeta.
    destruct (Scanners.functionMatch P (trim line)) as [[name paramsStr] |];
      destruct (Scanners.arrowMatch P (trim line)) as [name' |]; cbn [app In];
      intros H; repeat (destruct H as [H | H]; [subst r; split; reflexivity |]);
      destruct H. }
  assert (Hcls : forall index line r,
             In r (Scanners.classOfLine P index line) ->
             cls_startLine r = Scanners.lineNumber index
             /\ cls_endLine r = cls_startLine r).
  { intros index line r. unfold Scanners.classOfLine. cbv zeta.
    destruct (Scanners.classMatch P (trim line)) as [[[name ext] impl] |];
      intros H; [destruct H as [<- | []]; split; reflexivity | destruct H]. }
  assert (Hcls1 : forall index line,
             List.length (Scanners.classOfLine P index line) <= 1).
  { intros index line. unfold Scanners.classOfLine. cbv zeta.
    destruct (Scanners.classMatch P (trim line)) as [[[name ext] impl] |]; cbn; lia. }
  assert (Hitf : forall index line r,
             In r (Scanners.interfaceOfLine P index line) ->
             itf_startLine r = Scanners.lineNumber index
             /\ itf_endLine r = itf_startLine r).
  { intros index line r. unfold Scanners.interfaceOfLine. cbv zeta.
    destruct (Scanners.interfaceMatch P (trim line)) as [name |];
      intros H; [destruct H as [<- | []]; split; reflexivity | destruct H]. }
  assert (Hitf1 : forall index line,
             List.length (Scanners.interfaceOfLine P index line) <= 1).
  { intros index line. unfold Scanners.interfaceOfLine. cbv zeta.
    destruct (Scanners.interfaceMatch P (trim line)); cbn; lia. }
  assert (Hty : forall index line r,
             In r (Scanners.typeOfLine P index line) ->
             ty_startLine r = Scanners.lineNumber index).
  { intros index line r. unfold Scanners.typeOfLine. cbv zeta.
    destruct (Scanners.typeMatch P (trim line)) as [[name definition] |];
      intros H; [destruct H as [<- | []]; reflexivity | destruct H]. }
  assert (Hty1 : forall index line,
             List.length (Scanners.typeOfLine P index line) <= 1).
  { intros index line. unfold Scanners.typeOfLine. cbv zeta.
    destruct (Scanners.typeMatch P (trim line)) as [[name definition] |]; cbn; lia. }
  assert (Hends : forall (R : Type) (body : nat -> string -> list R) (Q : R -> Prop),
             (forall index line r, In r (body index line) -> Q r) ->
             Forall Q (Scanners.forEachLine body content)).
  { intros R body Q H. unfold Scanners.forEachLine, mapi.
    generalize 0. induction (split content LF) as [| line lines IH]; intros from;
      cbn [mapiFrom concat]; [constructor |].
    apply Forall_app. split; [| apply IH].
    apply Forall_forall. intros r Hr. apply (H _ _ _ Hr). }
  repeat split.
  - unfold Scanners.extractExports. destruct (Scanners.isScript language); [| constructor].
    apply (forEachLine_numbered _ exp_line content (exportOfLine_line P)).
    apply exportOfLine_length.
  - unfold Scanners.extractExports. destruct (Scanners.isScript language); [| constructor].
    apply (forEachLine_numbered _ exp_line content (exportOfLine_line P)).
  - unfold Scanners.extractFunctions. destruct (Scanners.isScript language); [| constructor].
    apply (forEachLine_numbered _ fn_startLine content
             (fun index line r H => proj1 (Hfn index line r H))).
  - unfold Scanners.extractFunctions. destruct (Scanners.isScript language); [| constructor].
    apply Forall_and.
    + apply (forEachLine_numbered _ fn_startLine content
               (fun index line r H => proj1 (Hfn index line r H))).
    + apply Hends. intros index line r H. apply (Hfn index line r H).
  - unfold Scanners.extractClasses. destruct (Scanners.isScript language); [| constructor].
    apply (forEachLine_numbered _ cls_startLine content
             (fun index line r H => proj1 (Hcls index line r H))).
    exact Hcls1.
  - unfold Scanners.extractClasses. destruct (Scanners.isScript language); [| constructor].
    apply Forall_and.
    + apply (forEachLine_numbered _ cls_startLine content
               (fun index line r H => proj1 (Hcls index line r H))).
    + apply Hends. intros index line r H. apply (Hcls index line r H).
  - unfold Scanners.extractInterfaces. destruct language; try constructor.
    apply (forEachLine_numbered _ itf_startLine content
             (fun index line r H => proj1 (Hitf index line r H))).
    exact Hitf1.
  - unfold Scanners.extractInterfaces. destruct language; try constructor.
    apply Forall_and.
    + apply (forEachLine_numbered _ itf_startLine content
               (fun index line r H => proj1 (Hitf index line r H))).
    + apply Hends. intros index line r H. apply (Hitf index line r H).
  - unfold Scanners.extractTypes. destruct language; try constructor.
    apply (forEachLine_numbered _ ty_startLine content Hty). exact Hty1.
  - unfold Scanners.extractTypes. destruct language; try constructor.
    apply (forEachLine_numbered _ ty_startLine content Hty).
Qed.

Lemma functionsOfLine_line (P : Scanners.Patterns) (index : nat) (line : string)
      (r : FunctionRecord) :
  In r (Scanners.functionsOfLine P index line) ->
  fn_startLine r = Scanners.lineNumber index.
Proof.
  unfold Scanners.functionsOfLine. cbv zeta.
  destruct (Scanners.functionMatch P (trim line)) as [[name paramsStr] |];
    destruct (Scanners.arrowMatch P (trim line)) as [name' |]; cbn [app In];
    intros H; repeat (destruct H as [H | H]; [subst r; reflexivity |]); destruct H.
Qed.

Lemma classOfLine_line (P : Scanners.Patterns) (index : nat) (line : string)
      (r : ClassRecord) :
  In r (Scanners.classOfLine P index line) ->
  cls_startLine r = Scanners.lineNumber index.
Proof.
  unfold Scanners.classOfLine. cbv zeta.
  destruct (Scanners.classMatch P (trim line)) as [[[name ext] impl] |];
    intros H; [destruct H as [<- | []]; reflexivity | destruct H].
Qed.

Lemma split_comma_nonempty (s : string) : map trim (split s ",") <> [].
Proof.
  pose proof (@splitFrom_nonempty "," 0 s) as H. unfold split.
  destruct (splitFrom "," 0 s); [congruence | discriminate].
Qed.

Lemma importOf_named (m : option string * option string * option string * string)
      (imp : ImportRecord) :
  In imp (Scanners.importOf m) ->
  imp_imports imp <> []
  /\ (imp_isDefault imp = true -> List.length (imp_imports imp) = 1).
Proof.
  destruct m as [[[defaultImport namedImports] namespaceImport] p].
  unfold Scanners.importOf.
  destruct (Scanners.truthy defaultImport) as [d |].
  - intros [<- | []]. split; [discriminate | reflexivity].
  - destruct (Scanners.truthy namedImports) as [n |].
    + intros [<- | []]. split; [apply split_comma_nonempty | discriminate].
    + destruct (Scanners.truthy namespaceImport) as [ns |]; [| intros []].
      intros [<- | []]. split; discriminate.
Qed.

Lemma requireOf_named (m : option string * option string * string)
      (imp : ImportRecord) :
  In imp (Scanners.requireOf m) ->
  imp_imports imp <> []
  /\ (imp_isDefault imp = true -> List.length (imp_imports imp) = 1).
Proof.
  destruct m as [[singleImport destructured] p].
  unfold Scanners.requireOf.
  destruct (Scanners.truthy singleImport) as [d |].
  - intros [<- | []]. split; [discriminate | reflexivity].
  - destruct (Scanners.truthy destructured) as [n |]; [| intros []].
    intros [<- | []]. split; [apply split_comma_nonempty | discriminate].
Qed.

Lemma extractImports_named (P : Scanners.Patterns) (content : string)
      (language : Language) (imp : ImportRecord) :
  In imp (Scanners.extractImports P content language) ->
  imp_imports imp <> []
  /\ (imp_isDefault imp = true -> List.length (imp_imports imp) = 1).
Proof.
  unfold Scanners.extractImports. destruct (Scanners.isScript language).
  - intros H. apply in_app_or in H.
    destruct H as [H | H]; apply in_flat_map in H; destruct H as [m [_ H]].
    + apply (importOf_named _ _ H).
    + apply (requireOf_named _ _ H).
  - destruct language; try (intros []).
    intros H. apply in_map_iff in H. destruct H as [[fromPath items] [<- _]].
    unfold Scanners.pythonImportOf. cbn [imp_imports imp_isDefault].
    split; [apply split_comma_nonempty | discriminate].
Qed.

(** X26. What [analyzeFile] records with these scanners depends on the
    language of the file.  A file that is not TypeScript has no interfaces
    and no types; a Python file or a file of another kind has no exports,
    functions or classes; a file of another kind (JSON, Markdown, a file
    that could not be read) has no imports and no dependencies either.
    Every import names at least one symbol, a default import exactly one,
    and the lines of functions and classes are lines of the recorded
    content. *)
Theorem analyzeFile_scanned (W : World) (P : Scanners.Patterns) (filePath : string)
        (st : State) (fileInfo : FileInfo) :
  fst (analyzeFile W (Scanners.extractors P) filePath st) = Ok fileInfo ->
  (language fileInfo <> typescript ->
   interfaces fileInfo = [] /\ types fileInfo = [])
  /\ (language fileInfo = python \/ language fileInfo = other ->
      exports fileInfo = [] /\ functions fileInfo = [] /\ classes fileInfo = [])
  /\ (language fileInfo = other ->
      imports fileInfo = [] /\ dependencies fileInfo = [])
  /\ Forall (fun imp => imp_imports imp <> []
                        /\ (imp_isDefault imp = true ->
                            List.length (imp_imports imp) = 1))
            (imports fileInfo)
  /\ Forall (fun fn => (1 <= fn_startLine fn
                        <= Z.of_nat (List.length (split (content fileInfo) LF)))%Z)
            (functions fileInfo)
  /\ Forall (fun cls => (1 <= cls_startLine cls
                         <= Z.of_nat (List.length (split (content fileInfo) LF)))%Z)
            (classes fileInfo).
Proof.
  assert (Hminimal : forall f, f = minimalFileInfo W filePath
                                     (path_relative W (projectRoot st) filePath) ->
            (language f <> typescript -> interfaces f = [] /\ types f = [])
            /\ (language f = python \/ language f = other ->
                exports f = [] /\ functions f = [] /\ classes f = [])
            /\ (language f = other -> imports f = [] /\ dependencies f = [])
            /\ Forall (fun imp => imp_imports imp <> []
                                  /\ (imp_isDefault imp = true ->
                                      List.length (imp_imports imp) = 1)) (imports f)
            /\ Forall (fun fn => (1 <= fn_startLine fn
                                  <= Z.of_nat (List.length (split (content f) LF)))%Z)
                      (functions f)
            /\ Forall (fun cls => (1 <= cls_startLine cls
                                   <= Z.of_nat (List.length (split (content f) LF)))%Z)
                      (classes f)).
  { intros f ->. cbn. repeat split; constructor. }
  unfold analyzeFile, tryCatchM, bindM, lift, getProjectRoot, cache_set, ret.
  destruct (fs_stat W filePath) as [stats | e1];
    [destruct (fs_readFile W filePath) as [text | e2] |];
    cbn [fst]; intros H; injection H as H;
    [| apply Hminimal; symmetry; exact H | apply Hminimal; symmetry; exact H].
  subst fileInfo.
  cbn [withDependencies language interfaces types exports functions classes imports
       dependencies content Scanners.extractors Analyzer.extractImports
       Analyzer.extractExports Analyzer.extractFunctions Analyzer.extractClasses
       Analyzer.extractInterfaces Analyzer.extractTypes].
  split; [| split; [| split; [| split; [| split]]]].
  - intros Hlang. unfold Scanners.extractInterfaces, Scanners.extractTypes.
    destruct (detectLanguage W filePath); [congruence | | |]; split; reflexivity.
  - unfold Scanners.extractExports, Scanners.extractFunctions, Scanners.extractClasses.
    intros [Hlang | Hlang]; rewrite Hlang; repeat split; reflexivity.
  - unfold Scanners.extractImports. intros Hlang. rewrite Hlang. split; reflexivity.
  - apply Forall_forall. intros imp. apply extractImports_named.
  - unfold Scanners.extractFunctions.
    destruct (Scanners.isScript (detectLanguage W filePath)); [| constructor].
    apply (forEachLine_numbered _ fn_startLine text (functionsOfLine_line P)).
  - unfold Scanners.extractClasses.
    destruct (Scanners.isScript (detectLanguage W filePath)); [| constructor].
    apply (forEachLine_numbered _ cls_startLine text (classOfLine_line P)).
Qed.

Lemma analyzeFile_scanned_witness :
  exists fileInfo,
    fst (analyzeFile Samples.helperWorld (Scanners.extractors Samples.patterns)
                     "/project/src/helper.ts"
                     {| cache := []; projectRoot := "/project" |})
    = Ok fileInfo
    /\ map fn_startLine (functions fileInfo) = [2%Z; 3%Z]
    /\ map exp_line (exports fileInfo) = [2%Z]
    /\ dependencies fileInfo = ["src/util"]
    /\ (language fileInfo <> typescript ->
        interfaces fileInfo = [] /\ types fileInfo = []).
Proof.
  eexists. split; [reflexivity |]. split; [reflexivity |]. split; [reflexivity |].
  split; [reflexivity |].
  apply (analyzeFile_scanned Samples.helperWorld Samples.patterns
           "/project/src/helper.ts"
           {| cache := []; projectRoot := "/project" |} eq_refl).
Defined.

(* ================================================================== *)
(** * The two votes on the primary language                            *)
(* ================================================================== *)

(** The [reduce] of the summary keeps a file whose language has the largest
    share among the files it has seen. *)
Lemma summary_reduce_largest (share : FileInfo -> nat) (rest : list FileInfo)
      (first : FileInfo) :
  let winner :=
    fold_left (fun prev current =>
                 if (share prev <? share current)%nat then current else prev)
              rest first in
  In winner (first :: rest)
  /\ forall f, In f (first :: rest) -> share f <= share winner.
Proof.
  cbv zeta. revert first. induction rest as [| b rest IH]; intros first; cbn [fold_left].
  - split; [left; reflexivity |]. intros f [<- | []]. apply Nat.le_refl.
  - destruct (IH (if (share first <? share b)%nat then b else first)) as [Hin Hmax].
    split.
    + destruct Hin as [Heq | Hin]; [| right; right; exact Hin].
      destruct (share first <? share b)%nat; [right; left | left]; exact Heq.
    + intros f Hf.
      assert (Hpick : share first
                      <= share (if (share first <? share b)%nat then b else first)
                      /\ share b
                         <= share (if (share first <? share b)%nat then b else first)).
      { destruct (share first <? share b)%nat eqn:Hc;
          [apply Nat.ltb_lt in Hc | apply Nat.ltb_ge in Hc]; lia. }
      destruct Hpick as [Hfirst Hb].
      pose proof (Hmax _ (or_introl eq_refl)) as Hw.
      destruct Hf as [<- | [<- | Hf]]; [lia | lia |].
      apply Hmax. right. exact Hf.
Qed.

Lemma languageShare_member (l : Language) (files : list FileInfo) :
  1 <= languageShare l files -> exists f, In f files /\ language f = l.
Proof.
  unfold languageShare. intros H.
  destruct (filter (fun f => Language_eqb (language f) l) files) as [| f fs] eqn:Hf;
    [cbn in H; lia |].
  assert (Hin : In f (filter (fun f => Language_eqb (language f) l) files))
    by (rewrite Hf; left; reflexivity).
  apply filter_In in Hin. destruct Hin as [Hin Heq].
  exists f. split; [exact Hin | apply Language_eqb_eq; exact Heq].
Qed.

(** X27. The request computes the primary language twice, for the metadata
    and for the summary text, by two different votes.  When one language
    has strictly more files than every other language, both votes return
    it. *)
Theorem primaryLanguage_votes_agree (files : list FileInfo) (l : Language)
        (Hmajority : forall l', l' <> l ->
                                languageShare l' files < languageShare l files) :
  detectPrimaryLanguage files = Ok (languageName l)
  /\ summaryPrimaryLanguage files = Ok (languageName l).
Proof.
  assert (Hother : exists l', l' <> l)
    by (destruct l; [exists javascript | exists typescript | exists typescript
                     | exists typescript]; discriminate).
  destruct Hother as [l0 Hl0].
  assert (Hshare : 1 <= languageShare l files) by (specialize (Hmajority l0 Hl0); lia).
  destruct (languageShare_member l files Hshare) as [member [Hmember Hlang]].
  assert (Hne : files <> []) by (intros ->; destruct Hmember).
  split.
  - destruct (detectPrimaryLanguage_largest Hne) as [w [Hvote Hbound]].
    rewrite Hvote. destruct (Language_eqb w l) eqn:Hw.
    + apply Language_eqb_eq in Hw. subst w. reflexivity.
    + exfalso. assert (Hneq : w <> l).
      { intros ->. rewrite (proj2 (Language_eqb_eq l l) eq_refl) in Hw. discriminate. }
      specialize (Hmajority w Hneq). specialize (Hbound l). lia.
  - unfold summaryPrimaryLanguage. destruct files as [| first rest]; [contradiction |].
    cbv zeta.
    destruct (summary_reduce_largest
                (fun f => List.length
                            (filter (fun g => Language_eqb (language g) (language f))
                                    (first :: rest)))
                rest first) as [Hin Hmax].
    set (winner := fold_left _ rest first) in *.
    specialize (Hmax member Hmember). cbv beta in Hmax.
    change (languageShare (language member) (first :: rest)
            <= languageShare (language winner) (first :: rest)) in Hmax.
    rewrite Hlang in Hmax.
    destruct (Language_eqb (language winner) l) eqn:Hw.
    + apply Language_eqb_eq in Hw. rewrite Hw. reflexivity.
    + exfalso. assert (Hneq : language winner <> l).
      { intros Heq. rewrite Heq in Hw.
        rewrite (proj2 (Language_eqb_eq l l) eq_refl) in Hw. discriminate. }
      specialize (Hmajority _ Hneq). lia.
Qed.

Lemma primaryLanguage_votes_agree_witness :
  detectPrimaryLanguage [Samples.appFile; Samples.utilFile] = Ok "typescript"
  /\ summaryPrimaryLanguage [Samples.appFile; Samples.utilFile] = Ok "typescript".
Proof.
  apply (@primaryLanguage_votes_agree [Samples.appFile; Samples.utilFile] typescript).
  intros l' Hl'. destruct l'; [contradiction | | |]; vm_compute; lia.
Defined.

(** On a tie the two votes differ: for one TypeScript file followed by one
    JavaScript file the metadata say [javascript] and the summary says
    [typescript]. *)
Example primaryLanguage_votes_tie :
  let files := [ Samples.sourceFile "a.ts" typescript "";
                 Samples.sourceFile "b.js" javascript "" ] in
  detectPrimaryLanguage files = Ok "javascript"
  /\ summaryPrimaryLanguage files = Ok "typescript".
Proof. split; reflexivity. Qed.

(* ================================================================== *)
(** * Names the folder tree leaves out                                 *)
(* ================================================================== *)

Lemma existsb_partition {A : Type} (test p : A -> bool) (xs : list A) :
  existsb test xs
  = existsb test (filter (fun x => negb (p x)) xs) || existsb test (filter p xs).
Proof.
  induction xs as [| x xs IH]; [reflexivity |].
  cbn [existsb filter]. rewrite IH.
  destruct (p x); cbn [negb existsb]; destruct (test x); cbn [orb];
    rewrite ?orb_true_r; reflexivity.
Qed.

Lemma startsWith_self_extended (p suffix : string) : startsWith (p ++ suffix) p = true.
Proof. unfold startsWith. apply prefix_iff. exists suffix. reflexivity. Qed.

Lemma eqb_startsWith (name pattern : string) :
  String.eqb name pattern || startsWith name pattern = startsWith name pattern.
Proof.
  destruct (String.eqb name pattern) eqn:He; [| reflexivity].
  apply String.eqb_eq in He. subst name. cbn [orb]. symmetry.
  unfold startsWith. apply prefix_iff. exists "". symmetry. apply append_empty_r.
Qed.

Lemma excluded_by (regexTest : string -> string -> bool) (patterns : list string)
      (name : string) :
  existsb (fun pattern =>
             if includes pattern "*"
             then regexTest (FolderTree.replaceStars pattern) name
             else String.eqb name pattern || startsWith name pattern) patterns = true
  <-> (exists pattern,
         In pattern (filter (fun pattern => negb (includes pattern "*")) patterns)
         /\ startsWith name pattern = true)
      \/ (exists pattern,
            In pattern (filter (fun pattern => includes pattern "*") patterns)
            /\ regexTest (FolderTree.replaceStars pattern) name = true).
Proof.
  rewrite (existsb_partition _ (fun pattern => includes pattern "*")).
  rewrite orb_true_iff, !existsb_exists.
  split; intros [[pattern [Hin H]] | [pattern [Hin H]]].
  - left. exists pattern. split; [exact Hin |].
    apply filter_In in Hin. destruct Hin as [_ Hlit].
    apply negb_true_iff in Hlit. rewrite Hlit in H.
    rewrite eqb_startsWith in H. exact H.
  - right. exists pattern. split; [exact Hin |].
    apply filter_In in Hin. destruct Hin as [_ Hwild].
    rewrite Hwild in H. exact H.
  - left. exists pattern. split; [exact Hin |].
    apply filter_In in Hin. destruct Hin as [_ Hlit].
    apply negb_true_iff in Hlit. rewrite Hlit, eqb_startsWith. exact H.
  - right. exists pattern. split; [exact Hin |].
    apply filter_In in Hin. destruct Hin as [_ Hwild].
    rewrite Hwild. exact H.
Qed.

(** X28. A name is left out of the folder tree exactly when it starts with
    one of the patterns without a wildcard, or one of the four wildcard
    patterns, read as a regular expression with [.*] for [*], matches it.
    The comparison for equality adds nothing: exclusion is by prefix, so
    every name that extends a pattern, as [builder.ts] extends [build], is
    left out. *)
Theorem shouldExclude_by_prefix (regexTest : string -> string -> bool) (name : string) :
  (FolderTree.shouldExclude regexTest name = true <->
   (exists pattern, In pattern literalPatterns /\ startsWith name pattern = true)
   \/ (exists pattern, In pattern wildcardPatterns
                       /\ regexTest (FolderTree.replaceStars pattern) name = true))
  /\ (forall pattern suffix,
        In pattern literalPatterns ->
        FolderTree.shouldExclude regexTest (pattern ++ suffix) = true).
Proof.
  unfold FolderTree.shouldExclude, some, literalPatterns, wildcardPatterns.
  generalize FolderTree.excludePatterns. intros patterns. split.
  - apply excluded_by.
  - intros pattern suffix Hin. apply excluded_by.
    left. exists pattern. split; [exact Hin | apply startsWith_self_extended].
Qed.

Lemma shouldExclude_by_prefix_witness :
  FolderTree.shouldExclude (fun _ _ => false) "builder.ts" = true
  /\ FolderTree.shouldExclude (fun _ _ => false) "src" = false.
Proof.
  split; [| reflexivity].
  apply (proj2 (shouldExclude_by_prefix (fun _ _ => false) "builder.ts") "build" "er.ts").
  vm_compute. tauto.
Defined.

(* ================================================================== *)
(** * The project summary                                              *)
(* ================================================================== *)

Lemma addLanguage_counts (file : FileInfo)
      (languages : list (Language * ProjectAnalyzer.LanguageStats)) :
  map (fun entry => (fst entry, ProjectAnalyzer.ls_count (snd entry)))
      (ProjectAnalyzer.addLanguage file languages)
  = countLanguage (language file)
      (map (fun entry => (fst entry, ProjectAnalyzer.ls_count (snd entry))) languages).
Proof.
  induction languages as [| [key lang] rest IH]; [reflexivity |].
  cbn [ProjectAnalyzer.addLanguage map countLanguage fst snd].
  destruct (Language_eqb key (language file)); [reflexivity |].
  cbn [map fst snd]. rewrite IH. reflexivity.
Qed.

Lemma analyzeLanguages_counts (files : list FileInfo) :
  map (fun entry => (fst entry, ProjectAnalyzer.ls_count (snd entry)))
      (ProjectAnalyzer.analyzeLanguages files)
  = fold_left (fun counts f => countLanguage (language f) counts) files [].
Proof.
  unfold ProjectAnalyzer.analyzeLanguages.
  change (@nil (Language * Z))
    with (map (fun entry : Language * ProjectAnalyzer.LanguageStats =>
                 (fst entry, ProjectAnalyzer.ls_count (snd entry))) []).
  generalize (@nil (Language * ProjectAnalyzer.LanguageStats)).
  induction files as [| f files IH]; intros languages; [reflexivity |].
  cbn [fold_left]. rewrite IH, addLanguage_counts. reflexivity.
Qed.

Lemma reduce_counts (rest : list (Language * ProjectAnalyzer.LanguageStats))
      (first : Language * ProjectAnalyzer.LanguageStats) :
  fst (fold_left (fun a b =>
                    if (ProjectAnalyzer.ls_count (snd b)
                        <? ProjectAnalyzer.ls_count (snd a))%Z then a else b)
                 rest first)
  = fst (fold_left (fun a b => if (snd b <? snd a)%Z then a else b)
                   (map (fun entry => (fst entry, ProjectAnalyzer.ls_count (snd entry)))
                        rest)
                   (fst first, ProjectAnalyzer.ls_count (snd first))).
Proof.
  revert first. induction rest as [| b rest IH]; intros first; [reflexivity |].
  cbn [fold_left map]. rewrite IH. cbn [fst snd].
  destruct (ProjectAnalyzer.ls_count (snd b) <? ProjectAnalyzer.ls_count (snd first))%Z;
    reflexivity.
Qed.

Lemma languageName_injective (l l' : Language) :
  languageName l = languageName l' -> l = l'.
Proof. destruct l, l'; cbn; intros H; try reflexivity; discriminate. Qed.

(** X29. The analyzer's project summary cannot be written for an empty
    index: the vote over no language throws a [TypeError].  For a non-empty
    list of files it is written, and the language it names is the one the
    context builder's vote returns for the same files, a language with the
    largest number of files. *)
Theorem generateProjectSummary_vote (files : list FileInfo) :
  (files = [] ->
   ProjectAnalyzer.generateProjectSummary files
   = Throw (TypeError "Reduce of empty array with no initial value"))
  /\ (files <> [] ->
      exists l,
        detectPrimaryLanguage files = Ok (languageName l)
        /\ (forall l', languageShare l' files <= languageShare l files)
        /\ ProjectAnalyzer.generateProjectSummary files
           = Ok ("This project contains " ++ showNat (List.length files)
                 ++ " files primarily written in " ++ languageName l ++ ". "
                 ++ "It follows "
                 ++ join (ProjectAnalyzer.detectArchitecturalPatterns files) ", "
                 ++ " architectural patterns. "
                 ++ "The codebase has "
                 ++ showNat (ProjectAnalyzer.cx_functions
                               (ProjectAnalyzer.calculateProjectComplexity files))
                 ++ " functions and "
                 ++ showNat (ProjectAnalyzer.cx_classes
                               (ProjectAnalyzer.calculateProjectComplexity files))
                 ++ " classes " ++ "across "
                 ++ showNat (ProjectAnalyzer.cx_lines
                               (ProjectAnalyzer.calculateProjectComplexity files))
                 ++ " lines of code.")).
Proof.
  split; [intros ->; reflexivity |].
  intros Hne.
  destruct (detectPrimaryLanguage_largest Hne) as [l [Hvote Hbound]].
  exists l. split; [exact Hvote |]. split; [exact Hbound |].
  pose proof (analyzeLanguages_counts files) as Hcounts.
  unfold ProjectAnalyzer.generateProjectSummary. cbv zeta.
  unfold detectPrimaryLanguage in Hvote. cbv zeta in Hvote.
  rewrite <- Hcounts in Hvote.
  destruct (ProjectAnalyzer.analyzeLanguages files) as [| first rest];
    [discriminate |].
  cbn [map] in Hvote. injection Hvote as Hname.
  apply languageName_injective in Hname.
  rewrite reduce_counts, Hname. reflexivity.
Qed.

Lemma generateProjectSummary_vote_witness :
  exists l,
    detectPrimaryLanguage [Samples.appFile; Samples.utilFile] = Ok (languageName l)
    /\ ProjectAnalyzer.generateProjectSummary [Samples.appFile; Samples.utilFile]
       = Ok ("This project contains 2 files primarily written in typescript. "
             ++ "It follows Utility Functions architectural patterns. "
             ++ "The codebase has 1 functions and 0 classes across 2 lines of code.").
Proof.
  assert (Hne : [Samples.appFile; Samples.utilFile] <> []) by discriminate.
  destruct (proj2 (generateProjectSummary_vote [Samples.appFile; Samples.utilFile]) Hne)
    as [l [Hvote [_ Hsummary]]].
  exists l. split; [exact Hvote |]. reflexivity.
Defined.

(* ================================================================== *)
(** * The server                                                       *)
(* ================================================================== *)

Section ServerProperties.

Variable W : World.
Variable X : Extractors.
Variable E : RegExpEngine.
Variable P : Platform.
Variable R : Renderer.
Variable A : ContextValidator.Arithmetic.

Variables StructureDetails AnalysisDetails Cluster : Type.
Variable structureDetails : list FileInfo -> StructureDetails.
Variable analysisDetails : list FileInfo -> AnalysisDetails.
Variable identifyModuleClusters : list FileInfo -> list Cluster.

(** A tool call answers, and leaves the server's own analyzer and its file
    watcher as they were. *)
Lemma callTool_answers (call : Server.ToolCall) (st : Server.State) :
  exists result st',
    Server.callTool W X E P R A call st = (Server.Returned result, st')
    /\ Server.analyzer st' = Server.analyzer st
    /\ Server.fileWatcher st' = Server.fileWatcher st.
Proof.
  destruct call as [args | args]; unfold Server.callTool.
  - unfold Server.handleGetCompleteContext, buildCompleteContext, tryCatchM. cbv zeta.
    destruct (buildCompleteContextBody W X E P R _ (Server.contextBuilder st))
      as [[context | error] builder].
    + eexists _, _. split; [reflexivity |]. split; reflexivity.
    + unfold buildCompleteContextCatch, ret.
      eexists _, _. split; [reflexivity |]. split; reflexivity.
  - unfold Server.handleGetFolderTree. cbv zeta.
    eexists _, _. split; [reflexivity |]. split; reflexivity.
Qed.

Lemma afterCalls_analyzer (calls : list Server.ToolCall) (st : Server.State) :
  Server.analyzer (Server.afterCalls W X E P R A calls st) = Server.analyzer st.
Proof.
  unfold Server.afterCalls. revert st.
  induction calls as [| call calls IH]; intros st; [reflexivity |].
  cbn [fold_left]. rewrite IH.
  destruct (callTool_answers call st) as [result [st' [Hcall [Hanalyzer _]]]].
  rewrite Hcall. exact Hanalyzer.
Qed.

(** X30. Called with arguments of the declared shape, neither tool of the
    server fails, and neither touches the server's own analyzer: requests
    are indexed in the analyzer the context builder owns.
    So after every sequence of tool calls on a new server the resources
    describe an empty index: the structure counts no file, the dependency
    graph has no node and no edge, and reading the analysis fails with an
    internal error, because the project summary cannot be written for an
    empty index. *)
Theorem server_resources_stay_empty (calls : list Server.ToolCall) :
  let st := Server.afterCalls W X E P R A calls Server.initial in
  (forall call, exists result st',
     Server.callTool W X E P R A call st = (Server.Returned result, st'))
  /\ Server.analyzer st = initialState
  /\ (exists structure,
        Server.readResource structureDetails analysisDetails identifyModuleClusters
          Server.StructureResource st
        = Server.Returned (Server.StructureJson _ _ structure)
        /\ ProjectAnalyzer.st_totalFiles structure = 0)
  /\ Server.readResource structureDetails analysisDetails identifyModuleClusters
       Server.DependenciesResource st
     = Server.Returned
         (Server.DependenciesJson _ _
            {| ProjectAnalyzer.pg_nodes := [];
               ProjectAnalyzer.pg_edges := [];
               ProjectAnalyzer.pg_clusters := identifyModuleClusters [] |})
  /\ Server.readResource structureDetails analysisDetails identifyModuleClusters
       Server.AnalysisResource st
     = Server.Failed
         {| Server.code := Server.InternalError;
            Server.mcp_message :=
              "Error reading resource project://analysis: "
              ++ "Reduce of empty array with no initial value" |}.
Proof.
  cbv zeta.
  pose proof (afterCalls_analyzer calls Server.initial) as Hanalyzer.
  cbn [Server.initial Server.analyzer] in Hanalyzer.
  split; [| split; [exact Hanalyzer | split; [| split]]].
  - intros call.
    destruct (callTool_answers call (Server.afterCalls W X E P R A calls Server.initial))
      as [result [st' [Hcall _]]].
    exists result, st'. exact Hcall.
  - unfold Server.readResource. rewrite Hanalyzer. eexists. split; reflexivity.
  - unfold Server.readResource. rewrite Hanalyzer. reflexivity.
  - unfold Server.readResource. rewrite Hanalyzer. reflexivity.
Qed.

End ServerProperties.
